(** * Able IoT challenge: the telemetry store and its read-time views

    A shallow embedding of the PostgreSQL schema
    ([ingest_service/db/init/001_tables.sql]), of the views and metrics built
    on it ([ingest_service/db/init/002_views.sql]) and of the example queries
    served by the analytics service
    ([analytics_service/src/pages/api/examples/run.ts]).

    Modelling conventions.
    - A table is the list of its rows, in heap order; a view is a function from
      the database to the list of rows a [SELECT * FROM view] returns.
    - [INT], [BIGINT] and [SERIAL] columns are [Z]; a [TIMESTAMPTZ] is the [Z]
      number of microseconds since the epoch; [TEXT] is [string].
    - A stored [NUMERIC] is a decimal, an integer and its display scale; as an
      expression it is the rational [Q] whose denominator is the power of ten
      of that scale, so [20.0] is [200 # 10].  SQL's numeric equality and
      order are [Qeq] and [Qlt], so [1.0] and [1.00] are the same value.  A
      division rounds to the result scale PostgreSQL 16 selects for it, and
      [AVG] is such a division.  The special values [NaN] and [Infinity] of
      [NUMERIC] and the limits of its format are not modelled.
    - A nullable column or expression is an [option]; SQL's three-valued
      conditions are [option bool], with [None] for unknown.
    - Where several tables or views have a column of the same name, the
      name carries the initials of its table ([pr_device_id] is
      [processed_record.device_id]). *)

From Stdlib Require Import List ZArith QArith String Ascii Bool Lia.
From Stdlib Require Import DecimalString Qabs Qround Qpower Permutation Sorted.
From Stdlib Require Import Lqa.
From Stdlib Require DecimalN.
Import ListNotations.
Open Scope Z_scope.

(** ** JSON documents, as stored in a [JSONB] column *)

(** A JSON number is kept as the decimal [mantissa * 10^(-scale)], which
    is what [jsonb] stores and prints. *)
#[local] Unset Elimination Schemes.
Inductive json : Type :=
| JNull
| JBool (b : bool)
| JNumber (mantissa : Z) (scale : nat)
| JString (s : string)
| JArray (items : list json)
| JObject (fields : list (string * json)).
#[local] Set Elimination Schemes.

(** ** [NUMERIC] values *)

(** A stored [NUMERIC]: the decimal [unscaled * 10^(-nscale)], [nscale]
    being its display scale. *)
Record numeric := {
  unscaled : Z;
  nscale : nat
}.

Definition numeric_value (x : numeric) : Q :=
  unscaled x # Z.to_pos (10 ^ Z.of_nat (nscale x)).

(** ** Tables of [001_tables.sql] *)

Record device_row := {
  d_id : Z;
  d_name : string;
  d_init_date : option Z
}.

Record record_type_row := {
  rt_id : Z;
  rt_name : string;
  rt_version_id : option Z
}.

Record raw_record_row := {
  rr_id : Z;
  rr_raw_message : json;
  rr_arrival_time : Z
}.

Record ingest_error_row := {
  ie_raw_data_id : Z;
  ie_error : string;
  ie_created_at : Z
}.

Record processed_record_row := {
  pr_id : Z;
  pr_device_id : Z;
  pr_raw_data_id : Z;
  pr_record_time : Z;
  pr_type : Z;
  pr_numeric : numeric
}.

(** [processed_record.value], as an expression. *)
Definition pr_value (pr : processed_record_row) : Q :=
  numeric_value (pr_numeric pr).

(** The database: the five tables and the three sequences behind the
    [SERIAL] / [BIGSERIAL] keys (each holds the next value to hand out). *)
Record database := {
  device : list device_row;
  record_type : list record_type_row;
  raw_record : list raw_record_row;
  ingest_error : list ingest_error_row;
  processed_record : list processed_record_row;
  record_type_id_seq : Z;
  raw_record_id_seq : Z;
  processed_record_id_seq : Z
}.

(** ** SQL expressions *)

(** Three-valued conditions. *)
Definition sql_bool := option bool.

Definition sql_and (a b : sql_bool) : sql_bool :=
  match a, b with
  | Some false, _ | _, Some false => Some false
  | Some true, Some true => Some true
  | _, _ => None
  end.

Definition is_not_null {A} (x : option A) : sql_bool :=
  match x with Some _ => Some true | None => Some false end.

(** A [WHEN] arm, a [WHERE] clause and a [FILTER] keep a row only when the
    condition is true, not when it is false or unknown. *)
Definition holds (c : sql_bool) : bool :=
  match c with Some true => true | _ => false end.

Definition Qltb (x y : Q) : bool :=
  match Qcompare x y with Lt => true | _ => false end.

(** [a > b] and [a < b] on nullable numerics. *)
Definition sql_gt (a b : option Q) : sql_bool :=
  match a, b with
  | Some x, Some y => Some (Qltb y x)
  | _, _ => None
  end.

Definition sql_lt (a b : option Q) : sql_bool := sql_gt b a.

(** ** [NUMERIC] arithmetic *)

(** The number of decimal digits of a positive integer, less one. *)
Fixpoint log10_fuel (fuel : nat) (n : Z) : Z :=
  match fuel with
  | O => 0
  | S f => if n <? 10 then 0 else 1 + log10_fuel f (n / 10)
  end.

Definition log10 (n : Z) : Z := log10_fuel (Z.to_nat (Z.log2 n)) n.

(** The display scale of a numeric expression. *)
Definition dscale (q : Q) : Z := log10 (Z.pos (Qden q)).

(** [q] is a numeric: its denominator is the power of ten of its scale. *)
Definition is_numeric (q : Q) : Prop := Z.pos (Qden q) = 10 ^ dscale q.

(** [q] has at most [s] decimals. *)
Definition on_grid (s : Z) (q : Q) : Prop :=
  exists k : Z, (q == k # Z.to_pos (10 ^ s))%Q.

(** [q] rounded to [s] decimals, ties away from zero ([round_var]). *)
Definition numeric_round (s : Z) (q : Q) : Q :=
  let n := Qfloor (Qabs q * inject_Z (10 ^ s) + (1 # 2))%Q in
  (if Qltb q 0%Q then - n else n) # Z.to_pos (10 ^ s).

(** PostgreSQL keeps a numeric in base 10000: the weight of its first
    non-zero digit and that digit, both [0] for zero. *)
Definition digit_weight (q : Q) : Z :=
  if Qnum q =? 0 then 0 else (log10 (Z.abs (Qnum q)) - dscale q) / 4.

Definition first_digit (q : Q) : Z :=
  if Qnum q =? 0 then 0
  else Qfloor (Qabs q / inject_Z 10000 ^ digit_weight q)%Q.

(** [select_div_scale]: the weight estimated for the quotient, one less
    when the first digit of the dividend is not above the divisor's; the
    result scale gives at least sixteen significant digits and no less than
    the scale of either input, and at most a thousand decimals. *)
Definition quotient_weight (a b : Q) : Z :=
  digit_weight a - digit_weight b
  - (if first_digit a <=? first_digit b then 1 else 0).

Definition select_div_scale (a b : Q) : Z :=
  Z.min 1000
        (Z.max 0 (Z.max (dscale b)
                        (Z.max (dscale a) (16 - quotient_weight a b * 4)))).

(** [a / b] on numerics, for a divisor that is not zero (PostgreSQL raises
    [22012] on zero; neither use below divides by zero): the quotient
    rounded to the selected scale. *)
Definition numeric_div (a b : Q) : Q :=
  numeric_round (select_div_scale a b) (a / b).

(** [a + b] on numerics: exact, at the larger of the two scales. *)
Definition numeric_add (a b : Q) : Q :=
  let s := Z.max (dscale a) (dscale b) in
  (Qnum a * 10 ^ (s - dscale a) + Qnum b * 10 ^ (s - dscale b))
  # Z.to_pos (10 ^ s).

Definition numeric_sum (vs : list Q) : Q := fold_right numeric_add 0%Q vs.

(** ** The unification view [v_platform_extension_mm] *)

Record extension_row := {
  device_id : Z;
  observed_at : Z;
  extension_mm : option Q
}.

(** [rt.name IN ('platform_extension_mm','platform_extension_ticks')] *)
Definition is_extension_type (name : string) : bool :=
  (name =? "platform_extension_mm")%string
  || (name =? "platform_extension_ticks")%string.

(** The [CASE] of the view; without an [ELSE] it is [NULL] when no arm
    matches. *)
Definition extension_case (name : string) (value : Q) : option Q :=
  if (name =? "platform_extension_mm")%string then Some value
  else if (name =? "platform_extension_ticks")%string
       then Some (numeric_div value 20.0)
  else None.

(** [processed_record pr JOIN record_type rt ON rt.id = pr.type], for one
    fact: the matching rows of the dimension. *)
Definition joined_types (db : database) (pr : processed_record_row)
  : list record_type_row :=
  filter (fun rt => rt_id rt =? pr_type pr) (record_type db).

(** The rows of the view that come from one fact. *)
Definition extension_rows_of (db : database) (pr : processed_record_row)
  : list extension_row :=
  map (fun rt => {| device_id := pr_device_id pr;
                    observed_at := pr_record_time pr;
                    extension_mm := extension_case (rt_name rt) (pr_value pr) |})
      (filter (fun rt => is_extension_type (rt_name rt)) (joined_types db pr)).

Definition v_platform_extension_mm (db : database) : list extension_row :=
  flat_map (extension_rows_of db) (processed_record db).

(** ** Schema constraints *)

(** [record_type.id] is the primary key. *)
Definition record_type_pkey (db : database) : Prop :=
  NoDup (map rt_id (record_type db)).

(** The type row a fact refers to ([type INT REFERENCES record_type(id)]). *)
Definition type_of (db : database) (pr : processed_record_row)
  : option record_type_row :=
  find (fun rt => rt_id rt =? pr_type pr) (record_type db).

(** ** Sorting, grouping and window functions *)

(** [ORDER BY]: a stable insertion sort, so rows with equal keys stay in the
    order the input had them (PostgreSQL promises no order among such rows;
    the model picks this one). *)
Fixpoint insert_sorted {A} (leb : A -> A -> bool) (x : A) (l : list A) : list A :=
  match l with
  | [] => [x]
  | y :: l' => if leb x y then x :: l else y :: insert_sorted leb x l'
  end.

Definition order_by {A} (leb : A -> A -> bool) (l : list A) : list A :=
  fold_right (insert_sorted leb) [] l.

(** The distinct values of a grouping or partitioning key. *)
Definition distinct (keys : list Z) : list Z := nodup Z.eq_dec keys.

(** [PARTITION BY device_id ORDER BY observed_at]: the partition of device
    [d], in window order. *)
Definition partition_by_device (d : Z) (rows : list extension_row)
  : list extension_row :=
  order_by (fun r x => observed_at r <=? observed_at x)
           (filter (fun r => device_id r =? d) rows).

(** [LAG(e) OVER (...)] along one partition: each row with the value [e] had
    on the row before it, [NULL] on the first row. *)
Fixpoint lag {A B} (e : A -> option B) (prev : option B) (l : list A)
  : list (A * option B) :=
  match l with
  | [] => []
  | x :: l' => (x, prev) :: lag e (e x) l'
  end.

(** [SUM] of a column: [NULL] over no rows. *)
Definition sql_sum (l : list Z) : option Z :=
  match l with
  | [] => None
  | _ => Some (fold_right Z.add 0 l)
  end.

(** [COUNT( * ) FILTER (WHERE c)]. *)
Definition count_filter {A} (c : A -> sql_bool) (l : list A) : Z :=
  Z.of_nat (List.length (filter (fun x => holds (c x)) l)).

(** ** The metric view [metric_extension_vs_retraction] *)

(** The rows of its [series] common table expression. *)
Record series_row := {
  s_device_id : Z;
  s_observed_at : Z;
  s_extension_mm : option Q;
  prev_mm : option Q
}.

Definition series_of_partition (rows : list extension_row) : list series_row :=
  map (fun rp => {| s_device_id := device_id (fst rp);
                    s_observed_at := observed_at (fst rp);
                    s_extension_mm := extension_mm (fst rp);
                    prev_mm := snd rp |})
      (lag extension_mm None rows).

Definition series (db : database) : list series_row :=
  let v := v_platform_extension_mm db in
  flat_map (fun d => series_of_partition (partition_by_device d v))
           (distinct (map device_id v)).

(** [CASE WHEN prev_mm IS NOT NULL AND extension_mm > prev_mm THEN 1 ELSE 0 END] *)
Definition extension_flag (s : series_row) : Z :=
  if holds (sql_and (is_not_null (prev_mm s))
                    (sql_gt (s_extension_mm s) (prev_mm s)))
  then 1 else 0.

(** [CASE WHEN prev_mm IS NOT NULL AND extension_mm < prev_mm THEN 1 ELSE 0 END] *)
Definition retraction_flag (s : series_row) : Z :=
  if holds (sql_and (is_not_null (prev_mm s))
                    (sql_lt (s_extension_mm s) (prev_mm s)))
  then 1 else 0.

Record extension_vs_retraction_row := {
  evr_device_id : Z;
  extensions : option Z;
  retractions : option Z
}.

Definition metric_extension_vs_retraction (db : database)
  : list extension_vs_retraction_row :=
  let s := series db in
  map (fun d =>
         let g := filter (fun r => s_device_id r =? d) s in
         {| evr_device_id := d;
            extensions := sql_sum (map extension_flag g);
            retractions := sql_sum (map retraction_flag g) |})
      (distinct (map s_device_id s)).

(** ** The example query [side_switches] of [run.ts] *)

(** [CASE WHEN extension_mm > 0 THEN 'right' WHEN extension_mm < 0 THEN 'left'
    ELSE 'center' END] *)
Definition side_case (e : option Q) : string :=
  if holds (sql_gt e (Some 0%Q)) then "right"
  else if holds (sql_lt e (Some 0%Q)) then "left"
  else "center".

Record side_series_row := {
  ss_device_id : Z;
  ss_observed_at : Z;
  ss_extension_mm : option Q;
  side : string;
  prev_side : option string
}.

Definition side_series_of_partition (rows : list extension_row)
  : list side_series_row :=
  map (fun rp => {| ss_device_id := device_id (fst rp);
                    ss_observed_at := observed_at (fst rp);
                    ss_extension_mm := extension_mm (fst rp);
                    side := side_case (extension_mm (fst rp));
                    prev_side := snd rp |})
      (lag (fun r => Some (side_case (extension_mm r))) None rows).

Definition side_series (db : database) : list side_series_row :=
  let v := v_platform_extension_mm db in
  flat_map (fun d => side_series_of_partition (partition_by_device d v))
           (distinct (map device_id v)).

(** [t = 'lit'] on a nullable text. *)
Definition sql_text_eq (t : option string) (lit : string) : sql_bool :=
  match t with
  | Some s => Some (s =? lit)%string
  | None => None
  end.

Definition sql_text_neq (t : option string) (lit : string) : sql_bool :=
  match t with
  | Some s => Some (negb (s =? lit)%string)
  | None => None
  end.

Record side_switches_row := {
  sw_device_id : Z;
  left_to_right : Z;
  right_to_left : Z
}.

Definition side_switches (db : database) : list side_switches_row :=
  let kept :=
    filter (fun r => holds (sql_and (is_not_null (prev_side r))
                                    (sql_text_neq (Some (side r)) "center")))
           (side_series db) in
  map (fun d =>
         let g := filter (fun r => ss_device_id r =? d) kept in
         {| sw_device_id := d;
            left_to_right :=
              count_filter (fun r => sql_and (sql_text_eq (prev_side r) "left")
                                             (sql_text_eq (Some (side r)) "right")) g;
            right_to_left :=
              count_filter (fun r => sql_and (sql_text_eq (prev_side r) "right")
                                             (sql_text_eq (Some (side r)) "left")) g |})
      (order_by Z.leb (distinct (map ss_device_id kept))).

(** ** Expressions that can raise *)

(** The outcome of evaluating an SQL expression or statement: a value, or
    the error that aborts the statement (with its SQLSTATE). *)
Inductive sql_result (A : Type) : Type :=
| Value (a : A)
| Raise (sqlstate : string).
Arguments Value {A} a.
Arguments Raise {A} sqlstate.

(** All results of a list, or the first error among them. *)
Fixpoint all_values {A} (l : list (sql_result A)) : sql_result (list A) :=
  match l with
  | [] => Value []
  | Raise e :: _ => Raise e
  | Value a :: l' =>
      match all_values l' with
      | Value r => Value (a :: r)
      | Raise e => Raise e
      end
  end.

(** *** The cast [text::int]

    PostgreSQL's [int4in], as of the PostgreSQL 16 the compose file runs:
    optional white space, an optional sign, then decimal digits or a [0x],
    [0o] or [0b] literal, with single underscores between digits, then
    optional white space; the value must fit 32 bits.  Anything else raises
    [22P02] (invalid text representation) or [22003] (out of range). *)

Definition is_space (c : ascii) : bool :=
  let n := Z.of_nat (nat_of_ascii c) in
  (n =? 32) || ((9 <=? n) && (n <=? 13)).

Definition digit_value (base : Z) (c : ascii) : option Z :=
  let n := Z.of_nat (nat_of_ascii c) in
  let v := if (48 <=? n) && (n <=? 57) then n - 48
           else if (97 <=? n) && (n <=? 102) then n - 87
           else if (65 <=? n) && (n <=? 70) then n - 55
           else -1 in
  if (0 <=? v) && (v <? base) then Some v else None.

Fixpoint skip_spaces (s : string) : string :=
  match s with
  | String c rest => if is_space c then skip_spaces rest else s
  | EmptyString => s
  end.

(** The digit loop: the value read, whether a digit was seen, and the rest
    of the text; [None] for a misplaced underscore. *)
Fixpoint scan_digits (base acc : Z) (seen : bool) (s : string)
  : option (Z * bool * string) :=
  match s with
  | EmptyString => Some (acc, seen, s)
  | String c rest =>
      match digit_value base c with
      | Some v => scan_digits base (acc * base + v) true rest
      | None =>
          if (c =? "_")%char then
            if (base =? 10) && negb seen then None
            else match rest with
                 | String c' _ =>
                     match digit_value base c' with
                     | Some _ => scan_digits base acc seen rest
                     | None => None
                     end
                 | EmptyString => None
                 end
          else Some (acc, seen, s)
      end
  end.

Definition split_base (s : string) : Z * string :=
  match s with
  | String "0" (String ("x" | "X") rest) => (16, rest)
  | String "0" (String ("o" | "O") rest) => (8, rest)
  | String "0" (String ("b" | "B") rest) => (2, rest)
  | _ => (10, s)
  end.

Definition cast_text_int (t : string) : sql_result Z :=
  let s := skip_spaces t in
  let '(neg, s) := match s with
                   | String "-" rest => (true, rest)
                   | String "+" rest => (false, rest)
                   | _ => (false, s)
                   end in
  let '(base, s) := split_base s in
  match scan_digits base 0 false s with
  | Some (n, true, rest) =>
      match skip_spaces rest with
      | EmptyString =>
          let v := if neg then - n else n in
          if (- 2147483648 <=? v) && (v <=? 2147483647) then Value v
          else Raise "22003"
      | _ => Raise "22P02"
      end
  | _ => Raise "22P02"
  end.

(** A cast is strict: [NULL::int] is [NULL]. *)
Definition cast_int (t : option string) : sql_result (option Z) :=
  match t with
  | None => Value None
  | Some s => match cast_text_int s with
              | Value v => Value (Some v)
              | Raise e => Raise e
              end
  end.

(** *** [jsonb ->> text] *)

(** The text of a [NUMERIC]: the digits of the mantissa with the point
    [scale] places from the right. *)
Fixpoint zeros (n : nat) : string :=
  match n with O => EmptyString | S n' => String "0" (zeros n') end.

Definition numeric_out (mantissa : Z) (scale : nat) : string :=
  let digits := NilZero.string_of_uint (N.to_uint (Z.abs_N mantissa)) in
  let padded := (zeros (S scale - String.length digits) ++ digits)%string in
  let int_len := (String.length padded - scale)%nat in
  ((if (mantissa <? 0)%Z then "-" else EmptyString)
   ++ substring 0 int_len padded
   ++ (match scale with
       | O => EmptyString
       | _ => "." ++ substring int_len scale padded
       end))%string.

Definition double_quote : ascii := ascii_of_nat 34.

(** A JSON string literal (only the quote and the backslash are escaped
    here). *)
Fixpoint escape_json (s : string) : string :=
  match s with
  | EmptyString => EmptyString
  | String c rest =>
      if ((c =? double_quote)%char || (c =? "\")%char)
      then String "\" (String c (escape_json rest))
      else String c (escape_json rest)
  end.

Definition quote_json (s : string) : string :=
  (String double_quote (escape_json s) ++ String double_quote EmptyString)%string.

(** [jsonb_out]: the text form of a stored document. *)
Fixpoint jsonb_out (j : json) : string :=
  match j with
  | JNull => "null"
  | JBool true => "true"
  | JBool false => "false"
  | JNumber m sc => numeric_out m sc
  | JString s => quote_json s
  | JArray items =>
      ("[" ++ String.concat ", " (map jsonb_out items) ++ "]")%string
  | JObject fields =>
      ("{" ++ String.concat ", "
                (map (fun kv : string * json => let (k, v) := kv in
                                (quote_json k ++ ": " ++ jsonb_out v)%string)
                     fields) ++ "}")%string
  end.

Definition json_field (key : string) (fields : list (string * json))
  : option json :=
  option_map snd (find (fun kv => (fst kv =? key)%string) fields).

(** [j ->> key]: the field of an object as text; [NULL] when [j] is not an
    object, has no such field, or the field is JSON [null]; a string comes
    without its quotes. *)
Definition json_get_text (j : json) (key : string) : option string :=
  match j with
  | JObject fields =>
      match json_field key fields with
      | None | Some JNull => None
      | Some (JString s) => Some s
      | Some v => Some (jsonb_out v)
      end
  | _ => None
  end.

(** ** The diagnostic view [ingest_parse] *)

(** [l LEFT JOIN r ON on]: every left row, with each right row that matches
    it, or once with [NULL]s when none does. *)
Definition left_join {A B} (on : A -> B -> bool) (l : list A) (r : list B)
  : list (A * option B) :=
  flat_map (fun a => match filter (on a) r with
                     | [] => [(a, None)]
                     | m => map (fun b => (a, Some b)) m
                     end) l.

(** [COALESCE(a, b)] evaluates [b] only when [a] is [NULL]. *)
Definition coalesce {A} (a : option A) (b : unit -> sql_result (option A))
  : sql_result (option A) :=
  match a with
  | Some x => Value (Some x)
  | None => b tt
  end.

(** A row of the view.  The [device_id] column is an expression that can
    raise; a query that reads the column fails when it does. *)
Record ingest_parse_row := {
  ip_raw_data_id : Z;
  ip_device_id : sql_result (option Z);
  parse_ok : bool;
  error : option string
}.

Definition ingest_parse (db : database) : list ingest_parse_row :=
  map (fun j =>
         let '(rr, pr, ie) := j in
         {| ip_raw_data_id := rr_id rr;
            ip_device_id :=
              coalesce (option_map pr_device_id pr)
                       (fun _ => cast_int (json_get_text (rr_raw_message rr)
                                                         "device_id"));
            parse_ok := match pr with Some _ => true | None => false end;
            error := option_map ie_error ie |})
      (left_join (fun (j : raw_record_row * option processed_record_row) ie =>
                    ie_raw_data_id ie =? rr_id (fst j))
                 (left_join (fun rr pr => pr_raw_data_id pr =? rr_id rr)
                            (raw_record db) (processed_record db))
                 (ingest_error db)).

(** [SELECT * FROM ingest_parse]: the rows, or the error of the first
    [device_id] that raises. *)
Definition select_ingest_parse (db : database)
  : sql_result (list (Z * option Z * bool * option string)) :=
  all_values
    (map (fun r => match ip_device_id r with
                   | Value d => Value (ip_raw_data_id r, d, parse_ok r, error r)
                   | Raise e => Raise e
                   end)
         (ingest_parse db)).

(** ** The metric view [metric_avg_extension_mm] *)

(** The non-null values of a column. *)
Definition non_null {A} (l : list (option A)) : list A :=
  flat_map (fun o => match o with Some a => [a] | None => [] end) l.

(** [AVG] of a nullable numeric column ([numeric_avg]): the sum of its
    non-null values divided by their number, [NULL] when there is none. *)
Definition sql_avg (l : list (option Q)) : option Q :=
  match non_null l with
  | [] => None
  | vs => Some (numeric_div (numeric_sum vs)
                            (inject_Z (Z.of_nat (List.length vs))))
  end.

(** [x::numeric(10,3)]: [x] rounded to three decimals, ties away from zero;
    raises [22003] when the result needs more than seven integer digits. *)
Definition cast_numeric_10_3 (x : option Q) : sql_result (option Q) :=
  match x with
  | None => Value None
  | Some q =>
      let n := Qfloor (Qabs q * 1000 + (1 # 2))%Q in
      if 10000000000 <=? n then Raise "22003"
      else Value (Some ((if Qltb q 0%Q then - n else n) # 1000))
  end.

Record avg_extension_row := {
  avg_device_id : Z;
  avg_extension_mm : sql_result (option Q)
}.

Definition metric_avg_extension_mm (db : database) : list avg_extension_row :=
  let v := v_platform_extension_mm db in
  map (fun d =>
         {| avg_device_id := d;
            avg_extension_mm :=
              cast_numeric_10_3
                (sql_avg (map extension_mm
                              (filter (fun r => device_id r =? d) v))) |})
      (distinct (map device_id v)).

(** ** The other example queries of [run.ts] *)

(** [processed_record pr JOIN record_type rt ON rt.id = pr.type
     WHERE rt.name IN ('platform_extension_ticks','platform_extension_mm')] *)
Definition extension_facts (db : database)
  : list (processed_record_row * record_type_row) :=
  flat_map (fun pr => map (pair pr)
                          (filter (fun rt => is_extension_type (rt_name rt))
                                  (joined_types db pr)))
           (processed_record db).

Record counts_by_type_row := {
  cbt_type : string;
  cbt_rows : Z
}.

Definition counts_by_type (db : database) : list counts_by_type_row :=
  let f := extension_facts db in
  map (fun n => {| cbt_type := n;
                   cbt_rows := count_filter
                                 (fun j => Some (rt_name (snd j) =? n)%string) f |})
      (order_by String.leb (nodup string_dec (map (fun j => rt_name (snd j)) f))).

Record devices_both_formats_row := {
  dbf_device_id : Z;
  new_mm : Z;
  legacy_ticks : Z
}.

Definition devices_both_formats (db : database)
  : list devices_both_formats_row :=
  let f := extension_facts db in
  let groups :=
    map (fun d =>
           let g := filter (fun j => pr_device_id (fst j) =? d) f in
           {| dbf_device_id := d;
              new_mm := count_filter
                (fun j => Some (rt_name (snd j) =? "platform_extension_mm")%string) g;
              legacy_ticks := count_filter
                (fun j => Some (rt_name (snd j) =? "platform_extension_ticks")%string) g |})
        (order_by Z.leb (distinct (map (fun j => pr_device_id (fst j)) f))) in
  filter (fun r => (0 <? new_mm r) && (0 <? legacy_ticks r)) groups.

Record unified_recent_row := {
  ur_device_id : Z;
  ur_record_time : Z;
  source_type : string;
  source_value : Q;
  ur_extension_mm : option Q
}.

Definition unified_recent (db : database) : list unified_recent_row :=
  firstn 50
    (map (fun j =>
            {| ur_device_id := pr_device_id (fst j);
               ur_record_time := pr_record_time (fst j);
               source_type := rt_name (snd j);
               source_value := pr_value (fst j);
               ur_extension_mm := extension_case (rt_name (snd j))
                                                 (pr_value (fst j)) |})
         (order_by (fun a b => pr_record_time (fst b) <=? pr_record_time (fst a))
                   (extension_facts db))).

(** ** The connection pool ([getPool]) *)

(** A [Pool] object: [pool_id] is its identity, the number of pools
    constructed before it. *)
Record Pool := {
  pool_id : nat;
  connectionString : string;
  max : Z
}.

(** The module's state: the variable [_pool] and the number of pools
    constructed so far. *)
Record pool_module := {
  _pool : option Pool;
  pools_constructed : nat
}.

Definition pool_module_init : pool_module :=
  {| _pool := None; pools_constructed := 0 |}.

(** [!conn] for [process.env.DATABASE_URL]: unset or empty. *)
Definition is_set (env : option string) : bool :=
  match env with
  | None | Some EmptyString => false
  | Some _ => true
  end.

(** [getPool()], with the [DATABASE_URL] of the environment at the time of
    the call: the pool, or the message of the error thrown. *)
Definition getPool (env : option string) (st : pool_module)
  : pool_module * (Pool + string) :=
  match _pool st with
  | Some p => (st, inl p)
  | None =>
      match env with
      | None | Some EmptyString => (st, inr "DATABASE_URL is not set"%string)
      | Some conn =>
          let p := {| pool_id := pools_constructed st;
                      connectionString := conn;
                      max := 5 |} in
          ({| _pool := Some p;
              pools_constructed := S (pools_constructed st) |}, inl p)
      end
  end.

(** A sequence of calls, each with the environment it sees. *)
Fixpoint getPool_calls (envs : list (option string)) (st : pool_module)
  : pool_module * list (Pool + string) :=
  match envs with
  | [] => (st, [])
  | env :: rest =>
      let (st1, r) := getPool env st in
      let (st2, rs) := getPool_calls rest st1 in
      (st2, r :: rs)
  end.

(** ** The handler of [/api/examples/run] *)

Inductive example_query :=
| q_counts_by_type
| q_devices_both_formats
| q_unified_recent
| q_side_switches.

Inductive example_rows :=
| rows_counts_by_type (r : list counts_by_type_row)
| rows_devices_both_formats (r : list devices_both_formats_row)
| rows_unified_recent (r : list unified_recent_row)
| rows_side_switches (r : list side_switches_row).

(** What looking a key up in the object literal [QUERY_MAP] gives: one of
    its four own entries, a property inherited from [Object.prototype]
    (truthy, but no SQL text), or [undefined]. *)
Inductive map_lookup :=
| own_entry (q : example_query)
| inherited_property
| undefined.

Definition object_prototype_names : list string :=
  ["constructor"; "hasOwnProperty"; "isPrototypeOf"; "propertyIsEnumerable";
   "toLocaleString"; "toString"; "valueOf"; "__proto__";
   "__defineGetter__"; "__defineSetter__"; "__lookupGetter__";
   "__lookupSetter__"]%string.

Definition QUERY_MAP (key : string) : map_lookup :=
  if (key =? "counts_by_type")%string then own_entry q_counts_by_type
  else if (key =? "devices_both_formats")%string then own_entry q_devices_both_formats
  else if (key =? "unified_recent")%string then own_entry q_unified_recent
  else if (key =? "side_switches")%string then own_entry q_side_switches
  else if existsb (String.eqb key) object_prototype_names then inherited_property
  else undefined.

(** The four statements on the server: each is a [SELECT], so the database
    it returns is the one it was given. *)
Definition execute (q : example_query) (db : database)
  : database * example_rows :=
  match q with
  | q_counts_by_type => (db, rows_counts_by_type (counts_by_type db))
  | q_devices_both_formats => (db, rows_devices_both_formats (devices_both_formats db))
  | q_unified_recent => (db, rows_unified_recent (unified_recent db))
  | q_side_switches => (db, rows_side_switches (side_switches db))
  end.

(** [pool.query(sql)] through the pool [p], whose connections are opened
    with the pool's own connection string; [reachable] tells the connection
    strings that reach the database.  [None] is the rejection of a query
    that could not be run. *)
Definition pool_query (reachable : string -> bool) (p : Pool)
    (q : example_query) (db : database) : database * option example_rows :=
  if reachable (connectionString p)
  then let (db', rows) := execute q db in (db', Some rows)
  else (db, None).

Inductive response :=
| status_200 (sql : example_query) (rows : example_rows)
| status_400_invalid_query_key
| status_500.

(** [handler]: [key] is [String(req.query.key || '')]; [database_url] is the
    [DATABASE_URL] of the environment at the time of the request and [st]
    the state of the module of [getPool].  An inherited property passes the
    [!sql] test, so [getPool] is called for it too; what [pool.query] is
    then given is no statement, and the request ends in the [catch]. *)
Definition handler (reachable : string -> bool) (database_url : option string)
    (key : string) (st : pool_module) (db : database)
  : pool_module * database * response :=
  match QUERY_MAP key with
  | undefined => (st, db, status_400_invalid_query_key)
  | inherited_property => (fst (getPool database_url st), db, status_500)
  | own_entry q =>
      match getPool database_url st with
      | (st1, inr _) => (st1, db, status_500)
      | (st1, inl p) =>
          match pool_query reachable p q db with
          | (db', Some rows) => (st1, db', status_200 q rows)
          | (db', None) => (st1, db', status_500)
          end
      end
  end.

(** ** Unique indexes of [processed_record] *)

(** [uq_processed_by_raw ON processed_record(raw_data_id)]: two rows
    collide when they carry the same raw id. *)
Definition same_raw (a b : processed_record_row) : bool :=
  pr_raw_data_id a =? pr_raw_data_id b.

(** [uq_processed_event ON processed_record(device_id, type, record_time,
    value)]: two rows collide when the four columns are equal ([value] as a
    number). *)
Definition same_event (a b : processed_record_row) : bool :=
  (pr_device_id a =? pr_device_id b) && (pr_type a =? pr_type b)
  && (pr_record_time a =? pr_record_time b)
  && Qeq_bool (pr_value a) (pr_value b).

(** The primary key of [ingest_error]: two rows collide when they refer to
    the same raw record. *)
Definition same_error_key (a b : ingest_error_row) : bool :=
  ie_raw_data_id a =? ie_raw_data_id b.

(** No two rows of a table, at different positions, collide. *)
Definition unique_index {A} (same : A -> A -> bool) (rows : list A) : Prop :=
  forall i j a b,
    i <> j -> nth_error rows i = Some a -> nth_error rows j = Some b ->
    same a b = false.

(** The facts and the errors that refer to one raw record. *)
Definition facts_of (db : database) (raw : Z) : list processed_record_row :=
  filter (fun pr => pr_raw_data_id pr =? raw) (processed_record db).

Definition errors_of (db : database) (raw : Z) : list ingest_error_row :=
  filter (fun ie => ie_raw_data_id ie =? raw) (ingest_error db).

(** ** The database after [001_tables.sql] *)

(** Empty tables, the four seeded record types (ids 1 to 4 of the
    [SERIAL]), and the sequences at their next value. *)
Definition init_db : database :=
  {| device := [];
     record_type :=
       [ {| rt_id := 1; rt_name := "platform_extension_ticks"; rt_version_id := None |};
         {| rt_id := 2; rt_name := "platform_extension_mm"; rt_version_id := None |};
         {| rt_id := 3; rt_name := "battery_charge"; rt_version_id := None |};
         {| rt_id := 4; rt_name := "platform_height_mm"; rt_version_id := None |} ];
     raw_record := [];
     ingest_error := [];
     processed_record := [];
     record_type_id_seq := 5;
     raw_record_id_seq := 1;
     processed_record_id_seq := 1 |}.

(** ** The write path

    The ingest service itself ([ingest_service/services/ingest_services.py]
    and the SQL helpers under [ingest_service/db/models]) is not among the
    sources; what follows is its specification, on the tables above.
    The storage is taken to be healthy and the resolver's policy to give
    two devices two names, so that no statement fails but the insert of a
    duplicate fact, which is suppressed: a [PersistenceError] fails the
    request and is outside this model. *)

(** Modelled from the spec: the typed Telemetry Event of the Schema
    Validator, with a numeric device id. *)
Record telemetry_event := {
  ev_device_id : Z;
  event_type : string;
  ev_numeric : numeric;
  timestamp : Z
}.


(** Modelled from the spec: the typed Startup Event,
    [{event_type: "device_startup", serial, provision_token, timestamp,
    firmware}]. *)
Record startup_event := {
  serial : string;
  provision_token : string;
  st_timestamp : Z;
  firmware : option string
}.

(** Modelled from the spec: the validator's verdict, a closed tagged union
    with two success variants and the reason of a rejection. *)
Inductive validation :=
| valid_telemetry (e : telemetry_event)
| valid_startup (s : startup_event)
| rejected (reason : string).

(** Modelled from the spec: what the Device Resolver takes from outside:
    the shared provisioning secret, HMAC-SHA256 (key, then message), and
    the system's policy that maps a serial to a device id. *)
Record resolver := {
  provision_secret : string;
  hmac_sha256 : string -> string -> string;
  device_id_of_serial : string -> Z
}.

(** Modelled from the spec: the token is the HMAC-SHA256 of the serial
    under the shared secret. *)
Definition token_ok (res : resolver) (s : startup_event) : bool :=
  (provision_token s =? hmac_sha256 res (provision_secret res) (serial s))%string.

(** Modelled from the spec: the [status] of a result, ["ok"] or
    ["invalid"]. *)
Inductive ingest_status := status_ok | status_invalid.

(** Modelled from the spec: the output per input element,
    [{raw_id, processed_id | null, status}]. *)
Record ingest_result := {
  raw_id : Z;
  processed_id : option Z;
  status : ingest_status
}.

(** Modelled from the spec: the Raw Ledger's append, one row per element,
    before any validation. *)
Definition insert_raw_record (payload : json) (now : Z) (db : database)
  : database * Z :=
  let id := raw_record_id_seq db in
  ({| device := device db;
      record_type := record_type db;
      raw_record := raw_record db ++ [ {| rr_id := id; rr_raw_message := payload;
                                          rr_arrival_time := now |} ];
      ingest_error := ingest_error db;
      processed_record := processed_record db;
      record_type_id_seq := record_type_id_seq db;
      raw_record_id_seq := id + 1;
      processed_record_id_seq := processed_record_id_seq db |}, id).

(** Modelled from the spec: the Error Quarantine's upsert keyed by the raw
    id, the latest reason overwriting an earlier one. *)
Definition upsert_ingest_error (raw : Z) (reason : string) (now : Z)
    (db : database) : database :=
  {| device := device db;
     record_type := record_type db;
     raw_record := raw_record db;
     ingest_error :=
       if existsb (fun ie => ie_raw_data_id ie =? raw) (ingest_error db)
       then map (fun ie => if ie_raw_data_id ie =? raw
                           then {| ie_raw_data_id := raw; ie_error := reason;
                                   ie_created_at := ie_created_at ie |}
                           else ie) (ingest_error db)
       else ingest_error db ++ [ {| ie_raw_data_id := raw; ie_error := reason;
                                    ie_created_at := now |} ];
     processed_record := processed_record db;
     record_type_id_seq := record_type_id_seq db;
     raw_record_id_seq := raw_record_id_seq db;
     processed_record_id_seq := processed_record_id_seq db |}.

(** Modelled from the spec: the Device Resolver's telemetry path: an
    existing device is returned, an unknown numeric id gets a placeholder
    named after the id. *)
Definition ensure_device (id : Z) (db : database) : database :=
  if existsb (fun d => d_id d =? id) (device db) then db
  else {| device := device db ++ [ {| d_id := id; d_name := numeric_out id 0;
                                      d_init_date := None |} ];
          record_type := record_type db;
          raw_record := raw_record db;
          ingest_error := ingest_error db;
          processed_record := processed_record db;
          record_type_id_seq := record_type_id_seq db;
          raw_record_id_seq := raw_record_id_seq db;
          processed_record_id_seq := processed_record_id_seq db |}.

(** Modelled from the spec: the Device Resolver's start-up path,
    create-or-fetch by the id of the serial: a new device is named after the
    serial and gets its [init_date]; an existing one is renamed to the
    serial and keeps its [init_date]. *)
Definition provision_device (id : Z) (name : string) (time : Z)
    (db : database) : database :=
  {| device :=
       if existsb (fun d => d_id d =? id) (device db)
       then map (fun d => if d_id d =? id
                          then {| d_id := d_id d; d_name := name;
                                  d_init_date := d_init_date d |}
                          else d) (device db)
       else device db ++ [ {| d_id := id; d_name := name;
                              d_init_date := Some time |} ];
     record_type := record_type db;
     raw_record := raw_record db;
     ingest_error := ingest_error db;
     processed_record := processed_record db;
     record_type_id_seq := record_type_id_seq db;
     raw_record_id_seq := raw_record_id_seq db;
     processed_record_id_seq := processed_record_id_seq db |}.

(** The id of the record type of a given name. *)
Definition type_id_of (db : database) (name : string) : option Z :=
  option_map rt_id (find (fun rt => (rt_name rt =? name)%string) (record_type db)).

(** Modelled from the spec: a RecordType is resolved by name and created on
    first sight, never updated. *)
Definition ensure_record_type (name : string) (db : database) : database * Z :=
  match type_id_of db name with
  | Some id => (db, id)
  | None =>
      let id := record_type_id_seq db in
      ({| device := device db;
          record_type := record_type db ++ [ {| rt_id := id; rt_name := name;
                                                rt_version_id := None |} ];
          raw_record := raw_record db;
          ingest_error := ingest_error db;
          processed_record := processed_record db;
          record_type_id_seq := id + 1;
          raw_record_id_seq := raw_record_id_seq db;
          processed_record_id_seq := processed_record_id_seq db |}, id)
  end.

(** Modelled from the spec: the Idempotent Writer's insert,
    [INSERT ... ON CONFLICT DO NOTHING]: the row is appended unless it
    collides with a stored row on one of the two unique indexes; the result
    is the new id ([created]) or nothing ([duplicate]).  The sequence
    advances either way. *)
Definition insert_processed_record (dev raw time ty : Z) (v : numeric)
    (db : database) : database * option Z :=
  let id := processed_record_id_seq db in
  let row := {| pr_id := id; pr_device_id := dev; pr_raw_data_id := raw;
                pr_record_time := time; pr_type := ty; pr_numeric := v |} in
  let conflict := existsb (fun r => same_raw r row || same_event r row)
                          (processed_record db) in
  ({| device := device db;
      record_type := record_type db;
      raw_record := raw_record db;
      ingest_error := ingest_error db;
      processed_record := if conflict then processed_record db
                          else processed_record db ++ [row];
      record_type_id_seq := record_type_id_seq db;
      raw_record_id_seq := raw_record_id_seq db;
      processed_record_id_seq := id + 1 |},
   if conflict then None else Some id).

Section WritePath.

(** The Schema Validator, an external collaborator of the write path, and
    what the Device Resolver takes from outside. *)
Variable validate : json -> validation.
Variable res : resolver.

(** Modelled from the spec: the data flow for one element: raw ledger
    always, then resolver and writer on success, quarantine on failure.  A
    start-up event carries no value and ends at the resolver: its token is
    verified, and the device is provisioned or the event quarantined with
    the reason of the [AuthError]. *)
Definition ingest_one (now : Z) (payload : json) (db : database)
  : database * ingest_result :=
  let (db1, raw) := insert_raw_record payload now db in
  match validate payload with
  | rejected reason =>
      (upsert_ingest_error raw reason now db1,
       {| raw_id := raw; processed_id := None; status := status_invalid |})
  | valid_startup s =>
      if token_ok res s
      then (provision_device (device_id_of_serial res (serial s)) (serial s)
                             (st_timestamp s) db1,
            {| raw_id := raw; processed_id := None; status := status_ok |})
      else (upsert_ingest_error raw "invalid_provision_token" now db1,
            {| raw_id := raw; processed_id := None; status := status_invalid |})
  | valid_telemetry e =>
      let db2 := ensure_device (ev_device_id e) db1 in
      let (db3, ty) := ensure_record_type (event_type e) db2 in
      let (db4, created) :=
        insert_processed_record (ev_device_id e) raw (timestamp e) ty
                                (ev_numeric e) db3 in
      (db4, {| raw_id := raw; processed_id := created; status := status_ok |})
  end.

(** Modelled from the spec: a batch is processed element by element, each
    with its arrival time; the results come in the order of the elements. *)
Fixpoint ingest_batch (batch : list (Z * json)) (db : database)
  : database * list ingest_result :=
  match batch with
  | [] => (db, [])
  | (now, payload) :: rest =>
      let (db1, r) := ingest_one now payload db in
      let (db2, rs) := ingest_batch rest db1 in
      (db2, r :: rs)
  end.

End WritePath.

(** A validator for the examples: it dispatches on [event_type], accepts
    the start-up shape (a [serial] and a [provision_token]) and the
    telemetry shape (an integer [device_id], a non-empty [event_type], a
    numeric [value]), and reads the one timestamp the scenarios use. *)
Definition example_timestamp (s : string) : option Z :=
  if (s =? "2024-01-01T00:00:00Z")%string then Some 1704067200000000 else None.

Definition example_validate (payload : json) : validation :=
  match payload with
  | JObject f =>
      match json_field "event_type" f, json_field "timestamp" f with
      | Some (JString (String c t)), Some (JString ts) =>
          match example_timestamp ts with
          | Some time =>
              if (String c t =? "device_startup")%string
              then match json_field "serial" f,
                         json_field "provision_token" f with
                   | Some (JString sn), Some (JString tok) =>
                       valid_startup
                         {| serial := sn; provision_token := tok;
                            st_timestamp := time; firmware := None |}
                   | _, _ => rejected "validation_error"
                   end
              else match json_field "device_id" f, json_field "value" f with
                   | Some (JNumber d O), Some (JNumber m sc) =>
                       valid_telemetry
                         {| ev_device_id := d; event_type := String c t;
                            ev_numeric := {| unscaled := m; nscale := sc |};
                            timestamp := time |}
                   | _, _ => rejected "validation_error"
                   end
          | None => rejected "timestamp: invalid datetime"
          end
      | _, _ => rejected "validation_error"
      end
  | _ => rejected "validation_error"
  end.

(** A resolver for the examples.  Its [hmac_sha256] is a stand-in that
    joins the key and the message, and its policy gives every serial the
    id 42. *)
Definition example_resolver : resolver :=
  {| provision_secret := "secret";
     hmac_sha256 := fun key message => (key ++ ":" ++ message)%string;
     device_id_of_serial := fun _ => 42 |}.

(** Scenario A's payload. *)
Definition scenario_A : json :=
  JObject [ ("device_id", JNumber 42 0);
            ("event_type", JString "platform_extension_ticks");
            ("value", JNumber 100 0);
            ("timestamp", JString "2024-01-01T00:00:00Z") ]%string.

(** Scenario B's start-up payload, and Scenario D's, whose token is
    tampered with. *)
Definition scenario_B : json :=
  JObject [ ("event_type", JString "device_startup");
            ("serial", JString "ABC123");
            ("provision_token", JString "secret:ABC123");
            ("timestamp", JString "2024-01-01T00:00:00Z") ]%string.


(** ** The metrics as the specification words them *)

(** The unified readings of one device in the order of [observed_at], and
    their values. *)
Definition readings (db : database) (d : Z) : list extension_row :=
  partition_by_device d (v_platform_extension_mm db).

Definition reading_values (db : database) (d : Z) : list Q :=
  non_null (map extension_mm (readings db d)).

(** The number of consecutive pairs (a reading and the one immediately
    before it) that satisfy [p previous current]; a first reading has no
    predecessor and is in no pair. *)
Fixpoint count_pairs {A} (p : A -> A -> bool) (l : list A) : Z :=
  match l with
  | previous :: (current :: _) as rest =>
      (if p previous current then 1 else 0) + count_pairs p rest
  | _ => 0
  end.

Definition is_extension (previous current : Q) : bool :=
  if Qlt_le_dec previous current then true else false.

Definition is_retraction (previous current : Q) : bool :=
  if Qlt_le_dec current previous then true else false.

Definition is_tie (previous current : Q) : bool :=
  Qeq_bool previous current.

(** The sign classes of the side-switch query. *)
Inductive side_class := Left | Right | Center.

Definition classify (e : Q) : side_class :=
  if Qlt_le_dec e 0 then Left
  else if Qlt_le_dec 0 e then Right
  else Center.

Definition is_left_to_right (previous current : Q) : bool :=
  match classify previous, classify current with
  | Left, Right => true
  | _, _ => false
  end.

Definition is_right_to_left (previous current : Q) : bool :=
  match classify previous, classify current with
  | Right, Left => true
  | _, _ => false
  end.

(** A reading that has a predecessor and is not in the center. *)
Definition is_off_center (previous current : Q) : bool :=
  match classify current with
  | Center => false
  | _ => true
  end.

(** Sortedness of a partition by [observed_at]. *)
Definition ordered_by_observed_at (rows : list extension_row) : Prop :=
  forall i j a b,
    (i < j)%nat -> nth_error rows i = Some a -> nth_error rows j = Some b ->
    observed_at a <= observed_at b.

(** ** Claims about the write path, as predicates *)




(** ** Example databases *)

(** The database after the ingest of two elements: Scenario A, parsed
    into a ticks fact, and a payload without a timestamp, quarantined,
    whose [device_id] is text but no integer. *)
Definition quarantined_payload : json :=
  JObject [ ("device_id", JString "lift-7");
            ("event_type", JString "platform_extension_mm");
            ("value", JNumber 125 1) ]%string.

Definition example_batch : list (Z * json) :=
  [ (1704067200500000, scenario_A); (1704067201000000, quarantined_payload) ].


Definition example_db : database :=
  {| device := [ {| d_id := 42; d_name := "42"; d_init_date := None |} ];
     record_type := record_type init_db;
     raw_record :=
       [ {| rr_id := 1; rr_raw_message := scenario_A;
            rr_arrival_time := 1704067200500000 |};
         {| rr_id := 2; rr_raw_message := quarantined_payload;
            rr_arrival_time := 1704067201000000 |} ];
     ingest_error :=
       [ {| ie_raw_data_id := 2; ie_error := "validation_error";
            ie_created_at := 1704067201000000 |} ];
     processed_record :=
       [ {| pr_id := 1; pr_device_id := 42; pr_raw_data_id := 1;
            pr_record_time := 1704067200000000; pr_type := 1;
            pr_numeric := {| unscaled := 100; nscale := 0 |} |} ];
     record_type_id_seq := 5;
     raw_record_id_seq := 3;
     processed_record_id_seq := 2 |}.

(** The database after Scenario A alone. *)
Definition scenario_A_db : database :=
  {| device := [ {| d_id := 42; d_name := "42"; d_init_date := None |} ];
     record_type := record_type init_db;
     raw_record :=
       [ {| rr_id := 1; rr_raw_message := scenario_A;
            rr_arrival_time := 1704067200500000 |} ];
     ingest_error := [];
     processed_record :=
       [ {| pr_id := 1; pr_device_id := 42; pr_raw_data_id := 1;
            pr_record_time := 1704067200000000; pr_type := 1;
            pr_numeric := {| unscaled := 100; nscale := 0 |} |} ];
     record_type_id_seq := 5;
     raw_record_id_seq := 2;
     processed_record_id_seq := 2 |}.

(** A fact of value [n * 10^(-s)], and one of an integer value. *)
Definition fact_decimal (id dev time ty : Z) (n : Z) (s : nat)
  : processed_record_row :=
  {| pr_id := id; pr_device_id := dev; pr_raw_data_id := id;
     pr_record_time := time; pr_type := ty;
     pr_numeric := {| unscaled := n; nscale := s |} |}.

Definition fact (id dev time ty : Z) (v : Z) : processed_record_row :=
  fact_decimal id dev time ty v 0.

(** A device that goes left, right, right, center, left, right. *)
Definition swing_db : database :=
  {| device := [ {| d_id := 42; d_name := "42"; d_init_date := None |} ];
     record_type := record_type init_db;
     raw_record := [];
     ingest_error := [];
     processed_record :=
       [ fact 1 42 20 1 100; fact 2 42 10 2 (-3); fact 3 42 30 2 5;
         fact 4 42 40 2 0; fact 5 42 50 1 (-40); fact 6 42 60 2 7;
         fact 7 42 70 3 88 ];
     record_type_id_seq := 5;
     raw_record_id_seq := 8;
     processed_record_id_seq := 8 |}.

(** ** Predicates and helpers of the proofs *)

(** A nullable value as a list of at most one element. *)
Definition option_list {A} (o : option A) : list A :=
  match o with Some a => [a] | None => [] end.

(** The text the query uses for a sign class. *)
Definition side_label (c : side_class) : string :=
  match c with Left => "left" | Right => "right" | Center => "center" end.

(** The outer [WHERE] of [side_switches]:
    [prev_side IS NOT NULL AND side <> 'center']. *)
Definition side_kept (r : side_series_row) : bool :=
  holds (sql_and (is_not_null (prev_side r))
                 (sql_text_neq (Some (side r)) "center")).

(** A twenty-digit ticks value and the millimeter value that is exactly
    its twentieth. *)
Definition rounding_db : database :=
  {| device := [ {| d_id := 42; d_name := "42"; d_init_date := None |} ];
     record_type := record_type init_db;
     raw_record := [];
     ingest_error := [];
     processed_record :=
       [ fact 1 42 10 1 10000000000000000001;
         fact_decimal 2 42 20 2 50000000000000000005 2 ];
     record_type_id_seq := 5;
     raw_record_id_seq := 3;
     processed_record_id_seq := 3 |}.

(** The view's conversion as stated: every row of a ticks fact carries the
    exact twentieth of the stored value. *)
Definition converts_exactly (db : database) : Prop :=
  forall pr rt row,
    In pr (processed_record db) -> type_of db pr = Some rt ->
    rt_name rt = "platform_extension_ticks"%string ->
    In row (extension_rows_of db pr) ->
    exists q, extension_mm row = Some q /\ (q == pr_value pr / 20.0)%Q.

(** Unit equivalence as stated: a ticks fact and a millimeter fact whose
    value is the twentieth of the ticks value have numerically equal
    [extension_mm] in the view. *)
Definition unit_equivalent (db : database) : Prop :=
  forall ticks mm rt_ticks rt_mm e_ticks e_mm,
    In ticks (processed_record db) -> In mm (processed_record db) ->
    type_of db ticks = Some rt_ticks ->
    rt_name rt_ticks = "platform_extension_ticks"%string ->
    type_of db mm = Some rt_mm ->
    rt_name rt_mm = "platform_extension_mm"%string ->
    (pr_value mm == pr_value ticks / 20.0)%Q ->
    In {| device_id := pr_device_id ticks; observed_at := pr_record_time ticks;
          extension_mm := Some e_ticks |} (v_platform_extension_mm db) ->
    In {| device_id := pr_device_id mm; observed_at := pr_record_time mm;
          extension_mm := Some e_mm |} (v_platform_extension_mm db) ->
    (e_ticks == e_mm)%Q.




(** A decision procedure for [unique_index]. *)
Fixpoint no_collision {A} (same : A -> A -> bool) (rows : list A) : bool :=
  match rows with
  | [] => true
  | x :: rest =>
      forallb (fun y => negb (same x y) && negb (same y x)) rest
      && no_collision same rest
  end.

Section WritePathPredicates.

Variable validate : json -> validation.
Variable res : resolver.






End WritePathPredicates.

(** * The rest of the read side *)

(** ** Aggregates and casts *)

(** [MIN] and [MAX] of a numeric column: [NULL] over no rows. *)
Definition sql_min (l : list Q) : option Q :=
  match l with
  | [] => None
  | x :: rest =>
      Some (fold_left (fun m y => if Qltb y m then y else m) rest x)
  end.

Definition sql_max (l : list Q) : option Q :=
  match l with
  | [] => None
  | x :: rest =>
      Some (fold_left (fun m y => if Qltb m y then y else m) rest x)
  end.

(** [MAX] of a timestamp column. *)
Definition sql_max_time (l : list Z) : option Z :=
  match l with
  | [] => None
  | x :: rest => Some (fold_left Z.max rest x)
  end.

(** [x::numeric(p,s)]: [x] rounded to [s] decimals, ties away from zero;
    raises [22003] when the result needs more than [p - s] integer
    digits. *)
Definition cast_numeric (p s : nat) (x : option Q) : sql_result (option Q) :=
  match x with
  | None => Value None
  | Some q =>
      let n := Qfloor (Qabs q * inject_Z (10 ^ Z.of_nat s) + (1 # 2))%Q in
      if 10 ^ Z.of_nat p <=? n then Raise "22003"
      else Value (Some ((if Qltb q 0%Q then - n else n)
                        # Z.to_pos (10 ^ Z.of_nat s)))
  end.

(** ** The metric views [metric_battery_summary] and
    [metric_platform_height] *)

(** [processed_record pr JOIN record_type rt
     ON rt.id = pr.type AND rt.name = name] *)
Definition facts_of_type (db : database) (name : string)
  : list (processed_record_row * record_type_row) :=
  flat_map (fun pr =>
              map (pair pr)
                  (filter (fun rt => (rt_id rt =? pr_type pr)
                                     && (rt_name rt =? name)%string)
                          (record_type db)))
           (processed_record db).

Record battery_summary_row := {
  bs_device_id : Z;
  min_pct : sql_result (option Q);
  max_pct : sql_result (option Q);
  avg_pct : sql_result (option Q);
  last_seen : option Z
}.

Definition metric_battery_summary (db : database) : list battery_summary_row :=
  let f := facts_of_type db "battery_charge" in
  map (fun d =>
         let g := filter (fun j => pr_device_id (fst j) =? d) f in
         {| bs_device_id := d;
            min_pct := cast_numeric 10 1 (sql_min (map (fun j => pr_value (fst j)) g));
            max_pct := cast_numeric 10 1 (sql_max (map (fun j => pr_value (fst j)) g));
            avg_pct := cast_numeric 10 2
                         (sql_avg (map (fun j => Some (pr_value (fst j))) g));
            last_seen := sql_max_time (map (fun j => pr_record_time (fst j)) g) |})
      (distinct (map (fun j => pr_device_id (fst j)) f)).

Record platform_height_row := {
  ph_device_id : Z;
  min_height_mm : option Q;
  max_height_mm : option Q;
  avg_height_mm : option Q
}.

Definition metric_platform_height (db : database) : list platform_height_row :=
  let f := facts_of_type db "platform_height_mm" in
  map (fun d =>
         let g := filter (fun j => pr_device_id (fst j) =? d) f in
         {| ph_device_id := d;
            min_height_mm := sql_min (map (fun j => pr_value (fst j)) g);
            max_height_mm := sql_max (map (fun j => pr_value (fst j)) g);
            avg_height_mm := sql_avg (map (fun j => Some (pr_value (fst j))) g) |})
      (distinct (map (fun j => pr_device_id (fst j)) f)).

(** ** The analysis queries ([analysis_examples.sql]) *)

(** Query 4, the averages compared: per device, [AVG] of the millimeter
    values alone, of the converted ticks values alone, and of both. *)
Record compare_averages_row := {
  ca_device_id : Z;
  avg_new_only_mm : option Q;
  avg_legacy_only_mm : option Q;
  avg_all_mm : option Q
}.

Definition compare_averages (db : database) : list compare_averages_row :=
  let f := extension_facts db in
  map (fun d =>
         let g := filter (fun j => pr_device_id (fst j) =? d) f in
         {| ca_device_id := d;
            avg_new_only_mm :=
              sql_avg (map (fun j => if (rt_name (snd j) =? "platform_extension_mm")%string
                                     then Some (pr_value (fst j)) else None) g);
            avg_legacy_only_mm :=
              sql_avg (map (fun j => if (rt_name (snd j) =? "platform_extension_ticks")%string
                                     then Some (numeric_div (pr_value (fst j)) 20.0)
                                     else None) g);
            avg_all_mm :=
              sql_avg (map (fun j => extension_case (rt_name (snd j))
                                                    (pr_value (fst j))) g) |})
      (order_by Z.leb (distinct (map (fun j => pr_device_id (fst j)) f))).

(** [t IN ('left','right')] on a nullable text. *)
Definition sql_text_in (t : option string) (lits : list string) : sql_bool :=
  match t with
  | Some s => Some (existsb (String.eqb s) lits)
  | None => None
  end.

(** [a <> b] on nullable texts. *)
Definition sql_text_differ (a b : option string) : sql_bool :=
  match a, b with
  | Some x, Some y => Some (negb (x =? y)%string)
  | _, _ => None
  end.

(** The [series] of the side-switch queries over given view rows. *)
Definition side_series_over (v : list extension_row) : list side_series_row :=
  flat_map (fun d => side_series_of_partition (partition_by_device d v))
           (distinct (map device_id v)).

Record side_switches_total_row := {
  st_device_id : Z;
  st_left_to_right : Z;
  st_right_to_left : Z;
  total_side_switches : Z
}.

(** The outer [SELECT] of queries 5 and 6. *)
Definition side_switch_totals (s : list side_series_row)
  : list side_switches_total_row :=
  let kept :=
    filter (fun r => holds (sql_and (is_not_null (prev_side r))
                                    (sql_text_neq (Some (side r)) "center")))
           s in
  map (fun d =>
         let g := filter (fun r => ss_device_id r =? d) kept in
         {| st_device_id := d;
            st_left_to_right :=
              count_filter (fun r => sql_and (sql_text_eq (prev_side r) "left")
                                             (sql_text_eq (Some (side r)) "right")) g;
            st_right_to_left :=
              count_filter (fun r => sql_and (sql_text_eq (prev_side r) "right")
                                             (sql_text_eq (Some (side r)) "left")) g;
            total_side_switches :=
              count_filter
                (fun r => sql_and
                            (sql_and (sql_text_in (prev_side r) ["left"; "right"]%string)
                                     (sql_text_in (Some (side r)) ["left"; "right"]%string))
                            (sql_text_differ (prev_side r) (Some (side r)))) g |})
      (order_by Z.leb (distinct (map ss_device_id kept))).

(** Query 5: the switches of all time. *)
Definition side_switches_all_time (db : database)
  : list side_switches_total_row :=
  side_switch_totals (side_series_over (v_platform_extension_mm db)).

(** Query 6: the switches of the last hour; [now] is [now()].  The [WHERE]
    is inside the common table expression, so the window sees only the
    readings of that hour. *)
Definition one_hour : Z := 3600000000.

Definition side_switches_last_hour (now : Z) (db : database)
  : list side_switches_row :=
  map (fun r => {| sw_device_id := st_device_id r;
                   left_to_right := st_left_to_right r;
                   right_to_left := st_right_to_left r |})
      (side_switch_totals
         (side_series_over
            (filter (fun r => now - one_hour <=? observed_at r)
                    (v_platform_extension_mm db)))).

(** ** Reading the view fact by fact *)

(** A fact counts for the view when its type row has one of the two
    extension names. *)
Definition is_extension_fact (db : database) (pr : processed_record_row)
  : bool :=
  match type_of db pr with
  | Some rt => is_extension_type (rt_name rt)
  | None => false
  end.

(** The view row of a joined fact. *)
Definition extension_row_of (j : processed_record_row * record_type_row)
  : extension_row :=
  {| device_id := pr_device_id (fst j);
     observed_at := pr_record_time (fst j);
     extension_mm := extension_case (rt_name (snd j)) (pr_value (fst j)) |}.

(** The values of the view rows of one device, in heap order. *)
Definition device_values (db : database) (d : Z) : list Q :=
  non_null (map extension_mm
                (filter (fun r => device_id r =? d) (v_platform_extension_mm db))).

(** The mean of a list of values. *)
Definition mean (vs : list Q) : Q :=
  (fold_right Qplus 0 vs / inject_Z (Z.of_nat (List.length vs)))%Q.

(** The scale at which [AVG] rounds the mean of [vs]. *)
Definition avg_scale (vs : list Q) : Z :=
  select_div_scale (numeric_sum vs) (inject_Z (Z.of_nat (List.length vs))).

(** ** The handler of [/api/metrics/avg-extension-mm] *)

(** [SELECT * FROM metric_avg_extension_mm ORDER BY device_id]: the rows,
    or the error of the first average that raises. *)
Definition select_metric_avg_extension_mm (db : database)
  : sql_result (list (Z * option Q)) :=
  all_values
    (map (fun r => match avg_extension_mm r with
                   | Value a => Value (avg_device_id r, a)
                   | Raise e => Raise e
                   end)
         (order_by (fun a b => avg_device_id a <=? avg_device_id b)
                   (metric_avg_extension_mm db))).

Inductive avg_response :=
| avg_status_200 (rows : list (Z * option Q))
| avg_status_500.

(** The handler of [avg-extension-mm.ts]; [database_url] is the
    [DATABASE_URL] of the environment at the time of the request, [st] the
    state of the module of [getPool], which the two handlers share, and
    [reachable] tells the connection strings that reach the database. *)
Definition avg_extension_mm_handler (reachable : string -> bool)
    (database_url : option string) (st : pool_module) (db : database)
  : pool_module * database * avg_response :=
  match getPool database_url st with
  | (st1, inr _) => (st1, db, avg_status_500)
  | (st1, inl p) =>
      if reachable (connectionString p)
      then match select_metric_avg_extension_mm db with
           | Value rows => (st1, db, avg_status_200 rows)
           | Raise _ => (st1, db, avg_status_500)
           end
      else (st1, db, avg_status_500)
  end.

(** [AVG(extension_mm)] over the rows of device [d] in the view. *)
Definition device_avg (db : database) (d : Z) : option Q :=
  sql_avg (map extension_mm
               (filter (fun r => device_id r =? d) (v_platform_extension_mm db))).

(** The values of the facts of device [d] whose type is named [name]. *)
Definition type_values (db : database) (name : string) (d : Z) : list Q :=
  map (fun j => pr_value (fst j))
      (filter (fun j => pr_device_id (fst j) =? d) (facts_of_type db name)).

(** A device with three battery readings and two height readings. *)
Definition sensor_db : database :=
  {| device := [ {| d_id := 7; d_name := "7"; d_init_date := None |} ];
     record_type := record_type init_db;
     raw_record := [];
     ingest_error := [];
     processed_record :=
       [ fact_decimal 1 7 10 3 975 1; fact_decimal 2 7 30 3 5 2; fact 3 7 20 3 50;
         fact 4 7 10 4 1200; fact 5 7 20 4 1100 ];
     record_type_id_seq := 5;
     raw_record_id_seq := 6;
     processed_record_id_seq := 6 |}.

(** ** Decimal texts *)

(** The number a sequence of decimal digits denotes, after [acc]. *)
Fixpoint uint_value (acc : Z) (d : Decimal.uint) : Z :=
  match d with
  | Decimal.Nil => acc
  | Decimal.D0 d => uint_value (acc * 10 + 0) d
  | Decimal.D1 d => uint_value (acc * 10 + 1) d
  | Decimal.D2 d => uint_value (acc * 10 + 2) d
  | Decimal.D3 d => uint_value (acc * 10 + 3) d
  | Decimal.D4 d => uint_value (acc * 10 + 4) d
  | Decimal.D5 d => uint_value (acc * 10 + 5) d
  | Decimal.D6 d => uint_value (acc * 10 + 6) d
  | Decimal.D7 d => uint_value (acc * 10 + 7) d
  | Decimal.D8 d => uint_value (acc * 10 + 8) d
  | Decimal.D9 d => uint_value (acc * 10 + 9) d
  end.

(** The range check of the cast to [int]. *)
Definition int4_range (v : Z) : sql_result Z :=
  if (- 2147483648 <=? v) && (v <=? 2147483647) then Value v
  else Raise "22003".

(** The database with only the facts recorded at or after [t0]. *)
Definition facts_since (t0 : Z) (db : database) : database :=
  {| device := device db;
     record_type := record_type db;
     raw_record := raw_record db;
     ingest_error := ingest_error db;
     processed_record :=
       filter (fun pr => t0 <=? pr_record_time pr) (processed_record db);
     record_type_id_seq := record_type_id_seq db;
     raw_record_id_seq := raw_record_id_seq db;
     processed_record_id_seq := processed_record_id_seq db |}.

(** The stored values of the extension facts of device [d] whose type is
    named [name], in heap order. *)
Definition device_values_of_type (db : database) (d : Z) (name : string)
  : list Q :=
  map (fun j => pr_value (fst j))
      (filter (fun j => (rt_name (snd j) =? name)%string)
              (filter (fun j => pr_device_id (fst j) =? d) (extension_facts db))).

(** The rows the dialog's keys stand for. *)
Definition offered_rows (key : string) (db : database) : option example_rows :=
  if (key =? "counts_by_type")%string
  then Some (rows_counts_by_type (counts_by_type db))
  else if (key =? "devices_both_formats")%string
  then Some (rows_devices_both_formats (devices_both_formats db))
  else if (key =? "unified_recent")%string
  then Some (rows_unified_recent (unified_recent db))
  else if (key =? "side_switches")%string
  then Some (rows_side_switches (side_switches db))
  else None.

(** A height reading of a thousand and one decimals. *)
Definition tiny_height_db : database :=
  {| device := [ {| d_id := 7; d_name := "7"; d_init_date := None |} ];
     record_type := record_type init_db;
     raw_record := [];
     ingest_error := [];
     processed_record := [ fact_decimal 1 7 10 4 1 1001 ];
     record_type_id_seq := 5;
     raw_record_id_seq := 2;
     processed_record_id_seq := 2 |}.

(** ** The query dialog ([QueryDialog], [OPTIONS]) *)

Record Option_ := {
  opt_key : string;
  opt_name : string;
  opt_description : string
}.

(** The entries the dialog offers; [run] sends the [key] of the selected
    one to [/api/examples/run]. *)
Definition OPTIONS : list Option_ :=
  [ {| opt_key := "counts_by_type"; opt_name := "Counts by type";
       opt_description := "Legacy vs New counts" |};
    {| opt_key := "devices_both_formats"; opt_name := "Devices with both formats";
       opt_description := "Devices that reported both mm and ticks" |};
    {| opt_key := "unified_recent"; opt_name := "Unified recent values";
       opt_description := "Recent rows with ticks→mm conversion" |};
    {| opt_key := "side_switches"; opt_name := "Left↔Right switches";
       opt_description := "Counts of sign switches per device" |} ].

(** ** The seed of [record_type] ([001_tables.sql]) *)

Definition set_record_type (rows : list record_type_row) (seq : Z)
    (db : database) : database :=
  {| device := device db;
     record_type := rows;
     raw_record := raw_record db;
     ingest_error := ingest_error db;
     processed_record := processed_record db;
     record_type_id_seq := seq;
     raw_record_id_seq := raw_record_id_seq db;
     processed_record_id_seq := processed_record_id_seq db |}.

Definition has_name (name : string) (rows : list record_type_row) : bool :=
  existsb (fun rt => (rt_name rt =? name)%string) rows.

(** One row of [INSERT INTO record_type (name) VALUES ... ON CONFLICT (name)
    DO NOTHING].  The [SERIAL] default takes the next value of the sequence
    before the conflict is looked for, and raises [2200H] past the largest
    [integer]; a row whose name is stored is skipped; a new name whose id is
    taken violates the primary key, [23505]. *)
Definition insert_record_type (name : string) (db : database)
  : sql_result database :=
  let id := record_type_id_seq db in
  if 2147483647 <? id then Raise "2200H"
  else if has_name name (record_type db)
  then Value (set_record_type (record_type db) (id + 1) db)
  else if existsb (fun rt => rt_id rt =? id) (record_type db)
  then Raise "23505"
  else Value (set_record_type
                (record_type db
                 ++ [ {| rt_id := id; rt_name := name; rt_version_id := None |} ])
                (id + 1) db).

(** The rows of the [VALUES] list in order; an error aborts the statement. *)
Fixpoint insert_record_types (names : list string) (db : database)
  : sql_result database :=
  match names with
  | [] => Value db
  | name :: rest =>
      match insert_record_type name db with
      | Value db1 => insert_record_types rest db1
      | Raise e => Raise e
      end
  end.

Definition seed_names : list string :=
  ["platform_extension_ticks"; "platform_extension_mm"; "battery_charge";
   "platform_height_mm"]%string.

Definition seed_record_types (db : database) : sql_result database :=
  insert_record_types seed_names db.

(** The rows a [VALUES] list adds to stored rows [rows]: one for each name
    that is not stored, its id the sequence value of its position. *)
Fixpoint new_rows (seq : Z) (names : list string) (rows : list record_type_row)
  : list record_type_row :=
  match names with
  | [] => []
  | name :: rest =>
      if has_name name rows then new_rows (seq + 1) rest rows
      else {| rt_id := seq; rt_name := name; rt_version_id := None |}
           :: new_rows (seq + 1) rest rows
  end.

(** The tables as [CREATE TABLE] leaves them. *)
Definition empty_db : database :=
  {| device := [];
     record_type := [];
     raw_record := [];
     ingest_error := [];
     processed_record := [];
     record_type_id_seq := 1;
     raw_record_id_seq := 1;
     processed_record_id_seq := 1 |}.

(** ** The documentation pages ([getStaticPaths], [getStaticProps]) *)

(** [f.endsWith('.md')] *)
Fixpoint endsWith_md (f : string) : bool :=
  (f =? ".md")%string
  || match f with
     | String _ rest => endsWith_md rest
     | EmptyString => false
     end.

(** [f.replace(/\.md$/, '')]: the pattern can only match the last three
    characters. *)
Fixpoint replace_md (f : string) : string :=
  if (f =? ".md")%string then EmptyString
  else match f with
       | String c rest => String c (replace_md rest)
       | EmptyString => EmptyString
       end.

(** [getStaticPaths], on the names [fs.readdirSync(docsDir)] returns: the
    [doc] parameter of each generated page. *)
Definition getStaticPaths (files : list string) : list string :=
  map replace_md (filter endsWith_md files).

(** The file name [getStaticProps] looks for: [`${slug}.md`]. *)
Definition doc_file_name (slug : string) : string := (slug ++ ".md")%string.

(** Three millimeter readings whose mean is just below 0.0005. *)
Definition twice_rounded_db : database :=
  {| device := [ {| d_id := 42; d_name := "42"; d_init_date := None |} ];
     record_type := record_type init_db;
     raw_record := [];
     ingest_error := [];
     processed_record :=
       [ fact_decimal 1 42 10 2 5 4; fact_decimal 2 42 20 2 5 4;
         fact_decimal 3 42 30 2 499999999999999999 21 ];
     record_type_id_seq := 5;
     raw_record_id_seq := 4;
     processed_record_id_seq := 4 |}.

(** [AVG] over values none of which is null: [NULL] over no value. *)
Definition avg_or_null (vs : list Q) : option Q :=
  match vs with
  | [] => None
  | _ => Some (numeric_div (numeric_sum vs)
                           (inject_Z (Z.of_nat (List.length vs))))
  end.

(** * Proofs *)

(** ** The model on concrete inputs *)

Example cast_text_int_examples :
  map cast_text_int ["42"; " -17 "; "+5"; "0x1F"; "1_000"; "lift-7"; "42.0";
                     "2147483648"; "1__0"; "12 3"]%string
  = [Value 42; Value (-17); Value 5; Value 31; Value 1000; Raise "22P02";
     Raise "22P02"; Raise "22003"; Raise "22P02"; Raise "22P02"].
Proof. reflexivity. Qed.

Example json_get_text_examples :
  map (fun j => json_get_text j "device_id")
      [ JObject [("device_id", JNumber 42 0)];
        JObject [("device_id", JNumber 420 1)];
        JObject [("device_id", JString "lift-7")];
        JObject [("device_id", JNull)];
        JObject [("device_id", JArray [JNumber 1 0; JBool true])];
        JObject [("value", JNumber 1 0)];
        JArray [] ]%string
  = [Some "42"; Some "42.0"; Some "lift-7"; None; Some "[1, true]"; None;
     None]%string.
Proof. reflexivity. Qed.

Example swing_series :
  map (fun s => (s_observed_at s, s_extension_mm s, prev_mm s)) (series swing_db)
  = [ (10, Some (-3)%Q, None);
      (20, Some 5.0000000000000000%Q, Some (-3)%Q);
      (30, Some 5%Q, Some 5.0000000000000000%Q);
      (40, Some 0%Q, Some 5%Q);
      (50, Some (-2.0000000000000000)%Q, Some 0%Q);
      (60, Some 7%Q, Some (-2.0000000000000000)%Q) ].
Proof. vm_compute. reflexivity. Qed.

(** The quotients of PostgreSQL 16 on a few inputs. *)
Example numeric_div_examples :
  map (fun ab => numeric_div (fst ab) (snd ab))
      [ (100, 20.0); (10000000000000000001, 20.0); (12345678.9, 20.0);
        (0.05, 20.0); (1, 3); (2, 3); (10, 3); (numeric_sum [1; 1; 2], 3);
        (100000, 7); (29999, 3) ]%Q
  = [ 5.0000000000000000; 500000000000000000.1; 617283.945000000000;
      0.00250000000000000000; 0.33333333333333333333;
      0.66666666666666666667; 3.3333333333333333; 1.3333333333333333;
      14285.714285714286; 9999.6666666666666667 ]%Q.
Proof. vm_compute. reflexivity. Qed.

Example swing_metrics :
  metric_extension_vs_retraction swing_db
  = [ {| evr_device_id := 42; extensions := Some 2; retractions := Some 2 |} ]
  /\ side_switches swing_db
     = [ {| sw_device_id := 42; left_to_right := 2; right_to_left := 0 |} ]
  /\ map side (side_series swing_db)
     = ["left"; "right"; "right"; "center"; "left"; "right"]%string.
Proof. repeat split; reflexivity. Qed.

Example example_db_tables :
  map (fun r => (raw_id r, processed_id r, status r))
      (snd (ingest_batch example_validate example_resolver example_batch
                         init_db))
  = [ (1, Some 1, status_ok); (2, None, status_invalid) ]
  /\ map pr_raw_data_id (processed_record example_db) = [1]
  /\ map ie_raw_data_id (ingest_error example_db) = [2].
Proof. repeat split; reflexivity. Qed.

(** ** The unification view *)

Lemma Qltb_lt (x y : Q) : Qltb x y = true <-> (x < y)%Q.
Proof.
  unfold Qltb. rewrite Qlt_alt.
  destruct (x ?= y)%Q; split; intro H; congruence.
Qed.

(** ** [NUMERIC] arithmetic *)

Lemma log10_fuel_spec (fuel : nat) (n : Z) :
  0 < n -> n < 2 ^ (Z.of_nat fuel + 1) ->
  0 <= log10_fuel fuel n
  /\ 10 ^ log10_fuel fuel n <= n < 10 ^ (log10_fuel fuel n + 1).
Proof.
  revert n. induction fuel as [| f IH]; intros n Hpos Hlt.
  - cbn in *. lia.
  - cbn [log10_fuel]. destruct (Z.ltb_spec n 10) as [Hsmall | Hbig].
    + cbn. lia.
    + assert (Hdiv : 0 < n / 10) by (apply Z.div_str_pos; lia).
      assert (Hlt' : n / 10 < 2 ^ (Z.of_nat f + 1)).
      { apply Z.div_lt_upper_bound; [lia |].
        rewrite Nat2Z.inj_succ in Hlt.
        replace (Z.succ (Z.of_nat f) + 1) with (Z.of_nat f + 1 + 1) in Hlt by lia.
        rewrite Z.pow_add_r in Hlt by lia.
        assert (0 < 2 ^ (Z.of_nat f + 1)) by (apply Z.pow_pos_nonneg; lia).
        lia. }
      destruct (IH (n / 10) Hdiv Hlt') as (H0 & Hlo & Hhi).
      split; [lia |].
      replace (1 + log10_fuel f (n / 10)) with (log10_fuel f (n / 10) + 1) by lia.
      rewrite !Z.pow_add_r by lia.
      rewrite Z.pow_add_r in Hhi by lia.
      change (10 ^ 1) with 10 in *.
      pose proof (Z.div_mod n 10 ltac:(lia)) as Hdm.
      pose proof (Z.mod_pos_bound n 10 ltac:(lia)) as Hmod.
      lia.
Qed.

Lemma log10_spec (n : Z) :
  0 < n -> 0 <= log10 n /\ 10 ^ log10 n <= n < 10 ^ (log10 n + 1).
Proof.
  intro Hpos. unfold log10. apply log10_fuel_spec; [exact Hpos |].
  rewrite Z2Nat.id by apply Z.log2_nonneg.
  replace (Z.log2 n + 1) with (Z.succ (Z.log2 n)) by lia.
  apply Z.log2_spec. exact Hpos.
Qed.

Lemma pow10_lt_inv (a b : Z) : 0 <= a -> 0 <= b -> 10 ^ a < 10 ^ (b + 1) -> a <= b.
Proof.
  intros Ha Hb H.
  destruct (Z_le_gt_dec a b) as [Hle | Hgt]; [exact Hle |].
  exfalso. assert (10 ^ (b + 1) <= 10 ^ a) by (apply Z.pow_le_mono_r; lia). lia.
Qed.

Lemma log10_unique (n k : Z) :
  0 <= k -> 10 ^ k <= n < 10 ^ (k + 1) -> log10 n = k.
Proof.
  intros Hk [Hlo Hhi].
  assert (Hpos : 0 < n).
  { assert (0 < 10 ^ k) by (apply Z.pow_pos_nonneg; lia). lia. }
  destruct (log10_spec n Hpos) as (H0 & Hl & Hh).
  assert (log10 n <= k) by (apply pow10_lt_inv; lia).
  assert (k <= log10 n) by (apply pow10_lt_inv; lia).
  lia.
Qed.

Lemma log10_pow (k : Z) : 0 <= k -> log10 (10 ^ k) = k.
Proof.
  intro Hk. apply log10_unique; [exact Hk |].
  split; [lia |]. apply Z.pow_lt_mono_r; lia.
Qed.

Lemma pow10_positive (s : Z) : 0 <= s -> 0 < 10 ^ s.
Proof. intro. apply Z.pow_pos_nonneg; lia. Qed.

Lemma Qden_numeric_value (x : numeric) :
  Z.pos (Qden (numeric_value x)) = 10 ^ Z.of_nat (nscale x).
Proof.
  unfold numeric_value. cbn [Qden]. apply Z2Pos.id. apply pow10_positive. lia.
Qed.

Lemma dscale_numeric_value (x : numeric) :
  dscale (numeric_value x) = Z.of_nat (nscale x).
Proof.
  unfold dscale. rewrite Qden_numeric_value. apply log10_pow. lia.
Qed.

Lemma Qltb_ge (x y : Q) : Qltb x y = false <-> (y <= x)%Q.
Proof.
  split.
  - intro H. apply Qnot_lt_le. intro Hlt. apply Qltb_lt in Hlt. congruence.
  - intro H. destruct (Qltb x y) eqn:E; [| reflexivity].
    apply Qltb_lt in E. exfalso. exact (Qlt_not_le _ _ E H).
Qed.

Lemma grid_scaled (s : Z) (z : Z) :
  0 <= s ->
  ((z # Z.to_pos (10 ^ s)) * inject_Z (10 ^ s) == inject_Z z)%Q.
Proof.
  intro Hs. pose proof (pow10_positive s Hs) as Hpos.
  unfold Qeq, Qmult, inject_Z. cbn [Qnum Qden].
  rewrite Pos2Z.inj_mul, Z2Pos.id by exact Hpos. cbn. lia.
Qed.

Lemma numeric_round_scaled (s : Z) (q : Q) :
  0 <= s ->
  (numeric_round s q * inject_Z (10 ^ s)
   == inject_Z (if Qltb q 0%Q
                then - Qfloor (Qabs q * inject_Z (10 ^ s) + (1 # 2))
                else Qfloor (Qabs q * inject_Z (10 ^ s) + (1 # 2))))%Q.
Proof. intro Hs. unfold numeric_round. cbv zeta. now apply grid_scaled. Qed.

Lemma numeric_round_close (s : Z) (q : Q) :
  0 <= s ->
  (Qabs (numeric_round s q - q) * inject_Z (10 ^ s) <= 1 # 2)%Q.
Proof.
  intro Hs.
  set (S := inject_Z (10 ^ s)).
  pose proof (pow10_positive s Hs) as Hpos.
  assert (HS : (0 < S)%Q).
  { unfold S. rewrite <- (Zlt_Qlt 0). exact Hpos. }
  assert (Heq : (Qabs (numeric_round s q - q) * S
                 == Qabs ((numeric_round s q - q) * S))%Q)
    by (rewrite Qabs_Qmult, (Qabs_pos S); [reflexivity | lra]).
  rewrite Heq. clear Heq.
  assert (Hmul : ((numeric_round s q - q) * S
                  == numeric_round s q * S - q * S)%Q) by ring.
  rewrite Hmul. clear Hmul. unfold S at 1.
  rewrite (numeric_round_scaled s q Hs). fold S.
  pose proof (Qfloor_le (Qabs q * S + (1 # 2))%Q) as Hlo.
  pose proof (Qlt_floor (Qabs q * S + (1 # 2))%Q) as Hhi.
  set (n := Qfloor (Qabs q * S + (1 # 2))%Q) in *.
  rewrite inject_Z_plus in Hhi. change (inject_Z 1) with 1%Q in Hhi.
  apply Qabs_Qle_condition.
  destruct (Qltb q 0) eqn:Hsign.
  - apply Qltb_lt in Hsign.
    assert (Habs : (Qabs q == - q)%Q) by (apply Qabs_neg; lra).
    rewrite Habs in Hlo, Hhi. rewrite inject_Z_opp.
    assert (Hneg : (- q * S == - (q * S))%Q) by ring.
    rewrite Hneg in Hlo, Hhi.
    set (X := (q * S)%Q) in *. clearbody X.
    set (N := inject_Z n) in *. clearbody N. lra.
  - apply Qltb_ge in Hsign.
    assert (Habs : (Qabs q == q)%Q) by (apply Qabs_pos; exact Hsign).
    rewrite Habs in Hlo, Hhi.
    set (X := (q * S)%Q) in *. clearbody X.
    set (N := inject_Z n) in *. clearbody N. lra.
Qed.

Lemma numeric_round_monotone (s : Z) (q1 q2 : Q) :
  0 <= s -> (q1 <= q2)%Q -> (numeric_round s q1 <= numeric_round s q2)%Q.
Proof.
  intros Hs Hle. unfold numeric_round. cbv zeta.
  set (S := inject_Z (10 ^ s)).
  assert (HS : (0 <= S)%Q).
  { unfold S. rewrite <- (Zle_Qle 0). pose proof (pow10_positive s Hs). lia. }
  assert (Hnn : forall q, 0 <= Qfloor (Qabs q * S + (1 # 2))%Q).
  { intro q. change 0 with (Qfloor 0). apply Qfloor_resp_le.
    pose proof (Qabs_nonneg q) as Hq.
    assert (H0 : (0 <= Qabs q * S)%Q) by (apply Qmult_le_0_compat; assumption).
    set (X := (Qabs q * S)%Q) in *. clearbody X. lra. }
  assert (Hmono : forall x y, (Qabs x <= Qabs y)%Q ->
            Qfloor (Qabs x * S + (1 # 2))%Q <= Qfloor (Qabs y * S + (1 # 2))%Q).
  { intros x y Hxy. apply Qfloor_resp_le.
    assert (H1 : (Qabs x * S <= Qabs y * S)%Q)
      by (apply Qmult_le_compat_r; assumption).
    set (X := (Qabs x * S)%Q) in *. set (Y := (Qabs y * S)%Q) in *.
    clearbody X Y. lra. }
  pose proof (Hnn q1) as Hn1. pose proof (Hnn q2) as Hn2.
  pose proof (Hmono q1 q2) as M12. pose proof (Hmono q2 q1) as M21.
  clear Hmono Hnn.
  set (n1 := Qfloor (Qabs q1 * S + (1 # 2))%Q) in *.
  set (n2 := Qfloor (Qabs q2 * S + (1 # 2))%Q) in *.
  clearbody n1 n2.
  unfold Qle. cbn [Qnum Qden]. apply Z.mul_le_mono_nonneg_r; [lia |].
  destruct (Qltb q1 0) eqn:Hs1; destruct (Qltb q2 0) eqn:Hs2.
  - apply Qltb_lt in Hs1, Hs2.
    assert (Habs : (Qabs q2 <= Qabs q1)%Q).
    { rewrite (Qabs_neg q1), (Qabs_neg q2) by lra. lra. }
    specialize (M21 Habs). lia.
  - lia.
  - apply Qltb_ge in Hs1. apply Qltb_lt in Hs2. lra.
  - apply Qltb_ge in Hs1, Hs2.
    assert (Habs : (Qabs q1 <= Qabs q2)%Q).
    { rewrite (Qabs_pos q1), (Qabs_pos q2) by assumption. exact Hle. }
    exact (M12 Habs).
Qed.

Lemma Qfloor_half (z : Z) : Qfloor (inject_Z z + (1 # 2)) = z.
Proof.
  pose proof (Qfloor_le (inject_Z z + (1 # 2))) as Hlo.
  pose proof (Qlt_floor (inject_Z z + (1 # 2))) as Hhi.
  set (n := Qfloor (inject_Z z + (1 # 2))) in *.
  rewrite inject_Z_plus in Hhi.
  assert (H1 : (inject_Z n < inject_Z (z + 1))%Q)
    by (rewrite inject_Z_plus; change (inject_Z 1) with 1%Q; lra).
  assert (H2 : (inject_Z z < inject_Z (n + 1))%Q)
    by (rewrite inject_Z_plus; change (inject_Z 1) with 1%Q in *; lra).
  rewrite <- Zlt_Qlt in H1, H2. lia.
Qed.

(** Rounding to [s] decimals leaves a value of at most [s] decimals as it
    is. *)
Lemma numeric_round_grid (s : Z) (q : Q) :
  0 <= s -> on_grid s q -> (numeric_round s q == q)%Q.
Proof.
  intros Hs [k Hk].
  pose proof (pow10_positive s Hs) as Hpos.
  assert (HS : (0 < inject_Z (10 ^ s))%Q)
    by (rewrite <- (Zlt_Qlt 0); exact Hpos).
  assert (Hscaled : (q * inject_Z (10 ^ s) == inject_Z k)%Q)
    by (rewrite Hk; now apply grid_scaled).
  apply (Qmult_inj_r _ _ (inject_Z (10 ^ s))); [lra |].
  rewrite (numeric_round_scaled s q Hs), Hscaled.
  destruct (Qltb q 0) eqn:Hsign.
  - apply Qltb_lt in Hsign.
    assert (Habs : (Qabs q * inject_Z (10 ^ s) + (1 # 2)
                    == inject_Z (- k) + (1 # 2))%Q).
    { rewrite (Qabs_neg q) by lra. rewrite inject_Z_opp, <- Hscaled. ring. }
    rewrite (Qfloor_comp _ _ Habs), Qfloor_half.
    now rewrite Z.opp_involutive.
  - apply Qltb_ge in Hsign.
    assert (Habs : (Qabs q * inject_Z (10 ^ s) + (1 # 2)
                    == inject_Z k + (1 # 2))%Q).
    { rewrite (Qabs_pos q) by exact Hsign. now rewrite Hscaled. }
    now rewrite (Qfloor_comp _ _ Habs), Qfloor_half.
Qed.

Lemma on_grid_le (s t : Z) (q : Q) :
  0 <= s <= t -> on_grid s q -> on_grid t q.
Proof.
  intros Hst [k Hk]. exists (k * 10 ^ (t - s)).
  rewrite Hk. unfold Qeq. cbn [Qnum Qden].
  rewrite !Z2Pos.id by (apply pow10_positive; lia).
  replace t with (s + (t - s)) at 1 by lia.
  rewrite Z.pow_add_r by lia. ring.
Qed.

Lemma on_grid_round (s : Z) (q : Q) : on_grid s (numeric_round s q).
Proof. unfold numeric_round. cbv zeta. eexists. reflexivity. Qed.

Lemma on_grid_numeric_value (x : numeric) :
  on_grid (Z.of_nat (nscale x)) (numeric_value x).
Proof. exists (unscaled x). reflexivity. Qed.

Lemma dscale_nonneg (q : Q) : 0 <= dscale q.
Proof. unfold dscale. apply log10_spec. reflexivity. Qed.

Lemma select_div_scale_range (a b : Q) : 0 <= select_div_scale a b <= 1000.
Proof. unfold select_div_scale. lia. Qed.

Lemma select_div_scale_ge (a b : Q) (s : Z) :
  s <= 1000 ->
  s <= dscale a \/ s <= dscale b \/ s <= 16 - quotient_weight a b * 4 ->
  s <= select_div_scale a b.
Proof. unfold select_div_scale. lia. Qed.

Lemma numeric_div_close (a b : Q) :
  (Qabs (numeric_div a b - a / b) * inject_Z (10 ^ select_div_scale a b)
   <= 1 # 2)%Q.
Proof.
  unfold numeric_div. apply numeric_round_close.
  apply select_div_scale_range.
Qed.

Lemma is_numeric_value (x : numeric) : is_numeric (numeric_value x).
Proof.
  unfold is_numeric. now rewrite Qden_numeric_value, dscale_numeric_value.
Qed.

Lemma dscale_grid (s : Z) (n : Z) : 0 <= s -> dscale (n # Z.to_pos (10 ^ s)) = s.
Proof.
  intro Hs. unfold dscale. cbn [Qden].
  rewrite Z2Pos.id by now apply pow10_positive. now apply log10_pow.
Qed.

Lemma is_numeric_grid (s : Z) (n : Z) :
  0 <= s -> is_numeric (n # Z.to_pos (10 ^ s)).
Proof.
  intro Hs. unfold is_numeric. rewrite dscale_grid by exact Hs.
  cbn [Qden]. apply Z2Pos.id. now apply pow10_positive.
Qed.

Lemma is_numeric_on_grid (q : Q) : is_numeric q -> on_grid (dscale q) q.
Proof.
  intro H. exists (Qnum q). unfold Qeq. cbn [Qnum Qden].
  rewrite Z2Pos.id by (apply pow10_positive, dscale_nonneg).
  now rewrite H.
Qed.

Lemma dscale_numeric_round (s : Z) (q : Q) :
  0 <= s -> dscale (numeric_round s q) = s.
Proof. intro Hs. unfold numeric_round. cbv zeta. now apply dscale_grid. Qed.

Lemma is_numeric_round (s : Z) (q : Q) : 0 <= s -> is_numeric (numeric_round s q).
Proof. intro Hs. unfold numeric_round. cbv zeta. now apply is_numeric_grid. Qed.

Lemma is_numeric_div (a b : Q) : is_numeric (numeric_div a b).
Proof. apply is_numeric_round, select_div_scale_range. Qed.

Lemma dscale_numeric_div (a b : Q) :
  dscale (numeric_div a b) = select_div_scale a b.
Proof. apply dscale_numeric_round, select_div_scale_range. Qed.

Lemma numeric_round_comp (s : Z) (q q' : Q) :
  0 <= s -> (q == q')%Q -> (numeric_round s q == numeric_round s q')%Q.
Proof.
  intros Hs Heq. apply Qle_antisym; apply numeric_round_monotone;
    try exact Hs; rewrite Heq; apply Qle_refl.
Qed.

Lemma numeric_add_spec (a b : Q) :
  is_numeric a -> is_numeric b ->
  (numeric_add a b == a + b)%Q
  /\ is_numeric (numeric_add a b)
  /\ dscale (numeric_add a b) = Z.max (dscale a) (dscale b).
Proof.
  intros Ha Hb. unfold numeric_add. cbv zeta.
  pose proof (dscale_nonneg a) as H0a. pose proof (dscale_nonneg b) as H0b.
  set (s := Z.max (dscale a) (dscale b)).
  assert (Hs : 0 <= s) by (unfold s; lia).
  split; [| split; [now apply is_numeric_grid | now apply dscale_grid]].
  assert (Hsa : 10 ^ s = 10 ^ (s - dscale a) * 10 ^ dscale a)
    by (rewrite <- Z.pow_add_r by (unfold s; lia); f_equal; lia).
  assert (Hsb : 10 ^ s = 10 ^ (s - dscale b) * 10 ^ dscale b)
    by (rewrite <- Z.pow_add_r by (unfold s; lia); f_equal; lia).
  unfold is_numeric in Ha, Hb.
  unfold Qeq, Qplus. cbn [Qnum Qden].
  rewrite Pos2Z.inj_mul, Z2Pos.id by now apply pow10_positive.
  rewrite Ha, Hb.
  set (pa := 10 ^ (s - dscale a)) in *. set (pb := 10 ^ (s - dscale b)) in *.
  set (da := 10 ^ dscale a) in *. set (db := 10 ^ dscale b) in *.
  transitivity ((Qnum a * db) * (pa * da) + (Qnum b * da) * (pb * db)); [ring |].
  rewrite <- Hsa, <- Hsb. ring.
Qed.

Lemma numeric_sum_spec (vs : list Q) :
  Forall is_numeric vs ->
  (numeric_sum vs == fold_right Qplus 0 vs)%Q
  /\ is_numeric (numeric_sum vs)
  /\ Forall (fun v => dscale v <= dscale (numeric_sum vs)) vs.
Proof.
  induction 1 as [| v vs Hv _ (IHeq & IHnum & IHs)]; cbn [numeric_sum fold_right].
  - split; [reflexivity | split; [reflexivity | constructor]].
  - fold (numeric_sum vs).
    destruct (numeric_add_spec v (numeric_sum vs) Hv IHnum) as (Heq & Hnum & Hs).
    split; [now rewrite Heq, IHeq |].
    split; [exact Hnum |].
    rewrite Hs. constructor; [lia |].
    eapply Forall_impl; [| exact IHs]. cbn. intros a Ha. lia.
Qed.

Lemma twenty_digits :
  dscale 20.0 = 1 /\ digit_weight 20.0 = 0 /\ first_digit 20.0 = 20.
Proof. repeat split; reflexivity. Qed.

Lemma ticks_scale_pos (a : Q) : 1 <= select_div_scale a 20.0.
Proof.
  apply select_div_scale_ge; [lia |]. right. left.
  now rewrite (proj1 twenty_digits).
Qed.

Lemma Qabs_scaled_bound (d : Q) (r : Z) (k : Z) :
  0 <= k <= r ->
  (Qabs d * inject_Z (10 ^ r) <= 1 # 2)%Q ->
  (Qabs d * inject_Z (10 ^ k) <= 1 # 2)%Q.
Proof.
  intros Hk H.
  assert (Hle : (inject_Z (10 ^ k) <= inject_Z (10 ^ r))%Q).
  { rewrite <- Zle_Qle. apply Z.pow_le_mono_r; lia. }
  pose proof (Qabs_nonneg d) as Hd.
  assert (Hmul : (Qabs d * inject_Z (10 ^ k) <= Qabs d * inject_Z (10 ^ r))%Q).
  { rewrite !(Qmult_comm (Qabs d)). now apply Qmult_le_compat_r. }
  eapply Qle_trans; eassumption.
Qed.

(** The quotient by [20.0] is never more than [0.05] from the exact one. *)
Lemma ticks_close (a : Q) : (Qabs (numeric_div a 20.0 - a / 20.0) <= 1 # 20)%Q.
Proof.
  pose proof (numeric_div_close a 20.0) as H.
  apply (Qabs_scaled_bound _ _ 1) in H.
  - change (inject_Z (10 ^ 1)) with 10%Q in H.
    set (X := Qabs (numeric_div a 20.0 - a / 20.0)) in *. clearbody X. lra.
  - pose proof (ticks_scale_pos a).
    pose proof (select_div_scale_range a 20.0). lia.
Qed.

Lemma twentieth_on_grid (x : numeric) :
  on_grid (Z.of_nat (nscale x) + 2) (numeric_value x / 20.0).
Proof.
  exists (5 * unscaled x). unfold numeric_value, Qeq, Qdiv, Qmult, Qinv.
  cbn [Qnum Qden].
  rewrite !Pos2Z.inj_mul, !Z2Pos.id by (apply pow10_positive; lia).
  rewrite Z.pow_add_r by lia. change (10 ^ 2) with 100. lia.
Qed.

(** A stored value of at most fifteen digits and at most 998 decimals is
    divided by [20.0] exactly. *)
Lemma ticks_exact (x : numeric) :
  Z.abs (unscaled x) < 10 ^ 15 -> (nscale x <= 998)%nat ->
  (numeric_div (numeric_value x) 20.0 == numeric_value x / 20.0)%Q.
Proof.
  intros Hdigits Hscale. unfold numeric_div.
  pose proof (select_div_scale_range (numeric_value x) 20.0) as Hr.
  apply numeric_round_grid; [lia |].
  destruct (Z.eq_dec (unscaled x) 0) as [Hz | Hnz].
  - exists 0. unfold numeric_value. rewrite Hz. reflexivity.
  - apply (on_grid_le (Z.of_nat (nscale x) + 2)); [| apply twentieth_on_grid].
    split; [lia |].
    apply select_div_scale_ge; [lia |]. right. right.
    unfold quotient_weight.
    destruct twenty_digits as (_ & -> & ->).
    unfold digit_weight. rewrite dscale_numeric_value.
    change (Qnum (numeric_value x)) with (unscaled x).
    destruct (Z.eqb_spec (unscaled x) 0) as [| _]; [contradiction |].
    assert (Hpos : 0 < Z.abs (unscaled x)) by lia.
    destruct (log10_spec _ Hpos) as (H0 & Hlo & _).
    assert (Hlog : log10 (Z.abs (unscaled x)) <= 14).
    { apply pow10_lt_inv; [exact H0 | lia |].
      change (14 + 1) with 15. lia. }
    pose proof (Z.mul_div_le (log10 (Z.abs (unscaled x)) - Z.of_nat (nscale x)) 4
                  ltac:(lia)) as Hfloor.
    destruct (first_digit (numeric_value x) <=? 20); lia.
Qed.

Lemma avg_scale_ge (vs : list Q) (v : Q) :
  Forall is_numeric vs -> In v vs -> dscale v <= 1000 ->
  dscale v <= avg_scale vs.
Proof.
  intros Hnum Hin Hcap. unfold avg_scale.
  apply select_div_scale_ge; [exact Hcap |]. left.
  destruct (numeric_sum_spec vs Hnum) as (_ & _ & Hs).
  rewrite Forall_forall in Hs. now apply Hs.
Qed.

Lemma Qabs_numeric_scaled (a : Q) :
  is_numeric a ->
  (Qabs a * inject_Z (10 ^ dscale a) == inject_Z (Z.abs (Qnum a)))%Q.
Proof.
  intro Hnum. unfold is_numeric in Hnum. rewrite <- Hnum.
  destruct a as [n d]. unfold Qabs, Qeq, Qmult, inject_Z. cbn. lia.
Qed.

Lemma digit_weight_integer (N : Z) :
  1 <= N ->
  0 <= digit_weight (inject_Z N)
  /\ N < 10000 ^ (digit_weight (inject_Z N) + 1)
  /\ (inject_Z N
      < (inject_Z (first_digit (inject_Z N)) + 1)
        * inject_Z (10000 ^ digit_weight (inject_Z N)))%Q
  /\ 0 <= first_digit (inject_Z N).
Proof.
  intro HN. unfold first_digit, digit_weight.
  change (Qnum (inject_Z N)) with N.
  change (dscale (inject_Z N)) with 0.
  destruct (Z.eqb_spec N 0) as [| _]; [lia |].
  rewrite Z.sub_0_r, Z.abs_eq by lia.
  destruct (log10_spec N ltac:(lia)) as (H0 & Hlo & Hhi).
  set (L := log10 N) in *. set (w := L / 4).
  assert (Hw : 0 <= w) by (apply Z.div_pos; lia).
  assert (Hfloor : L < 4 * (w + 1)).
  { pose proof (Z.div_mod L 4 ltac:(lia)). 
    pose proof (Z.mod_pos_bound L 4 ltac:(lia)). unfold w. lia. }
  assert (Hpow : 10000 ^ (w + 1) = 10 ^ (4 * (w + 1))).
  { rewrite Z.pow_mul_r by lia. reflexivity. }
  assert (HW : (0 < inject_Z (10000 ^ w))%Q).
  { rewrite <- (Zlt_Qlt 0). apply Z.pow_pos_nonneg; lia. }
  assert (HWq : (inject_Z 10000 ^ w == inject_Z (10000 ^ w))%Q)
    by (symmetry; apply Zpower_Qpower; exact Hw).
  split; [exact Hw |]. split; [| split].
  - rewrite Hpow.
    assert (10 ^ (L + 1) <= 10 ^ (4 * (w + 1)))
      by (apply Z.pow_le_mono_r; lia).
    lia.
  - rewrite (Qabs_pos (inject_Z N)) by (rewrite <- (Zle_Qle 0); lia).
    pose proof (Qlt_floor (inject_Z N / inject_Z 10000 ^ w)) as Hfl.
    rewrite inject_Z_plus in Hfl. change (inject_Z 1) with 1%Q in Hfl.
    set (d := inject_Z (Qfloor (inject_Z N / inject_Z 10000 ^ w))) in *.
    rewrite HWq in Hfl.
    apply (Qmult_lt_compat_r _ _ _ HW) in Hfl.
    assert (Hsimp : (inject_Z N / inject_Z (10000 ^ w) * inject_Z (10000 ^ w)
                     == inject_Z N)%Q).
    { rewrite Qmult_comm. apply Qmult_div_r. lra. }
    now rewrite Hsimp in Hfl.
  - change 0 with (Qfloor 0). apply Qfloor_resp_le.
    apply Qle_shift_div_l.
    + rewrite HWq. exact HW.
    + rewrite Qmult_0_l. apply Qabs_nonneg.
Qed.

Lemma digit_weight_numeric (a : Q) :
  is_numeric a -> Qnum a <> 0 -> 0 <= digit_weight a ->
  10000 ^ digit_weight a * 10 ^ dscale a <= Z.abs (Qnum a)
  /\ first_digit a * 10000 ^ digit_weight a * 10 ^ dscale a <= Z.abs (Qnum a).
Proof.
  intros Hnum Hnz. unfold first_digit, digit_weight.
  destruct (Z.eqb_spec (Qnum a) 0) as [| _]; [contradiction |].
  set (n := Z.abs (Qnum a)). set (s := dscale a).
  assert (Hpos : 0 < n) by (unfold n; lia).
  pose proof (dscale_nonneg a) as Hs. fold s in Hs.
  destruct (log10_spec n Hpos) as (H0 & Hlo & _).
  set (L := log10 n) in *. set (w := (L - s) / 4). intro Hw.
  pose proof (Z.mul_div_le (L - s) 4 ltac:(lia)) as Hfloor. fold w in Hfloor.
  assert (Hpow : 10000 ^ w * 10 ^ s = 10 ^ (4 * w + s)).
  { rewrite Z.pow_add_r, Z.pow_mul_r by lia. reflexivity. }
  assert (Hle : 10 ^ (4 * w + s) <= 10 ^ L) by (apply Z.pow_le_mono_r; lia).
  split; [lia |].
  assert (HW : (0 < inject_Z (10000 ^ w))%Q).
  { rewrite <- (Zlt_Qlt 0). apply Z.pow_pos_nonneg; lia. }
  assert (HWq : (inject_Z 10000 ^ w == inject_Z (10000 ^ w))%Q)
    by (symmetry; apply Zpower_Qpower; exact Hw).
  pose proof (Qfloor_le (Qabs a / inject_Z 10000 ^ w)) as Hfl.
  set (d := Qfloor (Qabs a / inject_Z 10000 ^ w)) in *.
  rewrite HWq in Hfl.
  apply (Qmult_le_compat_r _ _ (inject_Z (10000 ^ w))) in Hfl; [| lra].
  assert (Hsimp : (Qabs a / inject_Z (10000 ^ w) * inject_Z (10000 ^ w)
                   == Qabs a)%Q).
  { rewrite Qmult_comm. apply Qmult_div_r. lra. }
  rewrite Hsimp in Hfl.
  assert (HS : (0 <= inject_Z (10 ^ s))%Q).
  { rewrite <- (Zle_Qle 0). pose proof (pow10_positive s Hs). lia. }
  apply (Qmult_le_compat_r _ _ _ Hfl) in HS.
  pose proof (Qabs_numeric_scaled a Hnum) as Habs. fold n s in Habs.
  rewrite Habs in HS.
  rewrite <- !inject_Z_mult, <- Zle_Qle in HS. exact HS.
Qed.

(** The weight PostgreSQL estimates for a quotient is never above the
    quotient's own: a quotient below [10000^k] gets at least [20 - 4 k]
    decimals. *)
Lemma quotient_weight_bound (a : Q) (N k : Z) :
  is_numeric a -> 1 <= N -> 0 <= k ->
  (Qabs a < inject_Z (10000 ^ k) * inject_Z N)%Q ->
  quotient_weight a (inject_Z N) <= k - 1.
Proof.
  intros Hnum HN Hk Hlt.
  destruct (digit_weight_integer N HN) as (Hw2 & HN2 & Hd2 & Hd20).
  unfold quotient_weight.
  set (w2 := digit_weight (inject_Z N)) in *.
  set (d2 := first_digit (inject_Z N)) in *.
  destruct (Z.eq_dec (Qnum a) 0) as [Hz | Hnz].
  { unfold digit_weight at 1, first_digit at 1. rewrite Hz. cbn [Z.eqb].
    destruct (Z.leb_spec 0 d2); lia. }
  destruct (Z_le_gt_dec (digit_weight a) (k + w2 - 1)) as [Hsmall | Hbig].
  { destruct (first_digit a <=? d2); lia. }
  assert (Hw1 : 0 <= digit_weight a) by lia.
  destruct (digit_weight_numeric a Hnum Hnz Hw1) as (Hlow & Hdig).
  set (w1 := digit_weight a) in *. set (d1 := first_digit a) in *.
  set (n := Z.abs (Qnum a)) in *. set (s := dscale a) in *.
  pose proof (dscale_nonneg a) as Hs. fold s in Hs.
  pose proof (pow10_positive s Hs) as HS.
  assert (Hn : n < 10000 ^ k * N * 10 ^ s).
  { assert (HSq : (0 < inject_Z (10 ^ s))%Q) by (rewrite <- (Zlt_Qlt 0); exact HS).
    apply (Qmult_lt_compat_r _ _ _ HSq) in Hlt.
    pose proof (Qabs_numeric_scaled a Hnum) as Habs. fold n s in Habs.
    rewrite Habs in Hlt.
    rewrite <- !inject_Z_mult, <- Zlt_Qlt in Hlt. exact Hlt. }
  assert (Hd2z : N < (d2 + 1) * 10000 ^ w2).
  { change 1%Q with (inject_Z 1) in Hd2.
    rewrite <- inject_Z_plus, <- inject_Z_mult, <- Zlt_Qlt in Hd2. exact Hd2. }
  assert (HK : 0 < 10000 ^ k) by (apply Z.pow_pos_nonneg; lia).
  assert (HW2 : 0 < 10000 ^ w2) by (apply Z.pow_pos_nonneg; lia).
  destruct (Z.leb_spec d1 d2) as [Hle | Hgt].
  - destruct (Z_le_gt_dec (w1 - w2 - 1) (k - 1)) as [| Hcontra]; [lia |].
    exfalso.
    assert (Hpow : 10000 ^ k * 10000 ^ (w2 + 1) <= 10000 ^ w1).
    { rewrite <- Z.pow_add_r by lia. apply Z.pow_le_mono_r; lia. }
    assert (H1 : 10000 ^ k * N * 10 ^ s < 10000 ^ k * 10000 ^ (w2 + 1) * 10 ^ s).
    { apply Z.mul_lt_mono_pos_r; [exact HS |].
      apply Z.mul_lt_mono_pos_l; [exact HK | exact HN2]. }
    assert (H2 : 10000 ^ k * 10000 ^ (w2 + 1) * 10 ^ s <= 10000 ^ w1 * 10 ^ s).
    { apply Z.mul_le_mono_nonneg_r; [lia | exact Hpow]. }
    lia.
  - destruct (Z_le_gt_dec (w1 - w2 - 0) (k - 1)) as [| Hcontra]; [lia |].
    exfalso.
    assert (Hpow : 10000 ^ k * 10000 ^ w2 <= 10000 ^ w1).
    { rewrite <- Z.pow_add_r by lia. apply Z.pow_le_mono_r; lia. }
    assert (Hd1 : d2 + 1 <= d1) by lia.
    assert (H1 : 10000 ^ k * N * 10 ^ s
                 < 10000 ^ k * ((d2 + 1) * 10000 ^ w2) * 10 ^ s).
    { apply Z.mul_lt_mono_pos_r; [exact HS |].
      apply Z.mul_lt_mono_pos_l; [exact HK | exact Hd2z]. }
    assert (H2 : 10000 ^ k * ((d2 + 1) * 10000 ^ w2) * 10 ^ s
                 <= d1 * 10000 ^ w1 * 10 ^ s).
    { apply Z.mul_le_mono_nonneg_r; [lia |].
      transitivity (d1 * (10000 ^ k * 10000 ^ w2)).
      - replace (10000 ^ k * ((d2 + 1) * 10000 ^ w2))
          with ((d2 + 1) * (10000 ^ k * 10000 ^ w2)) by ring.
        apply Z.mul_le_mono_nonneg_r; lia.
      - apply Z.mul_le_mono_nonneg_l; [lia | exact Hpow]. }
    lia.
Qed.

(** ** The rows of the unification view *)

Lemma extension_case_some (name : string) (v : Q) :
  is_extension_type name = true -> exists q, extension_case name v = Some q.
Proof.
  unfold is_extension_type, extension_case. intro H.
  destruct (name =? "platform_extension_mm")%string; [eauto |].
  destruct (name =? "platform_extension_ticks")%string; [eauto | discriminate].
Qed.

Lemma in_view (db : database) (row : extension_row) :
  In row (v_platform_extension_mm db) <->
  exists pr rt,
    In pr (processed_record db) /\ In rt (record_type db)
    /\ rt_id rt = pr_type pr /\ is_extension_type (rt_name rt) = true
    /\ row = {| device_id := pr_device_id pr;
                observed_at := pr_record_time pr;
                extension_mm := extension_case (rt_name rt) (pr_value pr) |}.
Proof.
  unfold v_platform_extension_mm, extension_rows_of, joined_types.
  rewrite in_flat_map. split.
  - intros (pr & Hpr & Hrow). apply in_map_iff in Hrow.
    destruct Hrow as (rt & Heq & Hrt).
    apply filter_In in Hrt. destruct Hrt as [Hrt Hext].
    apply filter_In in Hrt. destruct Hrt as [Hrt Hid].
    exists pr, rt. repeat split; auto. now apply Z.eqb_eq.
  - intros (pr & rt & Hpr & Hrt & Hid & Hext & ->).
    exists pr. split; [assumption |].
    apply in_map_iff. exists rt. split; [reflexivity |].
    apply filter_In. split; [| assumption].
    apply filter_In. split; [assumption | now apply Z.eqb_eq].
Qed.

Lemma extension_mm_not_null (db : database) (row : extension_row) :
  In row (v_platform_extension_mm db) -> exists q, extension_mm row = Some q.
Proof.
  intro H. apply in_view in H.
  destruct H as (pr & rt & _ & _ & _ & Hext & ->). cbn.
  now apply extension_case_some.
Qed.

(** Under a primary key, the row [find] returns is the only one the join
    matches. *)
Lemma filter_key_unique {A} (key : A -> Z) (k : Z) (l : list A) (x : A) :
  NoDup (map key l) ->
  find (fun y => key y =? k) l = Some x ->
  filter (fun y => key y =? k) l = [x].
Proof.
  induction l as [| y l IH]; cbn; [discriminate |].
  intros Hnd Hfind. inversion Hnd as [| ? ? Hnotin Hnd']; subst.
  destruct (key y =? k) eqn:Hk.
  - injection Hfind as ->. f_equal.
    apply Z.eqb_eq in Hk.
    clear IH Hnd Hnd'. induction l as [| z l IHl]; cbn; [reflexivity |].
    destruct (key z =? k) eqn:Hz.
    + exfalso. apply Hnotin. left. apply Z.eqb_eq in Hz. congruence.
    + apply IHl. intro Hin. apply Hnotin. now right.
  - now apply IH.
Qed.

Lemma joined_types_unique (db : database) (pr : processed_record_row)
    (rt : record_type_row) :
  record_type_pkey db -> type_of db pr = Some rt -> joined_types db pr = [rt].
Proof.
  unfold record_type_pkey, type_of, joined_types. intros Hpk Hfind.
  now apply (filter_key_unique rt_id).
Qed.

Lemma extension_rows_of_typed (db : database) (pr : processed_record_row)
    (rt : record_type_row) :
  record_type_pkey db -> type_of db pr = Some rt ->
  extension_rows_of db pr =
    if is_extension_type (rt_name rt)
    then [ {| device_id := pr_device_id pr;
              observed_at := pr_record_time pr;
              extension_mm := extension_case (rt_name rt) (pr_value pr) |} ]
    else [].
Proof.
  intros Hpk Hty. unfold extension_rows_of.
  rewrite (joined_types_unique db pr rt Hpk Hty). cbn.
  now destruct (is_extension_type (rt_name rt)).
Qed.

(** The example databases are what the write path leaves behind. *)
Lemma example_databases_ingested :
  fst (ingest_batch example_validate example_resolver
                    [(1704067200500000, scenario_A)] init_db)
  = scenario_A_db
  /\ fst (ingest_batch example_validate example_resolver example_batch init_db)
     = example_db.
Proof. split; reflexivity. Qed.

(** C3, as stated, fails: PostgreSQL rounds the quotient to the result
    scale it selects, one decimal for a twenty-digit integer, so the ticks
    value 10000000000000000001 is reported as 500000000000000000.1, which
    is not its twentieth. *)
Lemma ticks_quotient_rounds : ~ converts_exactly rounding_db.
Proof.
  intro H.
  destruct (H (fact 1 42 10 1 10000000000000000001)
              {| rt_id := 1; rt_name := "platform_extension_ticks";
                 rt_version_id := None |}
              {| device_id := 42; observed_at := 10;
                 extension_mm := Some 500000000000000000.1%Q |}
              (or_introl eq_refl) eq_refl eq_refl
              ltac:(left; vm_compute; reflexivity))
    as (q & Hq & Heq).
  injection Hq as <-. vm_compute in Heq. discriminate Heq.
Qed.

(** C3, amended.  Unification view conversion: a fact of the millimeter
    type gives one view row whose [extension_mm] is the stored value; a fact
    of the legacy ticks type gives one row whose [extension_mm] is the
    quotient of the value by [20.0] as PostgreSQL computes it, which is
    never more than 0.05 from the exact quotient and is the exact quotient
    when the value has at most fifteen digits and at most 998 decimals; a
    fact of any other type gives no row.  In Scenario A the stored ticks
    value 100 is reported as 5. *)
Theorem view_conversion :
  (forall db pr rt,
      record_type_pkey db -> type_of db pr = Some rt ->
      (rt_name rt = "platform_extension_mm"%string ->
       extension_rows_of db pr =
         [ {| device_id := pr_device_id pr; observed_at := pr_record_time pr;
              extension_mm := Some (pr_value pr) |} ])
      /\ (rt_name rt = "platform_extension_ticks"%string ->
          extension_rows_of db pr =
            [ {| device_id := pr_device_id pr; observed_at := pr_record_time pr;
                 extension_mm := Some (numeric_div (pr_value pr) 20.0) |} ]
          /\ (Qabs (numeric_div (pr_value pr) 20.0 - pr_value pr / 20.0)
              <= 1 # 20)%Q
          /\ (Z.abs (unscaled (pr_numeric pr)) < 10 ^ 15 ->
              (nscale (pr_numeric pr) <= 998)%nat ->
              (numeric_div (pr_value pr) 20.0 == pr_value pr / 20.0)%Q))
      /\ (rt_name rt <> "platform_extension_mm"%string ->
          rt_name rt <> "platform_extension_ticks"%string ->
          extension_rows_of db pr = []))
  /\ (forall db, v_platform_extension_mm db
                 = flat_map (extension_rows_of db) (processed_record db))
  /\ (exists q,
         v_platform_extension_mm scenario_A_db
         = [ {| device_id := 42; observed_at := 1704067200000000;
                extension_mm := Some q |} ]
         /\ (q == 5)%Q).
Proof.
  split; [| split].
  - intros db pr rt Hpk Hty.
    rewrite (extension_rows_of_typed db pr rt Hpk Hty).
    unfold is_extension_type, extension_case.
    split; [| split].
    + intros ->. reflexivity.
    + intros ->. split; [reflexivity |].
      split; [apply ticks_close |].
      intros Hdigits Hscale. now apply ticks_exact.
    + intros Hmm Hticks.
      apply String.eqb_neq in Hmm, Hticks. now rewrite Hmm, Hticks.
  - reflexivity.
  - exists (numeric_div 100 20.0). split; vm_compute; reflexivity.
Qed.

Lemma view_conversion_witness :
  (extension_rows_of swing_db (fact 5 42 50 1 (-40))
   = [ {| device_id := 42; observed_at := 50;
          extension_mm := Some (numeric_div (-40) 20.0) |} ]
   /\ (numeric_div (-40) 20.0 == (-40) / 20.0)%Q)
  /\ extension_rows_of swing_db (fact 7 42 70 3 88) = [].
Proof.
  assert (Hpk : record_type_pkey swing_db).
  { unfold record_type_pkey. cbn.
    repeat constructor; cbn; intuition discriminate. }
  split.
  - destruct (proj1 (proj2 (proj1 view_conversion swing_db
                              (fact 5 42 50 1 (-40))
                              {| rt_id := 1; rt_name := "platform_extension_ticks";
                                 rt_version_id := None |} Hpk eq_refl)) eq_refl)
      as (Hrows & _ & Hexact).
    split; [exact Hrows |].
    apply Hexact; [cbn; lia | cbn; lia].
  - refine (proj2 (proj2 (proj1 view_conversion swing_db (fact 7 42 70 3 88)
             {| rt_id := 3; rt_name := "battery_charge";
                rt_version_id := None |} Hpk eq_refl)) _ _);
      cbn; discriminate.
Defined.

(** C4, as stated, fails for the same reason: the twenty-digit ticks value
    and the millimeter value that is exactly its twentieth are reported as
    500000000000000000.1 and 500000000000000000.05. *)
Lemma unit_equivalence_rounds : ~ unit_equivalent rounding_db.
Proof.
  intro H.
  specialize (H (fact 1 42 10 1 10000000000000000001)
                (fact_decimal 2 42 20 2 50000000000000000005 2)
                {| rt_id := 1; rt_name := "platform_extension_ticks";
                   rt_version_id := None |}
                {| rt_id := 2; rt_name := "platform_extension_mm";
                   rt_version_id := None |}
                500000000000000000.1%Q 500000000000000000.05%Q
                (or_introl eq_refl) (or_intror (or_introl eq_refl))
                eq_refl eq_refl eq_refl eq_refl
                ltac:(vm_compute; reflexivity)
                ltac:(left; vm_compute; reflexivity)
                ltac:(right; left; vm_compute; reflexivity)).
  vm_compute in H. discriminate H.
Qed.

(** C4, amended.  Unit equivalence: for a stored ticks fact of value [T]
    and a stored millimeter fact whose value is [T / 20.0], whatever their
    devices and timestamps, the view has a row for each, and their
    [extension_mm] values are never more than 0.05 apart; they are
    numerically equal when [T] has at most fifteen digits and at most 998
    decimals. *)
Theorem unit_equivalence (db : database) (ticks mm : processed_record_row)
    (rt_ticks rt_mm : record_type_row) :
  record_type_pkey db ->
  In ticks (processed_record db) ->
  In mm (processed_record db) ->
  type_of db ticks = Some rt_ticks ->
  rt_name rt_ticks = "platform_extension_ticks"%string ->
  type_of db mm = Some rt_mm ->
  rt_name rt_mm = "platform_extension_mm"%string ->
  (pr_value mm == pr_value ticks / 20.0)%Q ->
  exists e_ticks e_mm,
    In {| device_id := pr_device_id ticks; observed_at := pr_record_time ticks;
          extension_mm := Some e_ticks |} (v_platform_extension_mm db)
    /\ In {| device_id := pr_device_id mm; observed_at := pr_record_time mm;
             extension_mm := Some e_mm |} (v_platform_extension_mm db)
    /\ extension_rows_of db ticks =
         [ {| device_id := pr_device_id ticks;
              observed_at := pr_record_time ticks;
              extension_mm := Some e_ticks |} ]
    /\ extension_rows_of db mm =
         [ {| device_id := pr_device_id mm; observed_at := pr_record_time mm;
              extension_mm := Some e_mm |} ]
    /\ (Qabs (e_ticks - e_mm) <= 1 # 20)%Q
    /\ (Z.abs (unscaled (pr_numeric ticks)) < 10 ^ 15 ->
        (nscale (pr_numeric ticks) <= 998)%nat ->
        (e_ticks == e_mm)%Q).
Proof.
  intros Hpk Hint Hinm Ht Hnt Hm Hnm Hval.
  exists (numeric_div (pr_value ticks) 20.0), (pr_value mm).
  assert (Hrt : extension_rows_of db ticks =
                [ {| device_id := pr_device_id ticks;
                     observed_at := pr_record_time ticks;
                     extension_mm := Some (numeric_div (pr_value ticks) 20.0) |} ]).
  { rewrite (extension_rows_of_typed db ticks rt_ticks Hpk Ht), Hnt.
    reflexivity. }
  assert (Hrm : extension_rows_of db mm =
                [ {| device_id := pr_device_id mm;
                     observed_at := pr_record_time mm;
                     extension_mm := Some (pr_value mm) |} ]).
  { rewrite (extension_rows_of_typed db mm rt_mm Hpk Hm), Hnm. reflexivity. }
  split; [| split; [| split; [exact Hrt | split; [exact Hrm | split]]]].
  - unfold v_platform_extension_mm. apply in_flat_map.
    exists ticks. split; [exact Hint |]. rewrite Hrt. now left.
  - unfold v_platform_extension_mm. apply in_flat_map.
    exists mm. split; [exact Hinm |]. rewrite Hrm. now left.
  - rewrite Hval. apply ticks_close.
  - intros Hdigits Hscale. rewrite Hval. now apply ticks_exact.
Qed.

Lemma unit_equivalence_witness :
  exists e_ticks e_mm,
    In {| device_id := 42; observed_at := 20; extension_mm := Some e_ticks |}
       (v_platform_extension_mm swing_db)
    /\ In {| device_id := 42; observed_at := 30; extension_mm := Some e_mm |}
          (v_platform_extension_mm swing_db)
    /\ (e_ticks == e_mm)%Q.
Proof.
  assert (Hpk : record_type_pkey swing_db).
  { unfold record_type_pkey. cbn.
    repeat constructor; cbn; intuition discriminate. }
  destruct (unit_equivalence swing_db (fact 1 42 20 1 100) (fact 3 42 30 2 5)
              {| rt_id := 1; rt_name := "platform_extension_ticks";
                 rt_version_id := None |}
              {| rt_id := 2; rt_name := "platform_extension_mm";
                 rt_version_id := None |}
              Hpk (or_introl eq_refl)
              (or_intror (or_intror (or_introl eq_refl)))
              eq_refl eq_refl eq_refl eq_refl
              ltac:(vm_compute; reflexivity))
    as (e_ticks & e_mm & Hin1 & Hin2 & _ & _ & _ & Hexact).
  exists e_ticks, e_mm. split; [exact Hin1 | split; [exact Hin2 |]].
  apply Hexact; cbn; lia.
Defined.

(** C9. Every row of the unification view has a non-null [extension_mm]:
    the [WHERE] clause keeps only the two type names the [CASE] handles, so
    its implicit [NULL] branch is never taken. *)
Theorem extension_mm_never_null (db : database) (row : extension_row) :
  In row (v_platform_extension_mm db) ->
  extension_mm row <> None
  /\ exists pr rt,
       In pr (processed_record db) /\ In rt (record_type db)
       /\ rt_id rt = pr_type pr
       /\ ((rt_name rt = "platform_extension_mm"%string
            /\ extension_mm row = Some (pr_value pr))
           \/ (rt_name rt = "platform_extension_ticks"%string
               /\ extension_mm row = Some (numeric_div (pr_value pr) 20.0))).
Proof.
  intro Hin. split.
  - destruct (extension_mm_not_null db row Hin) as [q Hq]. congruence.
  - apply in_view in Hin.
    destruct Hin as (pr & rt & Hpr & Hrt & Hid & Hext & ->).
    exists pr, rt. repeat split; auto. cbn.
    unfold is_extension_type in Hext. unfold extension_case.
    destruct (rt_name rt =? "platform_extension_mm")%string eqn:Hmm.
    + left. apply String.eqb_eq in Hmm. auto.
    + destruct (rt_name rt =? "platform_extension_ticks")%string eqn:Hticks;
        [| discriminate].
      right. apply String.eqb_eq in Hticks. auto.
Qed.

Lemma extension_mm_never_null_witness :
  In {| device_id := 42; observed_at := 50;
        extension_mm := Some (numeric_div (-40) 20.0) |}
     (v_platform_extension_mm swing_db)
  /\ extension_mm {| device_id := 42; observed_at := 50;
                     extension_mm := Some (numeric_div (-40) 20.0) |} <> None.
Proof.
  assert (Hin : In {| device_id := 42; observed_at := 50;
                      extension_mm := Some (numeric_div (-40) 20.0) |}
                   (v_platform_extension_mm swing_db))
    by (cbn; do 4 right; left; reflexivity).
  split; [exact Hin |].
  exact (proj1 (extension_mm_never_null swing_db _ Hin)).
Defined.

(** ** Sorting and grouping *)

Section OrderBy.

Context {A : Type} (leb : A -> A -> bool).
Hypothesis leb_total : forall x y, leb x y = true \/ leb y x = true.
Hypothesis leb_trans :
  forall x y z, leb x y = true -> leb y z = true -> leb x z = true.

Lemma insert_sorted_perm (x : A) (l : list A) :
  Permutation (insert_sorted leb x l) (x :: l).
Proof.
  induction l as [| y l IH]; cbn; [reflexivity |].
  destruct (leb x y); [reflexivity |].
  rewrite IH. apply perm_swap.
Qed.

Lemma order_by_perm (l : list A) : Permutation (order_by leb l) l.
Proof.
  induction l as [| x l IH]; cbn; [reflexivity |].
  rewrite insert_sorted_perm. now constructor.
Qed.

Lemma order_by_In (l : list A) (x : A) : In x (order_by leb l) <-> In x l.
Proof.
  split; apply Permutation_in;
    [apply order_by_perm | symmetry; apply order_by_perm].
Qed.

Lemma insert_sorted_sorted (x : A) (l : list A) :
  StronglySorted (fun a b => leb a b = true) l ->
  StronglySorted (fun a b => leb a b = true) (insert_sorted leb x l).
Proof.
  induction 1 as [| y l Hl IH Hy]; cbn.
  - repeat constructor.
  - destruct (leb x y) eqn:Hxy.
    + constructor; [now constructor |].
      constructor; [assumption |].
      eapply Forall_impl; [| exact Hy]. cbn. eauto.
    + constructor; [assumption |].
      eapply Permutation_Forall; [symmetry; apply insert_sorted_perm |].
      constructor; [| assumption].
      destruct (leb_total x y); congruence.
Qed.

Lemma order_by_sorted (l : list A) :
  StronglySorted (fun a b => leb a b = true) (order_by leb l).
Proof.
  induction l as [| x l IH]; cbn; [constructor |].
  now apply insert_sorted_sorted.
Qed.

End OrderBy.

Lemma strongly_sorted_nth {A} (R : A -> A -> Prop) (l : list A) :
  StronglySorted R l ->
  forall i j a b,
    (i < j)%nat -> nth_error l i = Some a -> nth_error l j = Some b -> R a b.
Proof.
  induction 1 as [| x l Hl IH Hx]; intros i j a b Hij Hi Hj.
  - destruct i; discriminate.
  - destruct j as [| j]; [lia |]. cbn in Hj.
    destruct i as [| i]; cbn in Hi.
    + injection Hi as ->. rewrite Forall_forall in Hx.
      apply Hx. eapply nth_error_In; eauto.
    + apply (IH i j); auto. lia.
Qed.

Lemma readings_ordered (db : database) (d : Z) :
  Permutation (readings db d)
              (filter (fun r => device_id r =? d) (v_platform_extension_mm db))
  /\ ordered_by_observed_at (readings db d).
Proof.
  unfold readings, partition_by_device. split.
  - apply order_by_perm.
  - unfold ordered_by_observed_at. intros i j a b Hij Hi Hj.
    apply Z.leb_le.
    refine (strongly_sorted_nth _ _ (order_by_sorted _ _ _ _) i j a b Hij Hi Hj).
    + intros x y. rewrite !Z.leb_le. lia.
    + intros x y z. rewrite !Z.leb_le. lia.
Qed.

Lemma readings_In (db : database) (d : Z) (r : extension_row) :
  In r (readings db d) <->
  In r (v_platform_extension_mm db) /\ device_id r = d.
Proof.
  unfold readings, partition_by_device.
  rewrite order_by_In, filter_In, Z.eqb_eq. reflexivity.
Qed.

(** Grouping rows that were produced key by key: the group of [d] is what
    was produced for [d]. *)
Lemma filter_other_key {A} (key : A -> Z) (k d : Z) (l : list A) :
  k <> d -> (forall x, In x l -> key x = k) ->
  filter (fun x => key x =? d) l = [].
Proof.
  intros Hne. induction l as [| x l IH]; cbn; intro Hl; [reflexivity |].
  assert (Hx : key x = k) by (apply Hl; now left).
  destruct (Z.eqb_spec (key x) d); [congruence |].
  apply IH. intros. apply Hl. now right.
Qed.

Lemma filter_flat_map_key {A} (key : A -> Z) (f : Z -> list A) (keys : list Z)
    (d : Z) :
  NoDup keys ->
  (forall k x, In x (f k) -> key x = k) ->
  (In d keys -> filter (fun x => key x =? d) (flat_map f keys) = f d)
  /\ (~ In d keys -> filter (fun x => key x =? d) (flat_map f keys) = []).
Proof.
  intros Hnd Hkey. induction keys as [| k keys IH]; cbn.
  - split; [contradiction | reflexivity].
  - inversion Hnd as [| ? ? Hnotin Hnd']; subst.
    destruct (IH Hnd') as [IHin IHout].
    rewrite filter_app. split.
    + intros [-> | Hin].
      * rewrite (IHout Hnotin), app_nil_r. apply forallb_filter_id.
        apply forallb_forall. intros x Hx. apply Z.eqb_eq. eauto.
      * rewrite (IHin Hin).
        rewrite (filter_other_key key k d); [reflexivity | | apply Hkey].
        intros ->. contradiction.
    + intro Hout.
      rewrite IHout by tauto.
      rewrite (filter_other_key key k d); [reflexivity | | apply Hkey].
      intros ->. tauto.
Qed.

(** ** The window function [LAG] and the two counting metrics *)

Lemma lag_fst {A B} (e : A -> option B) (prev : option B) (l : list A) :
  map fst (lag e prev l) = l.
Proof.
  revert prev. induction l as [| x l IH]; intro prev; cbn; [reflexivity |].
  now rewrite IH.
Qed.

Lemma is_extension_lt (p c : Q) : is_extension p c = true <-> (p < c)%Q.
Proof.
  unfold is_extension. destruct (Qlt_le_dec p c) as [H | H]; split; auto.
  - discriminate.
  - intro Hlt. exfalso. exact (Qlt_not_le _ _ Hlt H).
Qed.

Lemma is_retraction_lt (p c : Q) : is_retraction p c = true <-> (c < p)%Q.
Proof. apply is_extension_lt. Qed.

Lemma Qltb_is_extension (p c : Q) : Qltb p c = is_extension p c.
Proof.
  apply eq_true_iff_eq. now rewrite Qltb_lt, is_extension_lt.
Qed.

(** A sum of per-row flags along a lagged partition counts the consecutive
    pairs the flag selects. *)
Lemma lag_sum {R} (mk : extension_row * option Q -> R) (flag : R -> Z)
    (p : Q -> Q -> bool) :
  (forall r c prev, extension_mm r = Some c ->
     flag (mk (r, prev)) = match prev with
                           | Some pv => if p pv c then 1 else 0
                           | None => 0
                           end) ->
  forall rows prev,
    Forall (fun r => exists q, extension_mm r = Some q) rows ->
    fold_right Z.add 0 (map flag (map mk (lag extension_mm prev rows)))
    = count_pairs p (option_list prev ++ non_null (map extension_mm rows)).
Proof.
  intros Hflag rows. induction rows as [| r rows IH]; intros prev Hnn.
  - destruct prev; reflexivity.
  - inversion Hnn as [| ? ? [c Hc] Hnn']; subst.
    cbn [lag map fold_right]. rewrite (Hflag r c prev Hc), (IH _ Hnn').
    cbn [map non_null flat_map]. rewrite Hc. cbn [option_list app].
    fold (non_null (map extension_mm rows)).
    destruct prev as [pv |]; cbn [option_list app count_pairs]; lia.
Qed.

Lemma extension_flag_spec (r : extension_row) (c : Q) (prev : option Q) :
  extension_mm r = Some c ->
  extension_flag {| s_device_id := device_id r; s_observed_at := observed_at r;
                    s_extension_mm := extension_mm r; prev_mm := prev |}
  = match prev with
    | Some pv => if is_extension pv c then 1 else 0
    | None => 0
    end.
Proof.
  intro Hc. unfold extension_flag. cbn. rewrite Hc.
  destruct prev as [pv |]; cbn; [| reflexivity].
  rewrite Qltb_is_extension. now destruct (is_extension pv c).
Qed.

Lemma retraction_flag_spec (r : extension_row) (c : Q) (prev : option Q) :
  extension_mm r = Some c ->
  retraction_flag {| s_device_id := device_id r; s_observed_at := observed_at r;
                     s_extension_mm := extension_mm r; prev_mm := prev |}
  = match prev with
    | Some pv => if is_retraction pv c then 1 else 0
    | None => 0
    end.
Proof.
  intro Hc. unfold retraction_flag, sql_lt. cbn. rewrite Hc.
  destruct prev as [pv |]; cbn; [| reflexivity].
  rewrite Qltb_is_extension. unfold is_retraction, is_extension.
  now destruct (Qlt_le_dec c pv).
Qed.

Lemma readings_not_null (db : database) (d : Z) :
  Forall (fun r => exists q, extension_mm r = Some q) (readings db d).
Proof.
  apply Forall_forall. intros r Hr. apply readings_In in Hr.
  apply (extension_mm_not_null db). tauto.
Qed.

Lemma series_of_partition_device (rows : list extension_row) :
  map s_device_id (series_of_partition rows) = map device_id rows.
Proof.
  unfold series_of_partition. rewrite map_map. cbn.
  rewrite <- (map_map fst device_id), lag_fst. reflexivity.
Qed.

Lemma readings_nonempty (db : database) (d : Z) :
  In d (map device_id (v_platform_extension_mm db)) -> readings db d <> [].
Proof.
  intros Hd Hnil. apply in_map_iff in Hd. destruct Hd as (r & Hr & Hin).
  assert (H : In r (readings db d)) by (apply readings_In; auto).
  rewrite Hnil in H. contradiction.
Qed.

Lemma series_device_ids (db : database) (d : Z) :
  In d (map s_device_id (series db)) <->
  In d (map device_id (v_platform_extension_mm db)).
Proof.
  unfold series. rewrite in_map_iff. split.
  - intros (s & Hs & Hin). apply in_flat_map in Hin.
    destruct Hin as (k & Hk & Hin).
    apply (in_map s_device_id) in Hin.
    rewrite series_of_partition_device in Hin.
    apply in_map_iff in Hin. destruct Hin as (r & Hr & Hin).
    apply (readings_In db k) in Hin. destruct Hin as [Hin Hdev].
    apply in_map_iff. exists r. split; [congruence | assumption].
  - intro Hd. pose proof (readings_nonempty db d Hd) as Hne.
    destruct (readings db d) as [| r rows] eqn:Hrd; [contradiction |].
    assert (Hr : In r (readings db d)) by (rewrite Hrd; now left).
    apply readings_In in Hr. destruct Hr as [_ Hdev].
    exists {| s_device_id := device_id r; s_observed_at := observed_at r;
              s_extension_mm := extension_mm r; prev_mm := None |}.
    split; [exact Hdev |].
    apply in_flat_map. exists d. split.
    + unfold distinct. now apply nodup_In.
    + fold (readings db d). rewrite Hrd. now left.
Qed.

Lemma series_group (db : database) (d : Z) :
  In d (map device_id (v_platform_extension_mm db)) ->
  filter (fun r => s_device_id r =? d) (series db)
  = series_of_partition (readings db d).
Proof.
  intro Hd. unfold series.
  refine (proj1 (filter_flat_map_key s_device_id
                   (fun k => series_of_partition
                               (partition_by_device k (v_platform_extension_mm db)))
                   _ d _ _) _).
  - apply NoDup_nodup.
  - intros k s Hs. apply (in_map s_device_id) in Hs.
    rewrite series_of_partition_device in Hs.
    apply in_map_iff in Hs. destruct Hs as (r & Hr & Hin).
    apply (readings_In db k) in Hin. destruct Hin. congruence.
  - unfold distinct. now apply nodup_In.
Qed.

Lemma sql_sum_nonempty (l : list Z) :
  l <> [] -> sql_sum l = Some (fold_right Z.add 0 l).
Proof. destruct l; [contradiction | reflexivity]. Qed.

Lemma count_pairs_total (vs : list Q) :
  count_pairs is_extension vs + count_pairs is_retraction vs
  + count_pairs is_tie vs
  = Z.max 0 (Z.of_nat (List.length vs) - 1).
Proof.
  induction vs as [| p [| c vs] IH]; [reflexivity | reflexivity |].
  cbn [count_pairs]. cbn [count_pairs] in IH.
  change (List.length (p :: c :: vs)) with (S (List.length (c :: vs))).
  rewrite Nat2Z.inj_succ.
  assert (Hone : (if is_extension p c then 1 else 0)
                 + (if is_retraction p c then 1 else 0)
                 + (if is_tie p c then 1 else 0) = 1).
  { unfold is_tie. destruct (Q_dec p c) as [[Hlt | Hgt] | Heq].
    - apply is_extension_lt in Hlt as He. rewrite He.
      destruct (is_retraction p c) eqn:Hr.
      + apply is_retraction_lt in Hr. exfalso.
        exact (Qlt_irrefl _ (Qlt_trans _ _ _ Hlt Hr)).
      + destruct (Qeq_bool p c) eqn:Ht; [| reflexivity].
        apply Qeq_bool_iff in Ht. rewrite Ht in Hlt.
        exfalso. exact (Qlt_irrefl _ Hlt).
    - apply is_retraction_lt in Hgt as Hr. rewrite Hr.
      destruct (is_extension p c) eqn:He.
      + apply is_extension_lt in He. exfalso.
        exact (Qlt_irrefl _ (Qlt_trans _ _ _ Hgt He)).
      + destruct (Qeq_bool p c) eqn:Ht; [| reflexivity].
        apply Qeq_bool_iff in Ht. rewrite Ht in Hgt.
        exfalso. exact (Qlt_irrefl _ Hgt).
    - destruct (is_extension p c) eqn:He.
      { apply is_extension_lt in He. rewrite Heq in He.
        exfalso. exact (Qlt_irrefl _ He). }
      destruct (is_retraction p c) eqn:Hr.
      { apply is_retraction_lt in Hr. rewrite Heq in Hr.
        exfalso. exact (Qlt_irrefl _ Hr). }
      apply Qeq_bool_iff in Heq. now rewrite Heq. }
  cbn [List.length] in *. lia.
Qed.

(** C5. Extension-versus-retraction metric: the view has one row for each
    device that has unified readings; with the device's readings ordered by
    [observed_at], its [extensions] is the number of consecutive pairs whose
    current value strictly exceeds the one immediately before it, and its
    [retractions] the number of pairs where it is strictly less.  A pair of
    equal values is in neither count, and a first reading is in no pair. *)
Theorem extension_vs_retraction_counts (db : database) :
  (forall d,
      Permutation (readings db d)
                  (filter (fun r => device_id r =? d) (v_platform_extension_mm db))
      /\ ordered_by_observed_at (readings db d))
  /\ NoDup (map evr_device_id (metric_extension_vs_retraction db))
  /\ (forall d, In d (map evr_device_id (metric_extension_vs_retraction db))
                <-> In d (map device_id (v_platform_extension_mm db)))
  /\ (forall row, In row (metric_extension_vs_retraction db) ->
        extensions row
        = Some (count_pairs is_extension (reading_values db (evr_device_id row)))
        /\ retractions row
           = Some (count_pairs is_retraction
                               (reading_values db (evr_device_id row))))
  /\ (forall previous current : Q,
        (is_extension previous current = true <-> (previous < current)%Q)
        /\ (is_retraction previous current = true <-> (current < previous)%Q)
        /\ ((previous == current)%Q ->
            is_extension previous current = false
            /\ is_retraction previous current = false))
  /\ (forall v : Q, count_pairs is_extension [v] = 0
                    /\ count_pairs is_retraction [v] = 0).
Proof.
  assert (Hids : map evr_device_id (metric_extension_vs_retraction db)
                 = distinct (map s_device_id (series db))).
  { unfold metric_extension_vs_retraction. rewrite map_map. cbn.
    apply map_id. }
  split; [| split; [| split; [| split; [| split]]]].
  - apply readings_ordered.
  - rewrite Hids. apply NoDup_nodup.
  - intro d. rewrite Hids. unfold distinct. rewrite nodup_In.
    apply series_device_ids.
  - intros row Hrow. unfold metric_extension_vs_retraction in Hrow.
    apply in_map_iff in Hrow. destruct Hrow as (d & <- & Hd). cbn.
    unfold distinct in Hd. apply nodup_In in Hd.
    apply series_device_ids in Hd.
    rewrite (series_group db d Hd).
    pose proof (readings_nonempty db d Hd) as Hne.
    unfold series_of_partition, reading_values.
    rewrite !sql_sum_nonempty.
    + rewrite (lag_sum _ extension_flag is_extension
                 (fun r c prev => extension_flag_spec (fst (r, prev)) c prev)
                 (readings db d) None (readings_not_null db d)).
      rewrite (lag_sum _ retraction_flag is_retraction
                 (fun r c prev => retraction_flag_spec (fst (r, prev)) c prev)
                 (readings db d) None (readings_not_null db d)).
      split; reflexivity.
    + intro Hnil. apply Hne. apply map_eq_nil in Hnil.
      apply map_eq_nil in Hnil.
      rewrite <- (lag_fst extension_mm None (readings db d)), Hnil.
      reflexivity.
    + intro Hnil. apply Hne. apply map_eq_nil in Hnil.
      apply map_eq_nil in Hnil.
      rewrite <- (lag_fst extension_mm None (readings db d)), Hnil.
      reflexivity.
  - intros p c. split; [apply is_extension_lt |].
    split; [apply is_retraction_lt |].
    intro Heq. split.
    + destruct (is_extension p c) eqn:He; [| reflexivity].
      apply is_extension_lt in He. rewrite Heq in He.
      exfalso. exact (Qlt_irrefl _ He).
    + destruct (is_retraction p c) eqn:Hr; [| reflexivity].
      apply is_retraction_lt in Hr. rewrite Heq in Hr.
      exfalso. exact (Qlt_irrefl _ Hr).
  - intro v. split; reflexivity.
Qed.

(** ** The side-switch query *)

Lemma classify_spec (e : Q) :
  (classify e = Left <-> (e < 0)%Q)
  /\ (classify e = Right <-> (0 < e)%Q)
  /\ (classify e = Center <-> (e == 0)%Q).
Proof.
  unfold classify.
  destruct (Qlt_le_dec e 0) as [Hneg | Hnn].
  - repeat split; intro H; try discriminate; auto.
    + exfalso. exact (Qlt_irrefl _ (Qlt_trans _ _ _ Hneg H)).
    + rewrite H in Hneg. exfalso. exact (Qlt_irrefl _ Hneg).
  - destruct (Qlt_le_dec 0 e) as [Hpos | Hnp].
    + repeat split; intro H; try discriminate; auto.
      * exfalso. exact (Qlt_not_le _ _ H Hnn).
      * rewrite H in Hpos. exfalso. exact (Qlt_irrefl _ Hpos).
    + repeat split; intro H; try discriminate; auto.
      * exfalso. exact (Qlt_not_le _ _ H Hnn).
      * exfalso. exact (Qlt_not_le _ _ H Hnp).
      * now apply Qle_antisym.
Qed.

Lemma side_case_classify (c : Q) :
  side_case (Some c) = side_label (classify c).
Proof.
  unfold side_case, sql_lt, sql_gt, holds.
  rewrite !Qltb_is_extension. unfold is_extension, classify.
  destruct (Qlt_le_dec 0 c) as [Hpos | Hnp];
    destruct (Qlt_le_dec c 0) as [Hneg | Hnn]; try reflexivity.
  exfalso. exact (Qlt_irrefl _ (Qlt_trans _ _ _ Hpos Hneg)).
Qed.

Lemma filter_filter {A} (f g : A -> bool) (l : list A) :
  filter f (filter g l) = filter (fun x => g x && f x) l.
Proof.
  induction l as [| x l IH]; cbn; [reflexivity |].
  destruct (g x); cbn; [destruct (f x) |]; now rewrite IH.
Qed.

(** Counting selected rows along a lagged partition counts the consecutive
    pairs the selection describes. *)
Lemma lag_count (sel : side_series_row -> bool) (p : Q -> Q -> bool) :
  (forall r c prev, extension_mm r = Some c ->
     sel {| ss_device_id := device_id r; ss_observed_at := observed_at r;
            ss_extension_mm := extension_mm r;
            side := side_case (extension_mm r);
            prev_side := option_map (fun q => side_case (Some q)) prev |}
     = match prev with Some pv => p pv c | None => false end) ->
  forall rows prev,
    Forall (fun r => exists q, extension_mm r = Some q) rows ->
    Z.of_nat
      (List.length
         (filter sel
            (map (fun rp : extension_row * option string =>
                    {| ss_device_id := device_id (fst rp);
                       ss_observed_at := observed_at (fst rp);
                       ss_extension_mm := extension_mm (fst rp);
                       side := side_case (extension_mm (fst rp));
                       prev_side := snd rp |})
                 (lag (fun r => Some (side_case (extension_mm r)))
                      (option_map (fun q => side_case (Some q)) prev) rows))))
    = count_pairs p (option_list prev ++ non_null (map extension_mm rows)).
Proof.
  intros Hsel rows. induction rows as [| r rows IH]; intros prev Hnn.
  - destruct prev; reflexivity.
  - inversion Hnn as [| ? ? [c Hc] Hnn']; subst.
    destruct r as [dv tm e]. cbn in Hc. subst e.
    pose proof (Hsel {| device_id := dv; observed_at := tm;
                        extension_mm := Some c |} c prev eq_refl) as Hr.
    pose proof (IH (Some c) Hnn') as IH'.
    cbn [option_map device_id observed_at extension_mm] in Hr, IH'.
    cbn [lag map filter fst snd device_id observed_at extension_mm
         non_null flat_map app].
    fold (non_null (map extension_mm rows)).
    rewrite Hr.
    destruct prev as [pv |]; cbn [option_list app count_pairs] in *.
    + destruct (p pv c); cbn [List.length];
        rewrite ?Nat2Z.inj_succ, IH'; lia.
    + rewrite IH'. reflexivity.
Qed.

Lemma kept_is_off_center (r : extension_row) (c : Q) (prev : option Q) :
  extension_mm r = Some c ->
  side_kept {| ss_device_id := device_id r; ss_observed_at := observed_at r;
               ss_extension_mm := extension_mm r;
               side := side_case (extension_mm r);
               prev_side := option_map (fun q => side_case (Some q)) prev |}
  = match prev with Some pv => is_off_center pv c | None => false end.
Proof.
  intro Hc. unfold side_kept. cbn. rewrite Hc, side_case_classify.
  destruct prev as [pv |]; cbn; [| reflexivity].
  unfold is_off_center. now destruct (classify c).
Qed.

Lemma kept_left_to_right (r : extension_row) (c : Q) (prev : option Q) :
  extension_mm r = Some c ->
  (fun s => side_kept s
            && holds (sql_and (sql_text_eq (prev_side s) "left")
                              (sql_text_eq (Some (side s)) "right")))
    {| ss_device_id := device_id r; ss_observed_at := observed_at r;
       ss_extension_mm := extension_mm r;
       side := side_case (extension_mm r);
       prev_side := option_map (fun q => side_case (Some q)) prev |}
  = match prev with Some pv => is_left_to_right pv c | None => false end.
Proof.
  intro Hc. unfold side_kept. cbn. rewrite Hc, side_case_classify.
  destruct prev as [pv |]; cbn; [| reflexivity].
  rewrite side_case_classify. unfold is_left_to_right.
  now destruct (classify pv), (classify c).
Qed.

Lemma kept_right_to_left (r : extension_row) (c : Q) (prev : option Q) :
  extension_mm r = Some c ->
  (fun s => side_kept s
            && holds (sql_and (sql_text_eq (prev_side s) "right")
                              (sql_text_eq (Some (side s)) "left")))
    {| ss_device_id := device_id r; ss_observed_at := observed_at r;
       ss_extension_mm := extension_mm r;
       side := side_case (extension_mm r);
       prev_side := option_map (fun q => side_case (Some q)) prev |}
  = match prev with Some pv => is_right_to_left pv c | None => false end.
Proof.
  intro Hc. unfold side_kept. cbn. rewrite Hc, side_case_classify.
  destruct prev as [pv |]; cbn; [| reflexivity].
  rewrite side_case_classify. unfold is_right_to_left.
  now destruct (classify pv), (classify c).
Qed.

Lemma side_series_of_partition_device (rows : list extension_row) :
  map ss_device_id (side_series_of_partition rows) = map device_id rows.
Proof.
  unfold side_series_of_partition. rewrite map_map. cbn.
  rewrite <- (map_map fst device_id), lag_fst. reflexivity.
Qed.

Lemma readings_empty (db : database) (d : Z) :
  ~ In d (map device_id (v_platform_extension_mm db)) -> readings db d = [].
Proof.
  intro Hd. destruct (readings db d) as [| r rows] eqn:Hrd; [reflexivity |].
  assert (Hr : In r (readings db d)) by (rewrite Hrd; now left).
  apply readings_In in Hr. destruct Hr as [Hin <-].
  exfalso. apply Hd. now apply in_map.
Qed.

Lemma side_series_group (db : database) (d : Z) :
  filter (fun r => ss_device_id r =? d) (side_series db)
  = side_series_of_partition (readings db d).
Proof.
  unfold side_series.
  destruct (filter_flat_map_key ss_device_id
              (fun k => side_series_of_partition
                          (partition_by_device k (v_platform_extension_mm db)))
              (distinct (map device_id (v_platform_extension_mm db))) d)
    as [Hin Hout].
  - apply NoDup_nodup.
  - intros k s Hs. apply (in_map ss_device_id) in Hs.
    rewrite side_series_of_partition_device in Hs.
    apply in_map_iff in Hs. destruct Hs as (r & Hr & Hi).
    apply (readings_In db k) in Hi. destruct Hi. congruence.
  - destruct (in_dec Z.eq_dec d (map device_id (v_platform_extension_mm db)))
      as [Hd | Hd].
    + apply Hin. unfold distinct. now apply nodup_In.
    + rewrite Hout, (readings_empty db d Hd); [reflexivity |].
      unfold distinct. now rewrite nodup_In.
Qed.

(** The rows the outer [WHERE] keeps for one device. *)
Lemma side_kept_group (db : database) (d : Z) :
  filter (fun r => ss_device_id r =? d) (filter side_kept (side_series db))
  = filter side_kept (side_series_of_partition (readings db d)).
Proof.
  rewrite filter_filter, <- side_series_group, filter_filter.
  apply filter_ext. intro r. apply andb_comm.
Qed.

Lemma count_pairs_nonneg {A} (p : A -> A -> bool) (l : list A) :
  0 <= count_pairs p l.
Proof.
  induction l as [| x [| y l] IH]; cbn [count_pairs]; try lia.
  cbn [count_pairs] in IH. destruct (p x y); lia.
Qed.

Lemma count_pairs_le {A} (p q : A -> A -> bool) (l : list A) :
  (forall x y, p x y = true -> q x y = true) ->
  count_pairs p l <= count_pairs q l.
Proof.
  intro Hpq. induction l as [| x [| y l] IH]; cbn [count_pairs]; try lia.
  cbn [count_pairs] in IH.
  destruct (p x y) eqn:Hp; [rewrite (Hpq _ _ Hp); lia |].
  destruct (q x y); lia.
Qed.

Lemma in_map_filter_key {A} (key : A -> Z) (d : Z) (l : list A) :
  In d (map key l)
  <-> (0 < Z.of_nat (List.length (filter (fun x => key x =? d) l))).
Proof.
  induction l as [| x l IH]; cbn; [lia |].
  destruct (Z.eqb_spec (key x) d) as [Heq | Hne]; cbn [List.length].
  - split; [lia | auto].
  - rewrite <- IH. tauto.
Qed.

Lemma side_off_center_count (db : database) (d : Z) :
  Z.of_nat (List.length (filter side_kept
                                (side_series_of_partition (readings db d))))
  = count_pairs is_off_center (reading_values db d).
Proof.
  exact (lag_count side_kept is_off_center kept_is_off_center
                   (readings db d) None (readings_not_null db d)).
Qed.

Lemma side_switches_devices (db : database) (d : Z) :
  In d (map sw_device_id (side_switches db))
  <-> 0 < count_pairs is_off_center (reading_values db d).
Proof.
  unfold side_switches. rewrite map_map. cbn. rewrite map_id.
  rewrite order_by_In. unfold distinct. rewrite nodup_In.
  rewrite in_map_filter_key.
  fold side_kept. rewrite side_kept_group, side_off_center_count.
  reflexivity.
Qed.

(** C6. Side-switch counts: with each unified reading classified left
    (negative), right (positive) or center (zero), a device's
    [left_to_right] is the number of readings classified right whose
    immediately preceding reading is classified left, and [right_to_left]
    the number classified left whose predecessor is right; a pair with a
    center reading on either side is in neither count.  A device is listed
    when one of its readings has a predecessor and is off center; for a
    device that is not listed both numbers are zero. *)
Theorem side_switch_counts (db : database) :
  NoDup (map sw_device_id (side_switches db))
  /\ (forall row, In row (side_switches db) ->
        left_to_right row
        = count_pairs is_left_to_right (reading_values db (sw_device_id row))
        /\ right_to_left row
           = count_pairs is_right_to_left
                         (reading_values db (sw_device_id row)))
  /\ (forall d, In d (map sw_device_id (side_switches db))
                <-> 0 < count_pairs is_off_center (reading_values db d))
  /\ (forall d, ~ In d (map sw_device_id (side_switches db)) ->
        count_pairs is_left_to_right (reading_values db d) = 0
        /\ count_pairs is_right_to_left (reading_values db d) = 0)
  /\ (forall e : Q,
        (classify e = Left <-> (e < 0)%Q)
        /\ (classify e = Right <-> (0 < e)%Q)
        /\ (classify e = Center <-> (e == 0)%Q))
  /\ (forall previous current : Q,
        (is_left_to_right previous current = true
         <-> classify previous = Left /\ classify current = Right)
        /\ (is_right_to_left previous current = true
            <-> classify previous = Right /\ classify current = Left)).
Proof.
  split; [| split; [| split; [| split; [| split]]]].
  - unfold side_switches. rewrite map_map. cbn. rewrite map_id.
    eapply Permutation_NoDup; [symmetry; apply order_by_perm |].
    apply NoDup_nodup.
  - intros row Hrow. unfold side_switches in Hrow.
    apply in_map_iff in Hrow. destruct Hrow as (d & <- & _). cbn.
    fold side_kept. rewrite side_kept_group.
    unfold count_filter. rewrite !filter_filter. split.
    + exact (lag_count _ is_left_to_right kept_left_to_right
                       (readings db d) None (readings_not_null db d)).
    + exact (lag_count _ is_right_to_left kept_right_to_left
                       (readings db d) None (readings_not_null db d)).
  - apply side_switches_devices.
  - intros d Hd. rewrite side_switches_devices in Hd.
    pose proof (count_pairs_nonneg is_left_to_right (reading_values db d)).
    pose proof (count_pairs_nonneg is_right_to_left (reading_values db d)).
    assert (count_pairs is_left_to_right (reading_values db d)
            <= count_pairs is_off_center (reading_values db d)).
    { apply count_pairs_le. intros x y.
      unfold is_left_to_right, is_off_center.
      destruct (classify x), (classify y); congruence. }
    assert (count_pairs is_right_to_left (reading_values db d)
            <= count_pairs is_off_center (reading_values db d)).
    { apply count_pairs_le. intros x y.
      unfold is_right_to_left, is_off_center.
      destruct (classify x), (classify y); congruence. }
    lia.
  - apply classify_spec.
  - intros x y. unfold is_left_to_right, is_right_to_left.
    destruct (classify x), (classify y); split; split;
      try intros [? ?]; intros; try split; congruence.
Qed.

(** ** The diagnostic view *)

Lemma unique_index_tail {A} (same : A -> A -> bool) (x : A) (l : list A) :
  unique_index same (x :: l) -> unique_index same l.
Proof.
  intros H i j a b Hij Hi Hj. apply (H (S i) (S j)); auto.
Qed.

(** A unique index leaves at most one row for a key. *)
Lemma unique_index_filter {A} (same : A -> A -> bool) (m : A -> bool)
    (l : list A) :
  unique_index same l ->
  (forall a b, m a = true -> m b = true -> same a b = true) ->
  (List.length (filter m l) <= 1)%nat.
Proof.
  intros Hu Hm. induction l as [| x l IH]; cbn; [lia |].
  specialize (IH (unique_index_tail same x l Hu)).
  destruct (m x) eqn:Hx; [| exact IH].
  destruct (filter m l) as [| y rest] eqn:Hf; cbn; [lia |].
  assert (Hy : In y (filter m l)) by (rewrite Hf; now left).
  apply filter_In in Hy. destruct Hy as [Hin Hmy].
  apply In_nth_error in Hin. destruct Hin as [k Hk].
  assert (Hfalse : same x y = false).
  { apply (Hu O (S k)); [lia | reflexivity | exact Hk]. }
  rewrite (Hm x y Hx Hmy) in Hfalse. discriminate.
Qed.

Lemma left_join_unique {A B} (on : A -> B -> bool) (l : list A) (r : list B) :
  (forall a, In a l -> (List.length (filter (on a) r) <= 1)%nat) ->
  left_join on l r = map (fun a => (a, hd_error (filter (on a) r))) l.
Proof.
  unfold left_join. induction l as [| a l IH]; intro H; [reflexivity |].
  match goal with
  | |- flat_map ?F (_ :: _) = map ?G _ =>
      change (F a ++ flat_map F l = G a :: map G l)
  end.
  rewrite IH by (intros; apply H; now right).
  pose proof (H a (or_introl eq_refl)) as Ha. cbv beta.
  destruct (filter (on a) r) as [| b [| b' rest]]; cbn in *;
    [reflexivity | reflexivity | lia].
Qed.

Lemma facts_of_unique (db : database) (raw : Z) :
  unique_index same_raw (processed_record db) ->
  (List.length (facts_of db raw) <= 1)%nat.
Proof.
  intro Hu. apply (unique_index_filter same_raw); [assumption |].
  intros a b Ha Hb. unfold same_raw.
  apply Z.eqb_eq in Ha, Hb. apply Z.eqb_eq. congruence.
Qed.

Lemma errors_of_unique (db : database) (raw : Z) :
  unique_index same_error_key (ingest_error db) ->
  (List.length (errors_of db raw) <= 1)%nat.
Proof.
  intro Hu. apply (unique_index_filter same_error_key); [assumption |].
  intros a b Ha Hb. unfold same_error_key.
  apply Z.eqb_eq in Ha, Hb. apply Z.eqb_eq. congruence.
Qed.

(** Under the two keys the view is one row per raw record, built from the
    fact and the error of that raw record, if any. *)
Lemma ingest_parse_rows (db : database) :
  unique_index same_raw (processed_record db) ->
  unique_index same_error_key (ingest_error db) ->
  ingest_parse db
  = map (fun rr =>
           {| ip_raw_data_id := rr_id rr;
              ip_device_id :=
                coalesce (option_map pr_device_id
                                     (hd_error (facts_of db (rr_id rr))))
                         (fun _ => cast_int (json_get_text (rr_raw_message rr)
                                                           "device_id"));
              parse_ok := match hd_error (facts_of db (rr_id rr)) with
                          | Some _ => true
                          | None => false
                          end;
              error := option_map ie_error
                                  (hd_error (errors_of db (rr_id rr))) |})
        (raw_record db).
Proof.
  intros Hpr Hie. unfold ingest_parse.
  rewrite (left_join_unique (fun rr pr => pr_raw_data_id pr =? rr_id rr))
    by (intros; apply (facts_of_unique db); assumption).
  rewrite left_join_unique
    by (intros; apply (errors_of_unique db); assumption).
  rewrite !map_map. reflexivity.
Qed.

Lemma Forall2_map_right {A B} (P : A -> B -> Prop) (f : A -> B) (l : list A) :
  (forall a, In a l -> P a (f a)) -> Forall2 P l (map f l).
Proof.
  induction l as [| a l IH]; intro H; cbn; constructor.
  - apply H. now left.
  - apply IH. intros. apply H. now right.
Qed.

Lemma hd_error_filter_some {A} (m : A -> bool) (l : list A) :
  (exists x, hd_error (filter m l) = Some x) <-> exists x, In x l /\ m x = true.
Proof.
  split.
  - intros [x Hx]. exists x. apply filter_In.
    destruct (filter m l) as [| y rest]; [discriminate |].
    injection Hx as ->. now left.
  - intros (x & Hin & Hm).
    assert (Hf : In x (filter m l)) by (apply filter_In; auto).
    destruct (filter m l) as [| y rest]; [contradiction | now exists y].
Qed.

(** C7. Diagnostic join view: under the two keys of the schema (one fact
    per raw record, one error per raw record) the view has exactly one row
    for each raw record, in the same order; in that row [parse_ok] is true
    exactly when a fact refers to the raw record, and [error] is the reason
    of the raw record's ingest error when there is one and null
    otherwise. *)
Theorem ingest_parse_one_row_per_raw (db : database) :
  unique_index same_raw (processed_record db) ->
  unique_index same_error_key (ingest_error db) ->
  Forall2
    (fun rr row =>
       ip_raw_data_id row = rr_id rr
       /\ (parse_ok row = true
           <-> exists pr, In pr (processed_record db)
                          /\ pr_raw_data_id pr = rr_id rr)
       /\ (forall ie, In ie (ingest_error db) ->
                      ie_raw_data_id ie = rr_id rr ->
                      error row = Some (ie_error ie))
       /\ ((forall ie, In ie (ingest_error db) ->
                       ie_raw_data_id ie <> rr_id rr) ->
           error row = None))
    (raw_record db) (ingest_parse db).
Proof.
  intros Hpr Hie. rewrite (ingest_parse_rows db Hpr Hie).
  apply Forall2_map_right. intros rr _. cbn.
  split; [reflexivity |]. split; [| split].
  - unfold facts_of. split.
    + intro Hok.
      destruct (hd_error _) as [pr |] eqn:Hhd; [| discriminate].
      destruct (proj1 (hd_error_filter_some _ _) (ex_intro _ pr Hhd))
        as (x & Hin & Hx).
      exists x. split; [assumption | now apply Z.eqb_eq].
    + intros (pr & Hin & Hraw).
      destruct (proj2 (hd_error_filter_some
                         (fun p => pr_raw_data_id p =? rr_id rr)
                         (processed_record db))) as [x Hx].
      * exists pr. split; [assumption | now apply Z.eqb_eq].
      * now rewrite Hx.
  - intros ie Hin Hraw.
    pose proof (errors_of_unique db (rr_id rr) Hie) as Hlen.
    assert (Hf : In ie (errors_of db (rr_id rr))).
    { apply filter_In. split; [assumption | now apply Z.eqb_eq]. }
    destruct (errors_of db (rr_id rr)) as [| x [| y rest]]; cbn in *.
    + contradiction.
    + destruct Hf as [-> | []]. reflexivity.
    + lia.
  - intro Hnone.
    destruct (errors_of db (rr_id rr)) as [| x rest] eqn:Hf; [reflexivity |].
    assert (Hx : In x (errors_of db (rr_id rr))) by (rewrite Hf; now left).
    apply filter_In in Hx. destruct Hx as [Hin Hraw].
    apply Z.eqb_eq in Hraw. exfalso. exact (Hnone x Hin Hraw).
Qed.

(** C10. The [device_id] fallback of [ingest_parse] is not total.  After
    the ingest of the example batch the second raw record is quarantined;
    its payload's [device_id] is the text [lift-7], the cast of that text to
    [int] raises, and so does every query that reads the view's
    [device_id] column. *)
Theorem ingest_parse_cast_raises :
  (exists rr,
      In rr (raw_record example_db)
      /\ rr_id rr = 2
      /\ rr_raw_message rr = quarantined_payload
      /\ facts_of example_db (rr_id rr) = []
      /\ List.length (errors_of example_db (rr_id rr)) = 1%nat
      /\ json_get_text (rr_raw_message rr) "device_id" = Some "lift-7"%string)
  /\ cast_int (Some "lift-7"%string) = Raise "22P02"
  /\ (exists row,
         In row (ingest_parse example_db)
         /\ ip_raw_data_id row = 2
         /\ parse_ok row = false
         /\ ip_device_id row = Raise "22P02")
  /\ select_ingest_parse example_db = Raise "22P02".
Proof.
  split; [| split; [| split]].
  - exists {| rr_id := 2; rr_raw_message := quarantined_payload;
              rr_arrival_time := 1704067201000000 |}.
    repeat split. right. left. reflexivity.
  - reflexivity.
  - exists {| ip_raw_data_id := 2; ip_device_id := Raise "22P02";
              parse_ok := false; error := Some "validation_error"%string |}.
    repeat split. right. left. reflexivity.
  - reflexivity.
Qed.

(** ** Reading does not write *)

Lemma view_depends_on_facts_and_types (db1 db2 : database) :
  processed_record db1 = processed_record db2 ->
  record_type db1 = record_type db2 ->
  v_platform_extension_mm db1 = v_platform_extension_mm db2.
Proof.
  intros Hpr Hrt.
  unfold v_platform_extension_mm, extension_rows_of, joined_types.
  now rewrite Hpr, Hrt.
Qed.

Lemma In_firstn {A} (n : nat) (l : list A) (x : A) :
  In x (firstn n l) -> In x l.
Proof.
  intro H. rewrite <- (firstn_skipn n l). apply in_or_app. now left.
Qed.

Lemma in_extension_facts (db : database)
    (j : processed_record_row * record_type_row) :
  In j (extension_facts db) ->
  In (fst j) (processed_record db) /\ In (snd j) (record_type db)
  /\ rt_id (snd j) = pr_type (fst j).
Proof.
  unfold extension_facts, joined_types. intro H.
  apply in_flat_map in H. destruct H as (pr & Hpr & Hj).
  apply in_map_iff in Hj. destruct Hj as (rt & <- & Hrt).
  apply filter_In in Hrt. destruct Hrt as [Hrt _].
  apply filter_In in Hrt. destruct Hrt as [Hrt Hid].
  cbn. repeat split; auto. now apply Z.eqb_eq.
Qed.

(** C8. Read-time conversion never mutates storage.  The unification view
    and the metrics and queries derived from it are functions of the
    [processed_record] and [record_type] tables alone; running any example
    query through the handler, in any state of the pool and whether the
    database can be reached or not, returns the database it was given,
    every fact row and its [value] included; and [unified_recent] reports
    the stored value next to the converted one. *)
Theorem read_time_conversion_is_pure :
  (forall db1 db2,
      processed_record db1 = processed_record db2 ->
      record_type db1 = record_type db2 ->
      v_platform_extension_mm db1 = v_platform_extension_mm db2
      /\ metric_avg_extension_mm db1 = metric_avg_extension_mm db2
      /\ metric_extension_vs_retraction db1 = metric_extension_vs_retraction db2
      /\ side_switches db1 = side_switches db2
      /\ unified_recent db1 = unified_recent db2)
  /\ (forall reachable database_url key st db,
         snd (fst (handler reachable database_url key st db)) = db
         /\ processed_record
              (snd (fst (handler reachable database_url key st db)))
            = processed_record db)
  /\ (forall db row,
         In row (unified_recent db) ->
         exists pr, In pr (processed_record db)
                    /\ ur_device_id row = pr_device_id pr
                    /\ ur_record_time row = pr_record_time pr
                    /\ source_value row = pr_value pr
                    /\ ur_extension_mm row
                       = extension_case (source_type row) (pr_value pr)).
Proof.
  split; [| split].
  - intros db1 db2 Hpr Hrt.
    pose proof (view_depends_on_facts_and_types db1 db2 Hpr Hrt) as Hv.
    unfold metric_avg_extension_mm, metric_extension_vs_retraction,
      side_switches, side_series, series, unified_recent, extension_facts,
      joined_types.
    rewrite Hv, Hpr, Hrt. repeat split; reflexivity.
  - intros reachable url key st db.
    assert (H : snd (fst (handler reachable url key st db)) = db).
    { unfold handler. destruct (QUERY_MAP key) as [q | |]; try reflexivity.
      destruct (getPool url st) as [st1 [p | e]]; [| reflexivity].
      unfold pool_query. destruct (reachable (connectionString p));
        [| reflexivity].
      destruct q; reflexivity. }
    split; [exact H | now rewrite H].
  - intros db row Hrow. unfold unified_recent in Hrow.
    apply In_firstn in Hrow. apply in_map_iff in Hrow.
    destruct Hrow as (j & <- & Hj).
    apply order_by_In in Hj. apply in_extension_facts in Hj.
    exists (fst j). cbn. intuition.
Qed.

Lemma read_time_conversion_is_pure_witness :
  v_platform_extension_mm swing_db
  = v_platform_extension_mm
      {| device := []; record_type := record_type swing_db;
         raw_record := raw_record example_db;
         ingest_error := ingest_error example_db;
         processed_record := processed_record swing_db;
         record_type_id_seq := 9; raw_record_id_seq := 9;
         processed_record_id_seq := 9 |}.
Proof.
  exact (proj1 (proj1 read_time_conversion_is_pure swing_db _ eq_refl eq_refl)).
Defined.

(** ** The write path *)
















Section WritePathProofs.

Variable validate : json -> validation.
Variable res : resolver.












End WritePathProofs.






(** An accepted start-up event leaves its raw record with neither, too:
    in Scenario B the event provisions device 42 and nothing else. *)
Lemma accepted_startup_leaves_neither :
  let db := fst (ingest_batch example_validate example_resolver
                              [(1704067200500000, scenario_B)] init_db) in
  map rr_id (raw_record db) = [1]
  /\ facts_of db 1 = [] /\ errors_of db 1 = []
  /\ device db = [ {| d_id := 42; d_name := "ABC123";
                      d_init_date := Some 1704067200000000 |} ].
Proof. repeat split; reflexivity. Qed.



(** ** Checking an index on a concrete table *)

Lemma no_collision_unique {A} (same : A -> A -> bool) (rows : list A) :
  no_collision same rows = true -> unique_index same rows.
Proof.
  induction rows as [| x rest IH]; cbn; intro H.
  - intros [| i] j a b _ Hi; discriminate.
  - apply andb_true_iff in H. destruct H as [Hx Hrest].
    rewrite forallb_forall in Hx.
    intros [| i] [| j] a b Hij Hi Hj; cbn in Hi, Hj.
    + contradiction.
    + injection Hi as <-. apply nth_error_In in Hj.
      specialize (Hx b Hj). apply andb_true_iff in Hx.
      destruct Hx as [Hx _]. now apply negb_true_iff in Hx.
    + injection Hj as <-. apply nth_error_In in Hi.
      specialize (Hx a Hi). apply andb_true_iff in Hx.
      destruct Hx as [_ Hx]. now apply negb_true_iff in Hx.
    + apply (IH Hrest i j); auto.
Defined.

Lemma extension_vs_retraction_counts_witness :
  In {| evr_device_id := 42; extensions := Some 2; retractions := Some 2 |}
     (metric_extension_vs_retraction swing_db)
  /\ Some 2 = Some (count_pairs is_extension (reading_values swing_db 42))
  /\ Some 2 = Some (count_pairs is_retraction (reading_values swing_db 42)).
Proof.
  assert (Hin : In {| evr_device_id := 42; extensions := Some 2;
                      retractions := Some 2 |}
                   (metric_extension_vs_retraction swing_db))
    by (left; reflexivity).
  split; [exact Hin |].
  exact (proj1 (proj2 (proj2 (proj2 (extension_vs_retraction_counts swing_db))))
           _ Hin).
Defined.

Lemma side_switch_counts_witness :
  In {| sw_device_id := 42; left_to_right := 2; right_to_left := 0 |}
     (side_switches swing_db)
  /\ 2 = count_pairs is_left_to_right (reading_values swing_db 42)
  /\ 0 = count_pairs is_right_to_left (reading_values swing_db 42).
Proof.
  assert (Hin : In {| sw_device_id := 42; left_to_right := 2;
                      right_to_left := 0 |} (side_switches swing_db))
    by (left; reflexivity).
  split; [exact Hin |].
  exact (proj1 (proj2 (side_switch_counts swing_db)) _ Hin).
Defined.

Lemma ingest_parse_one_row_per_raw_witness :
  no_collision same_raw (processed_record example_db) = true
  /\ no_collision same_error_key (ingest_error example_db) = true
  /\ map ip_raw_data_id (ingest_parse example_db) = [1; 2]
  /\ map parse_ok (ingest_parse example_db) = [true; false]
  /\ map error (ingest_parse example_db)
     = [None; Some "validation_error"%string]
  /\ Forall2
       (fun rr row =>
          ip_raw_data_id row = rr_id rr
          /\ (parse_ok row = true
              <-> exists pr, In pr (processed_record example_db)
                             /\ pr_raw_data_id pr = rr_id rr)
          /\ (forall ie, In ie (ingest_error example_db) ->
                         ie_raw_data_id ie = rr_id rr ->
                         error row = Some (ie_error ie))
          /\ ((forall ie, In ie (ingest_error example_db) ->
                          ie_raw_data_id ie <> rr_id rr) ->
              error row = None))
       (raw_record example_db) (ingest_parse example_db).
Proof.
  repeat (split; [reflexivity |]).
  apply (ingest_parse_one_row_per_raw example_db);
    apply no_collision_unique; reflexivity.
Defined.

(** * The rest of the read side: proofs *)

(** ** The view, fact by fact *)

Lemma map_flat_map_pair {A B C} (f : B -> C) (g : A -> list B) (l : list A) :
  map f (flat_map g l) = flat_map (fun x => map f (g x)) l.
Proof.
  induction l as [| x l IH]; cbn; [reflexivity |].
  now rewrite map_app, IH.
Qed.

Lemma view_of_facts (db : database) :
  v_platform_extension_mm db = map extension_row_of (extension_facts db).
Proof.
  unfold v_platform_extension_mm, extension_facts, extension_rows_of.
  rewrite map_flat_map_pair. apply flat_map_ext. intro pr.
  rewrite map_map. reflexivity.
Qed.

Lemma find_none_filter {A} (f : A -> bool) (l : list A) :
  find f l = None -> filter f l = [].
Proof.
  induction l as [| x l IH]; cbn; [reflexivity |].
  destruct (f x); [discriminate | exact IH].
Qed.

Lemma extension_rows_of_untyped (db : database) (pr : processed_record_row) :
  type_of db pr = None -> extension_rows_of db pr = [].
Proof.
  intro H. unfold extension_rows_of, joined_types.
  unfold type_of in H. now rewrite (find_none_filter _ _ H).
Qed.

(** X1. Under the primary key of [record_type] the view has exactly one row
    for each fact whose type is one of the two extension types, in the order
    of the facts, carrying the fact's device and time; no fact is repeated
    and none of those types is dropped. *)
Theorem view_one_row_per_extension_fact (db : database) :
  record_type_pkey db ->
  map (fun r => (device_id r, observed_at r)) (v_platform_extension_mm db)
  = map (fun pr => (pr_device_id pr, pr_record_time pr))
        (filter (is_extension_fact db) (processed_record db))
  /\ List.length (v_platform_extension_mm db)
     = List.length (filter (is_extension_fact db) (processed_record db)).
Proof.
  intro Hpk.
  assert (H : map (fun r => (device_id r, observed_at r))
                  (v_platform_extension_mm db)
              = map (fun pr => (pr_device_id pr, pr_record_time pr))
                    (filter (is_extension_fact db) (processed_record db))).
  { unfold v_platform_extension_mm.
    induction (processed_record db) as [| pr l IH]; cbn; [reflexivity |].
    rewrite map_app, IH. unfold is_extension_fact at 2.
    destruct (type_of db pr) as [rt |] eqn:Hty.
    - rewrite (extension_rows_of_typed db pr rt Hpk Hty).
      now destruct (is_extension_type (rt_name rt)).
    - now rewrite (extension_rows_of_untyped db pr Hty). }
  split; [exact H |].
  apply (f_equal (@List.length _)) in H. now rewrite !length_map in H.
Qed.

Lemma view_one_row_per_extension_fact_witness :
  record_type_pkey swing_db
  /\ List.length (v_platform_extension_mm swing_db) = 6%nat
  /\ List.length (filter (is_extension_fact swing_db)
                         (processed_record swing_db)) = 6%nat.
Proof.
  assert (Hpk : record_type_pkey swing_db).
  { unfold record_type_pkey. cbn.
    repeat constructor; cbn; intuition discriminate. }
  split; [exact Hpk |]. split; [reflexivity |].
  rewrite <- (proj2 (view_one_row_per_extension_fact swing_db Hpk)).
  reflexivity.
Defined.

(** ** Counting by group *)

Lemma filter_map_comm {A B} (f : A -> B) (p : B -> bool) (l : list A) :
  filter p (map f l) = map f (filter (fun x => p (f x)) l).
Proof.
  induction l as [| x l IH]; cbn; [reflexivity |].
  destruct (p (f x)); cbn; now rewrite IH.
Qed.

Lemma count_filter_length {A} (c : A -> bool) (l : list A) :
  count_filter (fun x => Some (c x)) l = Z.of_nat (List.length (filter c l)).
Proof.
  unfold count_filter. f_equal. f_equal. apply filter_ext.
  intro x. now destruct (c x).
Qed.

Lemma length_filter_pos {A} (c : A -> bool) (l : list A) :
  0 < Z.of_nat (List.length (filter c l)) <-> exists x, In x l /\ c x = true.
Proof.
  split.
  - intro H. destruct (filter c l) as [| x rest] eqn:Hf; [cbn in H; lia |].
    exists x. apply filter_In. rewrite Hf. now left.
  - intros (x & Hin & Hc).
    assert (Hx : In x (filter c l)) by (apply filter_In; auto).
    destruct (filter c l); [contradiction | cbn; lia].
Qed.

(** Two conditions of which every row meets exactly one split the rows. *)
Lemma length_filter_split {A} (p q : A -> bool) (l : list A) :
  (forall x, In x l -> p x = negb (q x)) ->
  (List.length (filter p l) + List.length (filter q l))%nat = List.length l.
Proof.
  induction l as [| x l IH]; cbn; intro H; [reflexivity |].
  rewrite (H x (or_introl eq_refl)).
  specialize (IH (fun y Hy => H y (or_intror Hy))).
  destruct (q x); cbn; lia.
Qed.

Section GroupCounts.

Context {A K : Type} (key : A -> K) (eqb : K -> K -> bool).
Hypothesis eqb_eq : forall a b, eqb a b = true <-> a = b.

Lemma indicator_sum (k : K) (keys : list K) :
  NoDup keys -> In k keys ->
  fold_right Z.add 0 (map (fun k' => if eqb k k' then 1 else 0) keys) = 1.
Proof.
  induction 1 as [| k' keys Hnotin Hnd IH]; cbn; [contradiction |].
  intros [-> | Hin].
  - rewrite (proj2 (eqb_eq k k) eq_refl).
    assert (Hz : fold_right Z.add 0
                   (map (fun k' => if eqb k k' then 1 else 0) keys) = 0).
    { clear IH Hnd. induction keys as [| y keys IHk]; cbn; [reflexivity |].
      destruct (eqb k y) eqn:Hky.
      - apply eqb_eq in Hky. subst y. exfalso. apply Hnotin. now left.
      - apply IHk. intro Hy. apply Hnotin. now right. }
    lia.
  - destruct (eqb k k') eqn:Hk.
    + apply eqb_eq in Hk. subst k'. contradiction.
    + now rewrite IH.
Qed.

(** The sizes of the groups add up to the number of rows. *)
Lemma group_sizes_total (keys : list K) (l : list A) :
  NoDup keys -> (forall x, In x l -> In (key x) keys) ->
  fold_right Z.add 0
    (map (fun k => Z.of_nat (List.length (filter (fun x => eqb (key x) k) l)))
         keys)
  = Z.of_nat (List.length l).
Proof.
  intros Hnd. induction l as [| x l IH]; intro Hall.
  - cbn. induction keys as [| k keys IHk]; cbn; [reflexivity |].
    inversion Hnd; subst. now rewrite IHk.
  - specialize (IH (fun y Hy => Hall y (or_intror Hy))).
    pose proof (indicator_sum (key x) keys Hnd (Hall x (or_introl eq_refl)))
      as Hone.
    assert (Hstep :
      fold_right Z.add 0
        (map (fun k => Z.of_nat (List.length
                                   (filter (fun y => eqb (key y) k) (x :: l))))
             keys)
      = fold_right Z.add 0 (map (fun k' => if eqb (key x) k' then 1 else 0) keys)
        + fold_right Z.add 0
            (map (fun k => Z.of_nat (List.length
                                       (filter (fun y => eqb (key y) k) l)))
                 keys)).
    { clear. induction keys as [| k keys IHk]; [reflexivity |].
      cbn [map fold_right]. rewrite IHk. cbn [filter].
      destruct (eqb (key x) k); cbn [List.length];
        rewrite ?Nat2Z.inj_succ; lia. }
    rewrite Hstep, Hone, IH. cbn [List.length]. lia.
Qed.

End GroupCounts.

Lemma extension_fact_names (db : database)
    (j : processed_record_row * record_type_row) :
  In j (extension_facts db) ->
  rt_name (snd j) = "platform_extension_mm"%string
  \/ rt_name (snd j) = "platform_extension_ticks"%string.
Proof.
  unfold extension_facts. intro H.
  apply in_flat_map in H. destruct H as (pr & _ & Hj).
  apply in_map_iff in Hj. destruct Hj as (rt & <- & Hrt).
  apply filter_In in Hrt. destruct Hrt as [_ Hext]. cbn.
  unfold is_extension_type in Hext. apply orb_true_iff in Hext.
  destruct Hext as [H | H]; apply String.eqb_eq in H; auto.
Qed.

(** A duplicate-free list over two values, once sorted. *)
Lemma sorted_names_of_two (a b : string) (l : list string) :
  String.leb a b = true -> a <> b ->
  NoDup l -> (forall x, In x l -> x = a \/ x = b) ->
  order_by String.leb l = [] \/ order_by String.leb l = [a]
  \/ order_by String.leb l = [b] \/ order_by String.leb l = [a; b].
Proof.
  intros Hab Hne Hnd Hin.
  assert (Hba : String.leb b a = false).
  { destruct (String.leb b a) eqn:H; [| reflexivity].
    exfalso. apply Hne. now apply String.leb_antisym. }
  destruct l as [| x [| y [| z l]]].
  - now left.
  - destruct (Hin x (or_introl eq_refl)) as [-> | ->]; cbn; auto.
  - inversion Hnd as [| ? ? Hx Hnd']; subst.
    destruct (Hin x (or_introl eq_refl)) as [-> | ->];
      destruct (Hin y (or_intror (or_introl eq_refl))) as [-> | ->];
      cbn; rewrite ?Hab, ?Hba; auto; exfalso; apply Hx; now left.
  - exfalso. inversion Hnd as [| ? ? Hx Hnd']; subst.
    inversion Hnd' as [| ? ? Hy Hnd'']; subst.
    destruct (Hin x (or_introl eq_refl)) as [-> | ->];
      destruct (Hin y (or_intror (or_introl eq_refl))) as [-> | ->];
      destruct (Hin z (or_intror (or_intror (or_introl eq_refl)))) as [-> | ->];
      cbn in Hx, Hy; tauto.
Qed.

(** X2. [counts_by_type] returns at most the two extension types, the
    millimeter type first, each with a positive count, and the counts add up
    to the number of rows of the unification view. *)
Theorem counts_by_type_total (db : database) :
  (map cbt_type (counts_by_type db) = []
   \/ map cbt_type (counts_by_type db) = ["platform_extension_mm"%string]
   \/ map cbt_type (counts_by_type db) = ["platform_extension_ticks"%string]
   \/ map cbt_type (counts_by_type db)
      = ["platform_extension_mm"; "platform_extension_ticks"]%string)
  /\ (forall r, In r (counts_by_type db) ->
        0 < cbt_rows r
        /\ cbt_rows r
           = Z.of_nat (List.length
                         (filter (fun j => (rt_name (snd j) =? cbt_type r)%string)
                                 (extension_facts db))))
  /\ fold_right Z.add 0 (map cbt_rows (counts_by_type db))
     = Z.of_nat (List.length (v_platform_extension_mm db)).
Proof.
  set (f := extension_facts db).
  set (names := nodup string_dec (map (fun j => rt_name (snd j)) f)).
  assert (Htypes : map cbt_type (counts_by_type db) = order_by String.leb names).
  { unfold counts_by_type. rewrite map_map. cbn. apply map_id. }
  assert (Hnames : forall x, In x names ->
            x = "platform_extension_mm"%string
            \/ x = "platform_extension_ticks"%string).
  { intros x Hx. unfold names in Hx. apply nodup_In in Hx.
    apply in_map_iff in Hx. destruct Hx as (j & <- & Hj).
    now apply (extension_fact_names db). }
  split; [| split].
  - rewrite Htypes.
    apply sorted_names_of_two;
      [reflexivity | discriminate | apply NoDup_nodup | exact Hnames].
  - intros r Hr. unfold counts_by_type in Hr. apply in_map_iff in Hr.
    destruct Hr as (n & <- & Hn). cbn. fold f.
    rewrite count_filter_length. split; [| reflexivity].
    apply length_filter_pos.
    apply order_by_In in Hn. unfold names in Hn. apply nodup_In in Hn.
    apply in_map_iff in Hn. destruct Hn as (j & <- & Hj).
    exists j. split; [assumption | apply String.eqb_refl].
  - unfold counts_by_type. fold f. fold names. rewrite map_map. cbn.
    rewrite view_of_facts, length_map. fold f.
    erewrite map_ext by (intro n; apply count_filter_length).
    assert (Hperm : Permutation (order_by String.leb names) names)
      by apply order_by_perm.
    apply (group_sizes_total
             (fun j : processed_record_row * record_type_row => rt_name (snd j))
             String.eqb String.eqb_eq (order_by String.leb names) f).
    + eapply Permutation_NoDup; [symmetry; exact Hperm | apply NoDup_nodup].
    + intros j Hj. apply order_by_In. unfold names. apply nodup_In.
      now apply (in_map (fun j : processed_record_row * record_type_row =>
                           rt_name (snd j))).
Qed.

Lemma counts_by_type_total_witness :
  In {| cbt_type := "platform_extension_ticks"; cbt_rows := 2 |}
     (counts_by_type swing_db)
  /\ 0 < 2
  /\ 2 = Z.of_nat (List.length
                     (filter (fun j => (rt_name (snd j)
                                        =? "platform_extension_ticks")%string)
                             (extension_facts swing_db))).
Proof.
  assert (Hin : In {| cbt_type := "platform_extension_ticks"; cbt_rows := 2 |}
                   (counts_by_type swing_db))
    by (right; left; reflexivity).
  split; [exact Hin |].
  exact (proj1 (proj2 (counts_by_type_total swing_db)) _ Hin).
Defined.

Lemma strongly_sorted_filter {A} (R : A -> A -> Prop) (p : A -> bool)
    (l : list A) :
  StronglySorted R l -> StronglySorted R (filter p l).
Proof.
  induction 1 as [| x l Hl IH Hx]; cbn; [constructor |].
  destruct (p x); [| exact IH].
  constructor; [exact IH |].
  rewrite Forall_forall in *. intros y Hy. apply filter_In in Hy.
  apply Hx. tauto.
Qed.

(** A sorted list without duplicates is strictly ascending. *)
Lemma order_by_strict (l : list Z) :
  NoDup l -> StronglySorted Z.lt (order_by Z.leb l).
Proof.
  intro Hnd.
  assert (Hs : StronglySorted (fun a b => Z.leb a b = true) (order_by Z.leb l)).
  { apply order_by_sorted.
    - intros x y. rewrite !Z.leb_le. lia.
    - intros x y z. rewrite !Z.leb_le. lia. }
  assert (Hnd' : NoDup (order_by Z.leb l)).
  { eapply Permutation_NoDup; [symmetry; apply order_by_perm | exact Hnd]. }
  induction Hs as [| x s Hs IH Hx]; [constructor |].
  inversion Hnd' as [| ? ? Hnotin Hnd'']; subst.
  constructor; [now apply IH |].
  rewrite Forall_forall in *. intros y Hy.
  specialize (Hx y Hy). apply Z.leb_le in Hx.
  assert (x <> y) by (intros ->; contradiction). lia.
Qed.

Lemma extension_facts_group_size (db : database) (d : Z) :
  List.length (filter (fun j => pr_device_id (fst j) =? d) (extension_facts db))
  = List.length (filter (fun r => device_id r =? d) (v_platform_extension_mm db)).
Proof.
  rewrite view_of_facts, filter_map_comm, length_map. reflexivity.
Qed.

(** X3. [devices_both_formats] lists a device exactly when it has a
    millimeter fact and a ticks fact; the two counts of a listed device are
    positive and add up to the number of its rows in the unification view;
    the devices come in strictly ascending order. *)
Theorem devices_both_formats_spec (db : database) :
  (forall d,
      In d (map dbf_device_id (devices_both_formats db))
      <-> (exists j, In j (extension_facts db) /\ pr_device_id (fst j) = d
                     /\ rt_name (snd j) = "platform_extension_mm"%string)
          /\ (exists j, In j (extension_facts db) /\ pr_device_id (fst j) = d
                        /\ rt_name (snd j) = "platform_extension_ticks"%string))
  /\ (forall r, In r (devices_both_formats db) ->
        0 < new_mm r /\ 0 < legacy_ticks r
        /\ new_mm r + legacy_ticks r
           = Z.of_nat (List.length
                         (filter (fun x => device_id x =? dbf_device_id r)
                                 (v_platform_extension_mm db))))
  /\ StronglySorted Z.lt (map dbf_device_id (devices_both_formats db)).
Proof.
  set (f := extension_facts db).
  set (keys := order_by Z.leb
                 (distinct (map (fun j : processed_record_row * record_type_row
                                 => pr_device_id (fst j)) f))).
  set (group := fun d : Z =>
                  filter (fun j : processed_record_row * record_type_row =>
                            pr_device_id (fst j) =? d) f).
  set (mm := fun j : processed_record_row * record_type_row =>
               (rt_name (snd j) =? "platform_extension_mm")%string).
  set (ticks := fun j : processed_record_row * record_type_row =>
                  (rt_name (snd j) =? "platform_extension_ticks")%string).
  assert (Hdef : devices_both_formats db
                 = filter (fun r => (0 <? new_mm r) && (0 <? legacy_ticks r))
                     (map (fun d =>
                             {| dbf_device_id := d;
                                new_mm := Z.of_nat (List.length (filter mm (group d)));
                                legacy_ticks :=
                                  Z.of_nat (List.length (filter ticks (group d))) |})
                          keys)).
  { unfold devices_both_formats. fold f. fold keys. f_equal.
    apply map_ext. intro d. fold (group d).
    now rewrite !count_filter_length. }
  assert (Hpos : forall (c : processed_record_row * record_type_row -> bool) d,
            0 < Z.of_nat (List.length (filter c (group d)))
            <-> exists j, In j f /\ pr_device_id (fst j) = d /\ c j = true).
  { intros c d. rewrite length_filter_pos. unfold group. split.
    - intros (j & Hj & Hc). apply filter_In in Hj. destruct Hj as [Hj Hd].
      apply Z.eqb_eq in Hd. eauto.
    - intros (j & Hj & Hd & Hc). exists j. split; [| assumption].
      apply filter_In. split; [assumption | now apply Z.eqb_eq]. }
  assert (Hids : map dbf_device_id (devices_both_formats db)
                 = filter (fun d => (0 <? Z.of_nat (List.length (filter mm (group d))))
                                    && (0 <? Z.of_nat (List.length
                                                         (filter ticks (group d)))))
                          keys).
  { rewrite Hdef, filter_map_comm, map_map. cbn. apply map_id. }
  split; [| split].
  - intro d. rewrite Hids, filter_In, andb_true_iff, !Z.ltb_lt, !Hpos.
    unfold mm, ticks. split.
    + intros (_ & (j & Hj & Hd & Hn) & (j' & Hj' & Hd' & Hn')).
      apply String.eqb_eq in Hn, Hn'. split; eauto.
    + intros ((j & Hj & Hd & Hn) & (j' & Hj' & Hd' & Hn')).
      split; [| split].
      * unfold keys. apply order_by_In. unfold distinct. apply nodup_In.
        apply in_map_iff. exists j. auto.
      * exists j. rewrite Hn. auto.
      * exists j'. rewrite Hn'. auto.
  - intros r Hr. rewrite Hdef in Hr. apply filter_In in Hr.
    destruct Hr as [Hr Hboth]. apply in_map_iff in Hr.
    destruct Hr as (d & <- & _). cbn in *.
    apply andb_true_iff in Hboth. rewrite !Z.ltb_lt in Hboth.
    split; [tauto |]. split; [tauto |].
    rewrite <- extension_facts_group_size. fold f. fold (group d).
    rewrite <- Nat2Z.inj_add. f_equal.
    apply length_filter_split. intros j Hj. unfold group in Hj.
    apply filter_In in Hj. destruct Hj as [Hj _].
    unfold mm, ticks.
    destruct (extension_fact_names db j Hj) as [-> | ->]; reflexivity.
  - rewrite Hids. apply strongly_sorted_filter. unfold keys.
    apply order_by_strict. apply NoDup_nodup.
Qed.

Lemma devices_both_formats_spec_witness :
  In {| dbf_device_id := 42; new_mm := 4; legacy_ticks := 2 |}
     (devices_both_formats swing_db)
  /\ 4 + 2 = Z.of_nat (List.length
                         (filter (fun x => device_id x =? 42)
                                 (v_platform_extension_mm swing_db))).
Proof.
  assert (Hin : In {| dbf_device_id := 42; new_mm := 4; legacy_ticks := 2 |}
                   (devices_both_formats swing_db))
    by (left; reflexivity).
  split; [exact Hin |].
  exact (proj2 (proj2 (proj1 (proj2 (devices_both_formats_spec swing_db))
                         _ Hin))).
Defined.

(** ** The most recent unified readings *)

Lemma strongly_sorted_map {A B} (R : A -> A -> Prop) (R' : B -> B -> Prop)
    (f : A -> B) (l : list A) :
  (forall a b, R a b -> R' (f a) (f b)) ->
  StronglySorted R l -> StronglySorted R' (map f l).
Proof.
  intros Hf. induction 1 as [| x l Hl IH Hx]; cbn; constructor; auto.
  rewrite Forall_forall in *. intros y Hy. apply in_map_iff in Hy.
  destruct Hy as (a & <- & Ha). auto.
Qed.

Lemma strongly_sorted_app {A} (R : A -> A -> Prop) (l1 l2 : list A) :
  StronglySorted R (l1 ++ l2) ->
  StronglySorted R l1
  /\ forall a b, In a l1 -> In b l2 -> R a b.
Proof.
  induction l1 as [| x l1 IH]; cbn; intro H.
  - split; [constructor | contradiction].
  - inversion H as [| ? ? Hs Hx]; subst.
    destruct (IH Hs) as [IH1 IH2]. rewrite Forall_forall in Hx. split.
    + constructor; [assumption |]. apply Forall_forall.
      intros y Hy. apply Hx. apply in_or_app. now left.
    + intros a b [<- | Ha] Hb; [| now apply IH2].
      apply Hx. apply in_or_app. now right.
Qed.

(** X4. [unified_recent] returns the fifty most recent rows of the
    unification view, or all of them when there are fewer: its rows are
    view rows, newest first, and every row left out is no newer than any row
    returned. *)
Theorem unified_recent_spec (db : database) :
  List.length (unified_recent db)
  = Nat.min 50 (List.length (v_platform_extension_mm db))
  /\ StronglySorted (fun a b => ur_record_time b <= ur_record_time a)
                    (unified_recent db)
  /\ (forall r, In r (unified_recent db) ->
        In {| device_id := ur_device_id r; observed_at := ur_record_time r;
              extension_mm := ur_extension_mm r |}
           (v_platform_extension_mm db))
  /\ exists rest,
       Permutation
         (map (fun r => {| device_id := ur_device_id r;
                           observed_at := ur_record_time r;
                           extension_mm := ur_extension_mm r |})
              (unified_recent db ++ rest))
         (v_platform_extension_mm db)
       /\ forall r r', In r (unified_recent db) -> In r' rest ->
                       ur_record_time r' <= ur_record_time r.
Proof.
  set (desc := fun a b : processed_record_row * record_type_row =>
                 pr_record_time (fst b) <=? pr_record_time (fst a)).
  set (mk := fun j : processed_record_row * record_type_row =>
               {| ur_device_id := pr_device_id (fst j);
                  ur_record_time := pr_record_time (fst j);
                  source_type := rt_name (snd j);
                  source_value := pr_value (fst j);
                  ur_extension_mm := extension_case (rt_name (snd j))
                                                    (pr_value (fst j)) |}).
  set (all := map mk (order_by desc (extension_facts db))).
  assert (Hdef : unified_recent db = firstn 50 all) by reflexivity.
  assert (Hsorted : StronglySorted
                      (fun a b => ur_record_time b <= ur_record_time a) all).
  { unfold all.
    apply (strongly_sorted_map (fun a b => desc a b = true)).
    - intros a b Hab. unfold desc in Hab. apply Z.leb_le in Hab. exact Hab.
    - apply order_by_sorted; unfold desc.
      + intros x y. rewrite !Z.leb_le. lia.
      + intros x y z. rewrite !Z.leb_le. lia. }
  assert (Hperm : Permutation
                    (map (fun r => {| device_id := ur_device_id r;
                                      observed_at := ur_record_time r;
                                      extension_mm := ur_extension_mm r |}) all)
                    (v_platform_extension_mm db)).
  { unfold all. rewrite map_map, view_of_facts.
    apply Permutation_map. apply order_by_perm. }
  rewrite <- (firstn_skipn 50 all) in Hsorted, Hperm.
  apply strongly_sorted_app in Hsorted. destruct Hsorted as [Hfirst Hsplit].
  rewrite Hdef. split; [| split; [| split]].
  - rewrite length_firstn. f_equal.
    apply Permutation_length in Hperm.
    rewrite length_map, length_app in Hperm.
    rewrite <- Hperm, <- length_app, firstn_skipn. reflexivity.
  - exact Hfirst.
  - intros r Hr. eapply Permutation_in; [exact Hperm |].
    apply in_map_iff. exists r. split; [reflexivity |].
    apply in_or_app. now left.
  - exists (skipn 50 all). split; [exact Hperm |].
    intros r r' Hr Hr'. now apply Hsplit.
Qed.

Lemma unified_recent_spec_witness :
  In {| ur_device_id := 42; ur_record_time := 50;
        source_type := "platform_extension_ticks"; source_value := -40;
        ur_extension_mm := Some (numeric_div (-40) 20.0) |} (unified_recent swing_db)
  /\ In {| device_id := 42; observed_at := 50;
           extension_mm := Some (numeric_div (-40) 20.0) |}
        (v_platform_extension_mm swing_db).
Proof.
  assert (Hin : In {| ur_device_id := 42; ur_record_time := 50;
                      source_type := "platform_extension_ticks";
                      source_value := -40;
                      ur_extension_mm := Some (numeric_div (-40) 20.0) |}
                   (unified_recent swing_db))
    by (right; left; reflexivity).
  split; [exact Hin |].
  exact (proj1 (proj2 (proj2 (unified_recent_spec swing_db))) _ Hin).
Defined.

(** ** Rounding and the average metric *)

Lemma pow10_pos (s : nat) : 0 < 10 ^ Z.of_nat s.
Proof. apply Z.pow_pos_nonneg; lia. Qed.

(** A successful [numeric(p,s)] cast is within half a unit of the last
    kept decimal. *)
Lemma cast_numeric_close (p s : nat) (q a : Q) :
  cast_numeric p s (Some q) = Value (Some a) ->
  (Qabs (a - q) * inject_Z (10 ^ Z.of_nat s) <= 1 # 2)%Q.
Proof.
  unfold cast_numeric.
  set (S := inject_Z (10 ^ Z.of_nat s)).
  set (n := Qfloor (Qabs q * S + (1 # 2))%Q).
  destruct (10 ^ Z.of_nat p <=? n); [discriminate |].
  intro H. injection H as <-.
  pose proof (pow10_pos s) as Hpos.
  assert (HS : (0 < S)%Q).
  { unfold S. rewrite <- (Zlt_Qlt 0). exact Hpos. }
  pose proof (Qfloor_le (Qabs q * S + (1 # 2))%Q) as Hlo.
  pose proof (Qlt_floor (Qabs q * S + (1 # 2))%Q) as Hhi.
  fold n in Hlo, Hhi. rewrite inject_Z_plus in Hhi.
  assert (Hrep : forall z : Z,
            ((z # Z.to_pos (10 ^ Z.of_nat s)) * S == inject_Z z)%Q).
  { intro z.
    assert (HSP : S = inject_Z (Z.pos (Z.to_pos (10 ^ Z.of_nat s))))
      by (unfold S; now rewrite Z2Pos.id).
    rewrite HSP. unfold Qeq, Qmult, inject_Z. cbn. lia. }
  match goal with
  | |- (Qabs ?d * S <= _)%Q =>
      assert (Heq : (Qabs d * S == Qabs (d * S))%Q)
        by (rewrite Qabs_Qmult, (Qabs_pos S); [reflexivity | lra]);
      rewrite Heq; clear Heq
  end.
  assert (Hmul : forall z : Z,
            (((z # Z.to_pos (10 ^ Z.of_nat s)) - q) * S
             == inject_Z z - q * S)%Q).
  { intro z. rewrite <- (Hrep z). ring. }
  rewrite Hmul. apply Qabs_Qle_condition.
  change (inject_Z 1) with 1%Q in Hhi.
  unfold Qltb. destruct (Qcompare q 0) eqn:Hcmp.
  - apply Qeq_alt in Hcmp.
    assert (Habs : (Qabs q == q)%Q) by (apply Qabs_pos; rewrite Hcmp; lra).
    rewrite Habs in Hlo, Hhi. clear Hmul Hrep.
    set (X := (q * S)%Q) in *. clearbody X.
    set (N := inject_Z n) in *. clearbody N. lra.
  - apply Qlt_alt in Hcmp.
    assert (Habs : (Qabs q == - q)%Q) by (apply Qabs_neg; lra).
    rewrite Habs in Hlo, Hhi. rewrite inject_Z_opp.
    assert (Hneg : (- q * S == - (q * S))%Q) by ring.
    rewrite Hneg in Hlo, Hhi. clear Hmul Hrep.
    set (X := (q * S)%Q) in *. clearbody X.
    set (N := inject_Z n) in *. clearbody N. lra.
  - apply Qgt_alt in Hcmp.
    assert (Habs : (Qabs q == q)%Q) by (apply Qabs_pos; lra).
    rewrite Habs in Hlo, Hhi. clear Hmul Hrep.
    set (X := (q * S)%Q) in *. clearbody X.
    set (N := inject_Z n) in *. clearbody N. lra.
Qed.

Lemma cast_numeric_10_3_general (x : option Q) :
  cast_numeric_10_3 x = cast_numeric 10 3 x.
Proof. destruct x; reflexivity. Qed.

Lemma cast_numeric_10_3_close (q a : Q) :
  cast_numeric_10_3 (Some q) = Value (Some a) ->
  (Qabs (a - q) <= 1 # 2000)%Q.
Proof.
  rewrite cast_numeric_10_3_general. intro H.
  apply cast_numeric_close in H.
  change (inject_Z (10 ^ Z.of_nat 3)) with 1000%Q in H.
  set (X := Qabs (a - q)) in *. clearbody X. lra.
Qed.

Lemma non_null_length (rows : list extension_row) :
  Forall (fun r => exists q, extension_mm r = Some q) rows ->
  List.length (non_null (map extension_mm rows)) = List.length rows.
Proof.
  induction 1 as [| r rows [q Hq] _ IH]; cbn; [reflexivity |].
  rewrite Hq. cbn. fold (non_null (map extension_mm rows)). now rewrite IH.
Qed.

Lemma device_values_length (db : database) (d : Z) :
  List.length (device_values db d)
  = List.length (filter (fun r => device_id r =? d) (v_platform_extension_mm db)).
Proof.
  unfold device_values. apply non_null_length.
  apply Forall_forall. intros r Hr. apply filter_In in Hr.
  apply (extension_mm_not_null db). tauto.
Qed.

Lemma device_values_nonempty (db : database) (d : Z) :
  In d (map device_id (v_platform_extension_mm db)) -> device_values db d <> [].
Proof.
  intros Hd Hnil. apply (f_equal (@List.length _)) in Hnil.
  rewrite device_values_length in Hnil.
  apply in_map_filter_key in Hd. cbn in Hnil. lia.
Qed.

(** ** Minimum, maximum and mean *)

Lemma Qltb_false (x y : Q) : Qltb x y = false <-> (y <= x)%Q.
Proof.
  split; intro H.
  - apply Qnot_lt_le. intro Hlt. apply Qltb_lt in Hlt. congruence.
  - destruct (Qltb x y) eqn:Hb; [| reflexivity].
    apply Qltb_lt in Hb. exfalso. exact (Qlt_not_le _ _ Hb H).
Qed.

Lemma fold_min_spec (rest : list Q) (x : Q) :
  let m := fold_left (fun m y => if Qltb y m then y else m) rest x in
  (m = x \/ In m rest) /\ (m <= x)%Q /\ forall y, In y rest -> (m <= y)%Q.
Proof.
  revert x. induction rest as [| y rest IH]; intro x; cbn.
  - split; [now left |]. split; [apply Qle_refl | contradiction].
  - specialize (IH (if Qltb y x then y else x)). cbv zeta in IH.
    destruct IH as (Hin & Hle & Hall).
    set (m := fold_left _ rest _) in *.
    destruct (Qltb y x) eqn:Hyx.
    + apply Qltb_lt in Hyx. repeat split.
      * destruct Hin as [-> | Hin]; auto.
      * apply Qlt_le_weak. eapply Qle_lt_trans; eauto.
      * intros z [<- | Hz]; auto.
    + apply Qltb_false in Hyx. repeat split.
      * destruct Hin as [-> | Hin]; auto.
      * exact Hle.
      * intros z [<- | Hz]; auto. eapply Qle_trans; eauto.
Qed.

Lemma fold_max_spec (rest : list Q) (x : Q) :
  let m := fold_left (fun m y => if Qltb m y then y else m) rest x in
  (m = x \/ In m rest) /\ (x <= m)%Q /\ forall y, In y rest -> (y <= m)%Q.
Proof.
  revert x. induction rest as [| y rest IH]; intro x; cbn.
  - split; [now left |]. split; [apply Qle_refl | contradiction].
  - specialize (IH (if Qltb x y then y else x)). cbv zeta in IH.
    destruct IH as (Hin & Hle & Hall).
    set (m := fold_left _ rest _) in *.
    destruct (Qltb x y) eqn:Hxy.
    + apply Qltb_lt in Hxy. repeat split.
      * destruct Hin as [-> | Hin]; auto.
      * apply Qlt_le_weak. eapply Qlt_le_trans; eauto.
      * intros z [<- | Hz]; auto.
    + apply Qltb_false in Hxy. repeat split.
      * destruct Hin as [-> | Hin]; auto.
      * exact Hle.
      * intros z [<- | Hz]; auto. eapply Qle_trans; eauto.
Qed.

Lemma sql_min_spec (l : list Q) :
  l <> [] ->
  exists m, sql_min l = Some m /\ In m l /\ forall y, In y l -> (m <= y)%Q.
Proof.
  destruct l as [| x rest]; [contradiction |]. intros _.
  destruct (fold_min_spec rest x) as (Hin & Hle & Hall).
  eexists. split; [reflexivity |]. split.
  - destruct Hin as [-> | Hin]; [now left | now right].
  - intros y [<- | Hy]; auto.
Qed.

Lemma sql_max_spec (l : list Q) :
  l <> [] ->
  exists m, sql_max l = Some m /\ In m l /\ forall y, In y l -> (y <= m)%Q.
Proof.
  destruct l as [| x rest]; [contradiction |]. intros _.
  destruct (fold_max_spec rest x) as (Hin & Hle & Hall).
  eexists. split; [reflexivity |]. split.
  - destruct Hin as [-> | Hin]; [now left | now right].
  - intros y [<- | Hy]; auto.
Qed.

Lemma sql_max_time_spec (l : list Z) :
  l <> [] ->
  exists t, sql_max_time l = Some t /\ In t l /\ forall y, In y l -> y <= t.
Proof.
  destruct l as [| x rest]; [contradiction |]. intros _. cbn.
  eexists. split; [reflexivity |].
  revert x. induction rest as [| y rest IH]; intro x; cbn.
  - split; [now left |]. intros z [<- | []]. lia.
  - destruct (IH (Z.max x y)) as [Hin Hall]. split.
    + destruct Hin as [Heq | Hin].
      * destruct (Z.max_spec x y) as [[_ Hm] | [_ Hm]];
          rewrite Hm in Heq |- *; [right; left | left]; exact Heq.
      * right. right. exact Hin.
    + intros z [<- | [<- | Hz]].
      * specialize (Hall (Z.max x y) (or_introl eq_refl)). lia.
      * specialize (Hall (Z.max x y) (or_introl eq_refl)). lia.
      * apply Hall. now right.
Qed.

(** The mean of values between two bounds is between the bounds. *)
Lemma mean_between (lo hi : Q) (l : list Q) :
  l <> [] -> (forall x, In x l -> (lo <= x <= hi)%Q) ->
  (lo <= mean l <= hi)%Q.
Proof.
  intros Hne Hall. unfold mean.
  set (n := inject_Z (Z.of_nat (List.length l))).
  assert (Hn : (0 < n)%Q).
  { unfold n. rewrite <- (Zlt_Qlt 0). destruct l; [contradiction | cbn; lia]. }
  assert (Hsum : (lo * n <= fold_right Qplus 0 l
                  /\ fold_right Qplus 0 l <= hi * n)%Q).
  { unfold n. clear Hne Hn n. induction l as [| x l IH].
    - cbn [fold_right List.length].
      change (inject_Z (Z.of_nat 0)) with 0%Q. split; lra.
    - specialize (IH (fun y Hy => Hall y (or_intror Hy))).
      destruct (Hall x (or_introl eq_refl)) as [Hlo Hhi].
      cbn [fold_right List.length]. rewrite Nat2Z.inj_succ.
      unfold Z.succ. rewrite inject_Z_plus.
      change (inject_Z 1) with 1%Q.
      set (s := fold_right Qplus 0%Q l) in *. clearbody s.
      set (k := inject_Z (Z.of_nat (List.length l))) in *. clearbody k.
      assert (E1 : (lo * (k + 1) == lo * k + lo)%Q) by ring.
      assert (E2 : (hi * (k + 1) == hi * k + hi)%Q) by ring.
      rewrite E1, E2. set (a := (lo * k)%Q) in *. set (b := (hi * k)%Q) in *.
      clearbody a b. lra. }
  split.
  - apply Qle_shift_div_l; tauto.
  - apply Qle_shift_div_r; tauto.
Qed.

(** Rounding keeps the order. *)
Lemma cast_numeric_monotone (p s : nat) (q1 q2 a1 a2 : Q) :
  (q1 <= q2)%Q ->
  cast_numeric p s (Some q1) = Value (Some a1) ->
  cast_numeric p s (Some q2) = Value (Some a2) ->
  (a1 <= a2)%Q.
Proof.
  unfold cast_numeric. intros Hle.
  set (S := inject_Z (10 ^ Z.of_nat s)).
  assert (HS : (0 <= S)%Q).
  { unfold S. rewrite <- (Zle_Qle 0). pose proof (pow10_pos s). lia. }
  assert (Hnn : forall q, 0 <= Qfloor (Qabs q * S + (1 # 2))%Q).
  { intro q. change 0 with (Qfloor 0). apply Qfloor_resp_le.
    pose proof (Qabs_nonneg q) as Hq.
    assert (H0 : (0 <= Qabs q * S)%Q) by (apply Qmult_le_0_compat; assumption).
    set (X := (Qabs q * S)%Q) in *. clearbody X. lra. }
  assert (Hmono : forall x y, (Qabs x <= Qabs y)%Q ->
            Qfloor (Qabs x * S + (1 # 2))%Q <= Qfloor (Qabs y * S + (1 # 2))%Q).
  { intros x y Hxy. apply Qfloor_resp_le.
    assert (H1 : (Qabs x * S <= Qabs y * S)%Q)
      by (apply Qmult_le_compat_r; assumption).
    set (X := (Qabs x * S)%Q) in *. set (Y := (Qabs y * S)%Q) in *.
    clearbody X Y. lra. }
  pose proof (Hnn q1) as Hn1. pose proof (Hnn q2) as Hn2.
  pose proof (Hmono q1 q2) as M12. pose proof (Hmono q2 q1) as M21.
  clear Hmono Hnn.
  set (n1 := Qfloor (Qabs q1 * S + (1 # 2))%Q) in *.
  set (n2 := Qfloor (Qabs q2 * S + (1 # 2))%Q) in *.
  clearbody n1 n2.
  destruct (10 ^ Z.of_nat p <=? n1); [discriminate |].
  destruct (10 ^ Z.of_nat p <=? n2); [discriminate |].
  intros H1 H2. injection H1 as <-. injection H2 as <-.
  unfold Qle. cbn [Qnum Qden]. apply Z.mul_le_mono_nonneg_r; [lia |].
  destruct (Qltb q1 0) eqn:Hs1; destruct (Qltb q2 0) eqn:Hs2.
  - apply Qltb_lt in Hs1, Hs2.
    assert (Habs : (Qabs q2 <= Qabs q1)%Q).
    { rewrite (Qabs_neg q1), (Qabs_neg q2) by lra. lra. }
    specialize (M21 Habs). lia.
  - lia.
  - apply Qltb_false in Hs1. apply Qltb_lt in Hs2. lra.
  - apply Qltb_false in Hs1, Hs2.
    assert (Habs : (Qabs q1 <= Qabs q2)%Q).
    { rewrite (Qabs_pos q1), (Qabs_pos q2) by assumption. exact Hle. }
    exact (M12 Habs).
Qed.

Lemma mean_times_length (l : list Q) :
  l <> [] ->
  (mean l * inject_Z (Z.of_nat (List.length l)) == fold_right Qplus 0 l)%Q.
Proof.
  intro Hne. unfold mean.
  rewrite Qmult_comm. apply Qmult_div_r.
  destruct l as [| x l]; [contradiction |].
  intro H. unfold Qeq in H. cbn in H. lia.
Qed.

(** ** The average of a group *)

Lemma is_numeric_pr_value (pr : processed_record_row) :
  is_numeric (pr_value pr).
Proof. apply is_numeric_value. Qed.

Lemma extension_case_numeric (name : string) (v q : Q) :
  is_numeric v -> extension_case name v = Some q -> is_numeric q.
Proof.
  intros Hv. unfold extension_case.
  destruct (name =? "platform_extension_mm")%string.
  - intro H. injection H as <-. exact Hv.
  - destruct (name =? "platform_extension_ticks")%string; [| discriminate].
    intro H. injection H as <-. apply is_numeric_div.
Qed.

Lemma non_null_In {A} (l : list (option A)) (a : A) :
  In a (non_null l) <-> In (Some a) l.
Proof.
  unfold non_null. rewrite in_flat_map. split.
  - intros ([b |] & Hin & Ha); [| contradiction].
    destruct Ha as [-> | []]. exact Hin.
  - intro H. exists (Some a). split; [exact H | now left].
Qed.

(** The values of the view are numerics. *)
Lemma device_values_numeric (db : database) (d : Z) :
  Forall is_numeric (device_values db d).
Proof.
  apply Forall_forall. intros q Hq. unfold device_values in Hq.
  apply non_null_In in Hq. apply in_map_iff in Hq.
  destruct Hq as (row & Hrow & Hin). apply filter_In in Hin.
  destruct Hin as [Hin _]. apply in_view in Hin.
  destruct Hin as (pr & rt & _ & _ & _ & _ & ->). cbn in Hrow.
  exact (extension_case_numeric _ _ _ (is_numeric_pr_value pr) Hrow).
Qed.

Lemma avg_scale_range (vs : list Q) : 0 <= avg_scale vs <= 1000.
Proof. apply select_div_scale_range. Qed.

(** [AVG] is the mean rounded at the scale of the division, so within half
    a unit of that scale's last decimal. *)
Lemma sql_avg_spec (l : list (option Q)) :
  non_null l <> [] -> Forall is_numeric (non_null l) ->
  exists a,
    sql_avg l = Some a
    /\ (a == numeric_round (avg_scale (non_null l)) (mean (non_null l)))%Q
    /\ (Qabs (a - mean (non_null l))
        * inject_Z (10 ^ avg_scale (non_null l)) <= 1 # 2)%Q.
Proof.
  intros Hne Hnum. unfold sql_avg.
  destruct (non_null l) as [| v vs] eqn:Hvs; [contradiction |].
  eexists. split; [reflexivity |].
  assert (Heq : (numeric_div (numeric_sum (v :: vs))
                             (inject_Z (Z.of_nat (List.length (v :: vs))))
                 == numeric_round (avg_scale (v :: vs)) (mean (v :: vs)))%Q).
  { unfold numeric_div, mean. fold (avg_scale (v :: vs)).
    apply numeric_round_comp; [apply avg_scale_range |].
    now rewrite (proj1 (numeric_sum_spec _ Hnum)). }
  split; [exact Heq |].
  rewrite Heq. apply numeric_round_close. apply avg_scale_range.
Qed.

Lemma sql_avg_null (l : list (option Q)) :
  sql_avg l = None <-> non_null l = [].
Proof.
  unfold sql_avg. destruct (non_null l); split; intro H;
    try reflexivity; discriminate.
Qed.

(** A mean below [10000^k] is rounded to at least [20 - 4 k] decimals. *)
Lemma avg_scale_magnitude (vs : list Q) (k : Z) :
  vs <> [] -> Forall is_numeric vs -> 0 <= k ->
  (Qabs (mean vs) < inject_Z (10000 ^ k))%Q ->
  Z.min 1000 (20 - 4 * k) <= avg_scale vs.
Proof.
  intros Hne Hnum Hk Hlt. unfold avg_scale.
  destruct (numeric_sum_spec vs Hnum) as (Hsum & Hsnum & _).
  set (N := Z.of_nat (List.length vs)).
  assert (HN : 1 <= N) by (unfold N; destruct vs; [contradiction | cbn; lia]).
  assert (HNq : (0 < inject_Z N)%Q) by (rewrite <- (Zlt_Qlt 0); lia).
  apply select_div_scale_ge; [lia |]. right. right.
  assert (Hq : quotient_weight (numeric_sum vs) (inject_Z N) <= k - 1).
  { apply quotient_weight_bound; try assumption.
    rewrite Hsum, <- (mean_times_length vs Hne). fold N.
    rewrite Qabs_Qmult, (Qabs_pos (inject_Z N)) by lra.
    now apply Qmult_lt_compat_r. }
  lia.
Qed.

(** When the least and the greatest value have no more than a thousand
    decimals, the rounded mean stays between them. *)
Lemma avg_between (vs : list Q) (lo hi : Q) :
  vs <> [] -> Forall is_numeric vs ->
  In lo vs -> In hi vs -> (forall x, In x vs -> (lo <= x <= hi)%Q) ->
  dscale lo <= 1000 -> dscale hi <= 1000 ->
  (lo <= numeric_round (avg_scale vs) (mean vs) <= hi)%Q.
Proof.
  intros Hne Hnum Hlo Hhi Hall Hslo Hshi.
  destruct (mean_between lo hi vs Hne Hall) as [Hm1 Hm2].
  pose proof (avg_scale_range vs) as Hr.
  assert (Hfix : forall x, In x vs -> dscale x <= 1000 ->
                           (numeric_round (avg_scale vs) x == x)%Q).
  { intros x Hx Hsx. apply numeric_round_grid; [lia |].
    apply (on_grid_le (dscale x)).
    - split; [apply dscale_nonneg | now apply avg_scale_ge].
    - apply is_numeric_on_grid. rewrite Forall_forall in Hnum. now apply Hnum. }
  split.
  - apply Qle_trans with (numeric_round (avg_scale vs) lo).
    + rewrite (Hfix lo Hlo Hslo). apply Qle_refl.
    + apply numeric_round_monotone; [lia | exact Hm1].
  - apply Qle_trans with (numeric_round (avg_scale vs) hi).
    + apply numeric_round_monotone; [lia | exact Hm2].
    + rewrite (Hfix hi Hhi Hshi). apply Qle_refl.
Qed.

(** An average that fits the cast to [numeric(p,s)] was rounded to at
    least [20 - 4 k] decimals, [10000^k] being above [10^(p-s) + 1]. *)
Lemma cast_bounds_mean (p s : nat) (k : Z) (vs : list Q) (a c : Q) :
  vs <> [] -> Forall is_numeric vs -> 0 <= k -> (s <= p)%nat ->
  10 ^ Z.of_nat (p - s) + 1 <= 10000 ^ k ->
  (Qabs (a - mean vs) * inject_Z (10 ^ avg_scale vs) <= 1 # 2)%Q ->
  cast_numeric p s (Some a) = Value (Some c) ->
  Z.min 1000 (20 - 4 * k) <= avg_scale vs.
Proof.
  intros Hne Hnum Hk Hsp Hbig Hclose Hcast.
  apply avg_scale_magnitude; try assumption.
  unfold cast_numeric in Hcast.
  set (S := inject_Z (10 ^ Z.of_nat s)) in *.
  destruct (10 ^ Z.of_nat p <=? Qfloor (Qabs a * S + (1 # 2))%Q) eqn:Hfit;
    [discriminate |].
  apply Z.leb_gt in Hfit.
  pose proof (Qlt_floor (Qabs a * S + (1 # 2))%Q) as Hfl.
  assert (Hn : (inject_Z (Qfloor (Qabs a * S + (1 # 2)) + 1)
                <= inject_Z (10 ^ Z.of_nat p))%Q)
    by (rewrite <- Zle_Qle; lia).
  assert (HaS : (Qabs a * S < inject_Z (10 ^ Z.of_nat p))%Q).
  { set (X := (Qabs a * S)%Q) in *. clearbody X.
    set (F := inject_Z (Qfloor (X + (1 # 2)) + 1)) in *. clearbody F. lra. }
  assert (Hpow : 10 ^ Z.of_nat p = 10 ^ Z.of_nat (p - s) * 10 ^ Z.of_nat s).
  { rewrite <- Z.pow_add_r by lia. f_equal. lia. }
  assert (HS : (0 < S)%Q).
  { unfold S. rewrite <- (Zlt_Qlt 0). apply pow10_pos. }
  assert (Ha : (Qabs a < inject_Z (10 ^ Z.of_nat (p - s)))%Q).
  { rewrite Hpow, inject_Z_mult in HaS. fold S in HaS.
    apply (Qmult_lt_r _ _ S HS). exact HaS. }
  assert (Hhalf : (Qabs (a - mean vs) <= 1 # 2)%Q).
  { apply (Qabs_scaled_bound _ _ 0) in Hclose.
    - change (inject_Z (10 ^ 0)) with 1%Q in Hclose.
      set (X := Qabs (a - mean vs)) in *. clearbody X. lra.
    - pose proof (avg_scale_range vs). lia. }
  assert (Htri : (Qabs (mean vs) <= Qabs a + Qabs (a - mean vs))%Q).
  { assert (E : (mean vs == a + - (a - mean vs))%Q) by ring.
    rewrite E at 1. eapply Qle_trans; [apply Qabs_triangle |].
    rewrite Qabs_opp. apply Qle_refl. }
  assert (Hk10 : (inject_Z (10 ^ Z.of_nat (p - s)) + 1 <= inject_Z (10000 ^ k))%Q).
  { change 1%Q with (inject_Z 1). rewrite <- inject_Z_plus, <- Zle_Qle.
    exact Hbig. }
  set (M := Qabs (mean vs)) in *. set (A := Qabs a) in *.
  set (D := Qabs (a - mean vs)) in *.
  set (P := inject_Z (10 ^ Z.of_nat (p - s))) in *.
  set (K := inject_Z (10000 ^ k)) in *.
  clearbody M A D P K. lra.
Qed.

Lemma metric_avg_device_ids (db : database) :
  map avg_device_id (metric_avg_extension_mm db)
  = distinct (map device_id (v_platform_extension_mm db)).
Proof.
  unfold metric_avg_extension_mm. rewrite map_map. cbn. apply map_id.
Qed.


Lemma cast_numeric_10_3_raises (A : Q) :
  cast_numeric_10_3 (Some A) = Raise "22003"
  <-> 10000000000 <= Qfloor (Qabs A * 1000 + (1 # 2))%Q.
Proof.
  unfold cast_numeric_10_3.
  destruct (Z.leb_spec 10000000000 (Qfloor (Qabs A * 1000 + (1 # 2))%Q));
    split; intro H'; try reflexivity; try assumption; try discriminate; lia.
Qed.

Lemma cast_numeric_10_3_cases (A : Q) :
  cast_numeric_10_3 (Some A) = Raise "22003"
  \/ exists a, cast_numeric_10_3 (Some A) = Value (Some a).
Proof.
  unfold cast_numeric_10_3.
  destruct (10000000000 <=? Qfloor (Qabs A * 1000 + (1 # 2))%Q); eauto.
Qed.

Lemma metric_avg_row_cases (db : database) (row : avg_extension_row) :
  In row (metric_avg_extension_mm db) ->
  device_values db (avg_device_id row) <> []
  /\ exists A,
       device_avg db (avg_device_id row) = Some A
       /\ (Qabs (A - mean (device_values db (avg_device_id row)))
           * inject_Z (10 ^ avg_scale (device_values db (avg_device_id row)))
           <= 1 # 2)%Q
       /\ avg_extension_mm row = cast_numeric_10_3 (Some A)
       /\ ((avg_extension_mm row = Raise "22003"
            /\ 10000000000 <= Qfloor (Qabs A * 1000 + (1 # 2))%Q)
           \/ (exists a,
                  avg_extension_mm row = Value (Some a)
                  /\ (Qabs (a - A) <= 1 # 2000)%Q
                  /\ (Qabs (a - mean (device_values db (avg_device_id row)))
                      <= (1 # 2000) + (1 # 2000000000000))%Q)).
Proof.
  intros Hrow. unfold metric_avg_extension_mm in Hrow.
  apply in_map_iff in Hrow. destruct Hrow as (d & <- & Hd).
  cbn [avg_device_id avg_extension_mm].
  apply nodup_In in Hd.
  pose proof (device_values_nonempty db d Hd) as Hne.
  pose proof (device_values_numeric db d) as Hnum.
  split; [exact Hne |].
  destruct (sql_avg_spec
              (map extension_mm
                   (filter (fun r => device_id r =? d)
                           (v_platform_extension_mm db))) Hne Hnum)
    as (A & HA & _ & Hclose).
  fold (device_values db d) in Hclose.
  exists A. split; [exact HA |]. split; [exact Hclose |].
  rewrite HA. split; [reflexivity |].
  destruct (cast_numeric_10_3_cases A) as [Hr | [a Ha]].
  - left. split; [exact Hr |]. now apply cast_numeric_10_3_raises.
  - right. exists a. split; [exact Ha |].
    pose proof (cast_numeric_10_3_close A a Ha) as Hcast.
    split; [exact Hcast |].
    assert (Hscale : 12 <= avg_scale (device_values db d)).
    { rewrite cast_numeric_10_3_general in Ha.
      apply (cast_bounds_mean 10 3 2 _ A a Hne Hnum); try assumption;
        [lia | lia | cbn; lia]. }
    apply (Qabs_scaled_bound _ _ 12) in Hclose;
      [| pose proof (avg_scale_range (device_values db d)); lia].
    change (inject_Z (10 ^ 12)) with 1000000000000%Q in Hclose.
    assert (Htri : (Qabs (a - mean (device_values db d))
                    <= Qabs (a - A)
                       + Qabs (A - mean (device_values db d)))%Q).
    { assert (E : (a - mean (device_values db d)
                   == (a - A) + (A - mean (device_values db d)))%Q) by ring.
      rewrite E at 1. apply Qabs_triangle. }
    set (X := Qabs (a - mean (device_values db d))) in *.
    set (Y := Qabs (a - A)) in *.
    set (Z0 := Qabs (A - mean (device_values db d))) in *.
    clearbody X Y Z0. lra.
Qed.

(** X5. [metric_avg_extension_mm] has one row for each device that has rows
    in the unification view.  The average of a row is never null: [AVG]
    rounds the mean of the device's values at the scale of its division,
    and the cast rounds that to three decimals, or raises [22003] when the
    result needs more than seven integer digits.  An average that is
    reported is within 0.0005 of [AVG] and within 0.0005 and half a
    unit of the twelfth decimal of the mean. *)
Theorem metric_avg_extension_mm_spec (db : database) :
  NoDup (map avg_device_id (metric_avg_extension_mm db))
  /\ (forall d, In d (map avg_device_id (metric_avg_extension_mm db))
                <-> In d (map device_id (v_platform_extension_mm db)))
  /\ (forall row, In row (metric_avg_extension_mm db) ->
        let vs := device_values db (avg_device_id row) in
        vs <> []
        /\ exists A,
             device_avg db (avg_device_id row) = Some A
             /\ (Qabs (A - mean vs) * inject_Z (10 ^ avg_scale vs) <= 1 # 2)%Q
             /\ avg_extension_mm row = cast_numeric_10_3 (Some A)
             /\ ((avg_extension_mm row = Raise "22003"
                  /\ 10000000000 <= Qfloor (Qabs A * 1000 + (1 # 2))%Q)
                 \/ (exists a,
                        avg_extension_mm row = Value (Some a)
                        /\ (Qabs (a - A) <= 1 # 2000)%Q
                        /\ (Qabs (a - mean vs)
                            <= (1 # 2000) + (1 # 2000000000000))%Q))).
Proof.
  split; [| split].
  - rewrite metric_avg_device_ids. apply NoDup_nodup.
  - intro d. rewrite metric_avg_device_ids. apply nodup_In.
  - intros row Hrow. cbv zeta. now apply metric_avg_row_cases.
Qed.

Lemma metric_avg_extension_mm_spec_witness :
  In {| avg_device_id := 42; avg_extension_mm := Value (Some 2.000%Q) |}
     (metric_avg_extension_mm swing_db)
  /\ device_values swing_db 42 <> [].
Proof.
  assert (Hin : In {| avg_device_id := 42;
                      avg_extension_mm := Value (Some 2.000%Q) |}
                   (metric_avg_extension_mm swing_db))
    by (left; vm_compute; reflexivity).
  split; [exact Hin |].
  exact (proj1 (proj2 (proj2 (metric_avg_extension_mm_spec swing_db)) _ Hin)).
Defined.

(** The double rounding of the average: the mean of 0.0005, 0.0005 and
    0.000499999999999999999 is below 0.0005, [AVG] rounds it to 0.0005 at
    twenty-one decimals, and the cast rounds that up to 0.001. *)
Example average_rounds_twice :
  map avg_extension_mm (metric_avg_extension_mm twice_rounded_db)
  = [Value (Some 0.001%Q)]
  /\ (mean (device_values twice_rounded_db 42) < 0.0005)%Q.
Proof. split; vm_compute; reflexivity. Qed.

(** ** The handler of the average metric *)

Lemma all_values_value {A} (l : list (sql_result A)) (r : list A) :
  all_values l = Value r <-> l = map Value r.
Proof.
  revert r. induction l as [| x l IH]; intro r; cbn.
  - split; intro H.
    + injection H as <-. reflexivity.
    + destruct r; [reflexivity | discriminate].
  - destruct x as [a | e].
    + destruct (all_values l) as [r' | e'] eqn:Hl.
      * pose proof (proj1 (IH r') eq_refl) as ->. split; intro H.
        -- injection H as <-. reflexivity.
        -- destruct r as [| b r]; [discriminate |]. cbn in H.
           injection H as -> Hr.
           assert (Heq : Value (A := list A) r' = Value r)
             by (apply IH; exact Hr).
           injection Heq as ->. reflexivity.
      * split; intro H; [discriminate |].
        destruct r as [| b r]; [discriminate |]. cbn in H.
        injection H as _ Hr. apply IH in Hr. discriminate.
    + split; intro H; [discriminate |].
      destruct r; discriminate.
Qed.

Lemma all_values_raise {A} (l : list (sql_result A)) (e : string) :
  all_values l = Raise e -> In (Raise e) l.
Proof.
  induction l as [| x l IH]; cbn; [discriminate |].
  destruct x as [a | e'].
  - destruct (all_values l) as [r | e''] eqn:Hl; [discriminate |].
    intro H. injection H as ->. right. now apply IH.
  - intro H. injection H as ->. now left.
Qed.

Lemma order_by_map_key {A} (key : A -> Z) (l : list A) :
  map key (order_by (fun a b => key a <=? key b) l)
  = order_by Z.leb (map key l).
Proof.
  unfold order_by.
  induction l as [| x l IH]; cbn [map fold_right]; [reflexivity |].
  rewrite <- IH. clear IH.
  induction (fold_right (insert_sorted (fun a b => key a <=? key b)) [] l)
    as [| y s IHs]; cbn; [reflexivity |].
  destruct (key x <=? key y); cbn; [reflexivity | now rewrite IHs].
Qed.

Lemma select_metric_avg_rows (db : database) (rows : list (Z * option Q)) :
  select_metric_avg_extension_mm db = Value rows ->
  map fst rows
  = order_by Z.leb (map avg_device_id (metric_avg_extension_mm db))
  /\ forall d a, In (d, a) rows ->
       exists row, In row (metric_avg_extension_mm db)
                   /\ avg_device_id row = d
                   /\ avg_extension_mm row = Value a.
Proof.
  unfold select_metric_avg_extension_mm. intro H.
  apply all_values_value in H.
  rewrite <- order_by_map_key.
  set (sorted := order_by (fun a b => avg_device_id a <=? avg_device_id b)
                          (metric_avg_extension_mm db)) in *.
  assert (Hin : forall row, In row sorted ->
                            In row (metric_avg_extension_mm db))
    by (intros row; apply order_by_In).
  clearbody sorted. revert rows H.
  induction sorted as [| r s IH]; intros rows H.
  - destruct rows; [| discriminate]. split; [reflexivity | contradiction].
  - destruct rows as [| [d0 a0] rows]; [discriminate |].
    cbn in H. injection H as Hr Hs.
    destruct (IH (fun row Hrow => Hin row (or_intror Hrow)) rows Hs)
      as [IH1 IH2].
    destruct (avg_extension_mm r) as [a' |] eqn:Ha; [| discriminate].
    injection Hr as <- <-. split.
    + cbn. now rewrite IH1.
    + intros d a [Heq | Hda]; [| now apply IH2].
      injection Heq as <- <-. exists r. repeat split; auto.
      apply Hin. now left.
Qed.

Lemma select_metric_avg_raises (db : database) :
  (exists e, select_metric_avg_extension_mm db = Raise e)
  <-> exists row e, In row (metric_avg_extension_mm db)
                    /\ avg_extension_mm row = Raise e.
Proof.
  split.
  - intros [e H]. unfold select_metric_avg_extension_mm in H.
    apply all_values_raise in H. apply in_map_iff in H.
    destruct H as (row & Hrow & Hin). apply order_by_In in Hin.
    exists row, e. split; [assumption |].
    destruct (avg_extension_mm row); [discriminate | congruence].
  - intros (row & e & Hin & Hraise).
    destruct (select_metric_avg_extension_mm db) as [rows | e'] eqn:Hsel;
      [| eauto].
    exfalso. unfold select_metric_avg_extension_mm in Hsel.
    apply all_values_value in Hsel.
    assert (Hrow : In (Raise (A := Z * option Q) e) (map Value rows)).
    { rewrite <- Hsel. apply in_map_iff. exists row.
      rewrite Hraise. split; [reflexivity |]. now apply order_by_In. }
    apply in_map_iff in Hrow. destruct Hrow as (x & Hx & _). discriminate.
Qed.

Lemma getPool_caches (env : option string) (st : pool_module) (p : Pool) :
  snd (getPool env st) = inl p -> _pool (fst (getPool env st)) = Some p.
Proof.
  unfold getPool. destruct (_pool st) as [p0 |] eqn:Hst; cbn.
  - intro H. injection H as <-. exact Hst.
  - destruct env as [[| c conn] |]; cbn; try discriminate.
    intro H. injection H as <-. reflexivity.
Qed.

Lemma getPool_cached (env : option string) (st : pool_module) (p : Pool) :
  _pool st = Some p -> getPool env st = (st, inl p).
Proof. intro H. unfold getPool. now rewrite H. Qed.

Lemma select_raises_on_overflow (db : database) :
  (exists e, select_metric_avg_extension_mm db = Raise e)
  <-> exists d A,
        In d (map device_id (v_platform_extension_mm db))
        /\ device_avg db d = Some A
        /\ 10000000000 <= Qfloor (Qabs A * 1000 + (1 # 2))%Q.
Proof.
  rewrite select_metric_avg_raises. split.
  - intros (row & e & Hin & Hr).
    destruct (metric_avg_row_cases db row Hin)
      as [_ (A & HA & _ & _ & [[_ Hbig] | (a & Ha & _)])];
      [| congruence].
    exists (avg_device_id row), A. split; [| split; assumption].
    apply (nodup_In Z.eq_dec).
    fold (distinct (map device_id (v_platform_extension_mm db))).
    rewrite <- metric_avg_device_ids. now apply in_map.
  - intros (d & A & Hd & HA & Hbig).
    apply (nodup_In Z.eq_dec) in Hd.
    fold (distinct (map device_id (v_platform_extension_mm db))) in Hd.
    rewrite <- metric_avg_device_ids in Hd. apply in_map_iff in Hd.
    destruct Hd as (row & <- & Hin). exists row, "22003"%string.
    split; [exact Hin |].
    destruct (metric_avg_row_cases db row Hin)
      as [_ (A' & HA' & _ & Hcast & _)].
    rewrite Hcast. assert (A' = A) by congruence. subst A'.
    now apply cast_numeric_10_3_raises.
Qed.

(** X6. The handler of [/api/metrics/avg-extension-mm] never changes the
    database, and leaves the pool module as its call of [getPool] leaves
    it.  It answers 200 only through a pool that reaches the database; its
    rows are then one per device of the unification view, in strictly
    ascending order of [device_id], each with a non-null average within
    0.0005 and half a unit of the twelfth decimal of the mean of the
    device's values; and the next request gets the same answer whatever
    [DATABASE_URL] has become, the pool being cached.  It answers 500
    exactly when [getPool] throws, or the pool does not reach the database,
    or the average of some device needs more than seven integer digits. *)
Theorem avg_extension_mm_handler_spec (reachable : string -> bool)
    (database_url : option string) (st : pool_module) (db : database) :
  snd (fst (avg_extension_mm_handler reachable database_url st db)) = db
  /\ fst (fst (avg_extension_mm_handler reachable database_url st db))
     = fst (getPool database_url st)
  /\ (forall rows,
        snd (avg_extension_mm_handler reachable database_url st db)
        = avg_status_200 rows ->
        (exists p, snd (getPool database_url st) = inl p
                   /\ reachable (connectionString p) = true)
        /\ StronglySorted Z.lt (map fst rows)
        /\ (forall d, In d (map fst rows)
                      <-> In d (map device_id (v_platform_extension_mm db)))
        /\ (forall d a, In (d, a) rows ->
              exists q, a = Some q
                        /\ (Qabs (q - mean (device_values db d))
                            <= (1 # 2000) + (1 # 2000000000000))%Q)
        /\ (forall later_url,
              snd (avg_extension_mm_handler reachable later_url
                     (fst (fst (avg_extension_mm_handler
                                  reachable database_url st db))) db)
              = avg_status_200 rows))
  /\ (snd (avg_extension_mm_handler reachable database_url st db)
      = avg_status_500
      <-> (exists e, snd (getPool database_url st) = inr e)
          \/ (exists p, snd (getPool database_url st) = inl p
                        /\ reachable (connectionString p) = false)
          \/ exists d A,
               In d (map device_id (v_platform_extension_mm db))
               /\ device_avg db d = Some A
               /\ 10000000000 <= Qfloor (Qabs A * 1000 + (1 # 2))%Q).
Proof.
  pose proof (select_raises_on_overflow db) as Hraise.
  pose proof (getPool_caches database_url st) as Hcache.
  unfold avg_extension_mm_handler.
  destruct (getPool database_url st) as [st1 [p | e]] eqn:Hget;
    cbn [fst snd] in *.
  - destruct (reachable (connectionString p)) eqn:Hreach.
    + destruct (select_metric_avg_extension_mm db) as [rows0 | e0] eqn:Hsel;
        cbn [fst snd].
      * split; [reflexivity |]. split; [reflexivity |]. split.
        -- intros rows Hrows. injection Hrows as <-.
           destruct (select_metric_avg_rows db rows0 Hsel) as [Hids Hrowsof].
           split; [eauto |]. split; [| split; [| split]].
           ++ rewrite Hids. apply order_by_strict.
              rewrite metric_avg_device_ids. apply NoDup_nodup.
           ++ intro d. rewrite Hids, order_by_In, metric_avg_device_ids.
              apply nodup_In.
           ++ intros d a Hda.
              destruct (Hrowsof d a Hda) as (row & Hin & <- & Hv).
              destruct (metric_avg_row_cases db row Hin)
                as [_ (A & _ & _ & _ & [[Hr _] | (q & Hq & _ & Hclose)])];
                [congruence |].
              exists q. split; [congruence | exact Hclose].
           ++ intro later_url.
              rewrite (getPool_cached later_url st1 p (Hcache p eq_refl)).
              cbn. rewrite ?Hreach, ?Hsel. reflexivity.
        -- split; [discriminate |].
           intros [[e He] | [(p' & Hp' & Hun) | Hd]].
           ++ discriminate.
           ++ injection Hp' as <-. congruence.
           ++ apply Hraise in Hd. destruct Hd as [e He]. discriminate.
      * split; [reflexivity |]. split; [reflexivity |].
        split; [discriminate |].
        split; [| reflexivity]. intros _. right. right.
        apply Hraise. eauto.
    + cbn [fst snd]. split; [reflexivity |]. split; [reflexivity |].
      split; [discriminate |].
      split; [| reflexivity]. intros _. right. left. eauto.
  - split; [reflexivity |]. split; [reflexivity |].
    split; [discriminate |].
    split; [| reflexivity]. intros _. left. eauto.
Qed.

Lemma avg_extension_mm_handler_spec_witness :
  snd (avg_extension_mm_handler (fun _ => true) (Some "postgres://db"%string)
                                pool_module_init swing_db)
  = avg_status_200 [(42, Some 2.000%Q)]
  /\ snd (avg_extension_mm_handler (fun _ => true) None
            (fst (fst (avg_extension_mm_handler
                         (fun _ => true) (Some "postgres://db"%string)
                         pool_module_init swing_db))) swing_db)
     = avg_status_200 [(42, Some 2.000%Q)].
Proof.
  assert (H : snd (avg_extension_mm_handler
                     (fun _ => true) (Some "postgres://db"%string)
                     pool_module_init swing_db)
              = avg_status_200 [(42, Some 2.000%Q)])
    by (vm_compute; reflexivity).
  split; [exact H |].
  exact (proj2 (proj2 (proj2 (proj2
           (proj1 (proj2 (proj2 (avg_extension_mm_handler_spec
                                   (fun _ => true)
                                   (Some "postgres://db"%string)
                                   pool_module_init swing_db))) _ H))))
           None).
Defined.


(** ** The battery and height summaries *)

Lemma in_facts_of_type (db : database) (name : string)
    (j : processed_record_row * record_type_row) :
  In j (facts_of_type db name)
  <-> In (fst j) (processed_record db) /\ In (snd j) (record_type db)
      /\ rt_id (snd j) = pr_type (fst j) /\ rt_name (snd j) = name.
Proof.
  unfold facts_of_type. rewrite in_flat_map. split.
  - intros (pr & Hpr & Hj). apply in_map_iff in Hj.
    destruct Hj as (rt & <- & Hrt). apply filter_In in Hrt.
    destruct Hrt as [Hrt Hc]. apply andb_true_iff in Hc.
    destruct Hc as [Hid Hn]. apply Z.eqb_eq in Hid. apply String.eqb_eq in Hn.
    cbn. auto.
  - intros (Hpr & Hrt & Hid & Hn). exists (fst j). split; [assumption |].
    apply in_map_iff. exists (snd j). split; [now destruct j |].
    apply filter_In. split; [assumption |].
    apply andb_true_iff. split; [now apply Z.eqb_eq | now apply String.eqb_eq].
Qed.

Lemma non_null_map_some {A B} (f : A -> B) (l : list A) :
  non_null (map (fun x => Some (f x)) l) = map f l.
Proof.
  unfold non_null. induction l as [| x l IH]; cbn; [reflexivity |].
  now rewrite IH.
Qed.

(** The group of a listed device is not empty. *)
Lemma group_nonempty {A} (key : A -> Z) (l : list A) (d : Z) :
  In d (distinct (map key l)) -> filter (fun x => key x =? d) l <> [].
Proof.
  intros Hd Hnil. apply nodup_In in Hd. apply in_map_filter_key in Hd.
  rewrite Hnil in Hd. cbn in Hd. lia.
Qed.

Lemma in_type_values (db : database) (name : string) (d : Z) (x : Q) :
  In x (type_values db name d)
  <-> exists j, In j (facts_of_type db name)
                /\ pr_device_id (fst j) = d /\ pr_value (fst j) = x.
Proof.
  unfold type_values. rewrite in_map_iff. split.
  - intros (j & Hv & Hj). apply filter_In in Hj. destruct Hj as [Hj Hd].
    apply Z.eqb_eq in Hd. eauto.
  - intros (j & Hj & Hd & Hv). exists j. split; [exact Hv |].
    apply filter_In. split; [exact Hj | now apply Z.eqb_eq].
Qed.

Lemma type_values_nonempty (db : database) (name : string) (d : Z) :
  In d (distinct (map (fun j => pr_device_id (fst j)) (facts_of_type db name)))
  -> type_values db name d <> [].
Proof.
  intros Hd H. unfold type_values in H. apply map_eq_nil in H.
  exact (group_nonempty _ _ d Hd H).
Qed.

Lemma type_values_numeric (db : database) (name : string) (d : Z) :
  Forall is_numeric (type_values db name d).
Proof.
  apply Forall_forall. intros x Hx. apply in_type_values in Hx.
  destruct Hx as (j & _ & _ & <-). apply is_numeric_pr_value.
Qed.

(** Minimum and maximum of the values of the facts of one type of a
    device, and the mean between them. *)
Lemma type_values_bounds (db : database) (name : string) (d : Z) :
  In d (distinct (map (fun j => pr_device_id (fst j)) (facts_of_type db name)))
  -> exists lo hi,
       sql_min (type_values db name d) = Some lo
       /\ sql_max (type_values db name d) = Some hi
       /\ In lo (type_values db name d) /\ In hi (type_values db name d)
       /\ (forall x, In x (type_values db name d) -> (lo <= x <= hi)%Q)
       /\ (lo <= mean (type_values db name d) <= hi)%Q.
Proof.
  intro Hd. pose proof (type_values_nonempty db name d Hd) as Hne.
  destruct (sql_min_spec _ Hne) as (lo & Hmin & Hlo_in & Hlo).
  destruct (sql_max_spec _ Hne) as (hi & Hmax & Hhi_in & Hhi).
  assert (Hall : forall x, In x (type_values db name d) -> (lo <= x <= hi)%Q)
    by (intros x Hx; split; auto).
  exists lo, hi. repeat split; auto;
    apply (mean_between lo hi _ Hne Hall).
Qed.

(** [AVG] over the values of the facts of one type of a device. *)
Lemma type_values_avg (db : database) (name : string) (d : Z) :
  In d (distinct (map (fun j => pr_device_id (fst j)) (facts_of_type db name)))
  -> sql_avg (map (fun j => Some (pr_value (fst j)))
                  (filter (fun j => pr_device_id (fst j) =? d)
                          (facts_of_type db name)))
     = Some (numeric_div (numeric_sum (type_values db name d))
                         (inject_Z (Z.of_nat
                                      (List.length (type_values db name d)))))
     /\ (numeric_div (numeric_sum (type_values db name d))
                     (inject_Z (Z.of_nat (List.length (type_values db name d))))
         == numeric_round (avg_scale (type_values db name d))
                          (mean (type_values db name d)))%Q
     /\ (Qabs (numeric_div (numeric_sum (type_values db name d))
                 (inject_Z (Z.of_nat (List.length (type_values db name d))))
               - mean (type_values db name d))
         * inject_Z (10 ^ avg_scale (type_values db name d)) <= 1 # 2)%Q.
Proof.
  intro Hd. pose proof (type_values_nonempty db name d Hd) as Hne.
  pose proof (type_values_numeric db name d) as Hnum.
  assert (Hnn : non_null (map (fun j : processed_record_row * record_type_row
                               => Some (pr_value (fst j)))
                              (filter (fun j => pr_device_id (fst j) =? d)
                                      (facts_of_type db name)))
                = type_values db name d)
    by apply non_null_map_some.
  destruct (sql_avg_spec
              (map (fun j : processed_record_row * record_type_row
                    => Some (pr_value (fst j)))
                   (filter (fun j => pr_device_id (fst j) =? d)
                           (facts_of_type db name))))
    as (a & Ha & Heq & Hclose);
    [now rewrite Hnn | now rewrite Hnn |].
  rewrite Hnn in Heq, Hclose.
  assert (Hsome : sql_avg (map (fun j : processed_record_row * record_type_row
                                => Some (pr_value (fst j)))
                               (filter (fun j => pr_device_id (fst j) =? d)
                                       (facts_of_type db name)))
                  = Some (numeric_div (numeric_sum (type_values db name d))
                            (inject_Z (Z.of_nat
                                         (List.length (type_values db name d)))))).
  { unfold sql_avg. rewrite Hnn.
    destruct (type_values db name d); [contradiction | reflexivity]. }
  rewrite Hsome in Ha. injection Ha as <-. auto.
Qed.

Lemma facts_of_type_devices (db : database) (name : string) (d : Z) :
  In d (distinct (map (fun j => pr_device_id (fst j)) (facts_of_type db name)))
  <-> exists pr rt,
        In pr (processed_record db) /\ In rt (record_type db)
        /\ rt_id rt = pr_type pr /\ rt_name rt = name /\ pr_device_id pr = d.
Proof.
  unfold distinct. rewrite nodup_In, in_map_iff. split.
  - intros ([pr rt] & Hd & Hj). apply in_facts_of_type in Hj. cbn in *.
    exists pr, rt. tauto.
  - intros (pr & rt & Hpr & Hrt & Hid & Hn & Hd). exists (pr, rt).
    split; [exact Hd |]. apply in_facts_of_type. cbn. tauto.
Qed.


(** X7. [metric_platform_height] has one row for each device that has a
    fact of type [platform_height_mm].  In that row the minimum and the
    maximum are values of such facts of the device and every such value
    lies between them; the average is [AVG] of those values, which is their
    mean rounded at the scale of the division, so within half a unit of
    that scale's last decimal of the mean, which lies between the minimum
    and the maximum.  When the minimum and the maximum have no more than a
    thousand decimals the average lies between them too.  None of the three
    is null. *)
Theorem metric_platform_height_spec (db : database) :
  NoDup (map ph_device_id (metric_platform_height db))
  /\ (forall d,
        In d (map ph_device_id (metric_platform_height db))
        <-> exists pr rt,
              In pr (processed_record db) /\ In rt (record_type db)
              /\ rt_id rt = pr_type pr
              /\ rt_name rt = "platform_height_mm"%string
              /\ pr_device_id pr = d)
  /\ (forall row, In row (metric_platform_height db) ->
        let vs := type_values db "platform_height_mm" (ph_device_id row) in
        exists lo hi avg,
          min_height_mm row = Some lo /\ max_height_mm row = Some hi
          /\ avg_height_mm row = Some avg
          /\ avg = numeric_div (numeric_sum vs)
                               (inject_Z (Z.of_nat (List.length vs)))
          /\ (avg == numeric_round (avg_scale vs) (mean vs))%Q
          /\ (Qabs (avg - mean vs) * inject_Z (10 ^ avg_scale vs) <= 1 # 2)%Q
          /\ (lo <= mean vs <= hi)%Q
          /\ (dscale lo <= 1000 -> dscale hi <= 1000 -> (lo <= avg <= hi)%Q)
          /\ (exists j, In j (facts_of_type db "platform_height_mm")
                        /\ pr_device_id (fst j) = ph_device_id row
                        /\ pr_value (fst j) = lo)
          /\ (exists j, In j (facts_of_type db "platform_height_mm")
                        /\ pr_device_id (fst j) = ph_device_id row
                        /\ pr_value (fst j) = hi)
          /\ (forall j, In j (facts_of_type db "platform_height_mm") ->
                        pr_device_id (fst j) = ph_device_id row ->
                        (lo <= pr_value (fst j) <= hi)%Q)).
Proof.
  assert (Hids : map ph_device_id (metric_platform_height db)
                 = distinct (map (fun j => pr_device_id (fst j))
                                 (facts_of_type db "platform_height_mm"))).
  { unfold metric_platform_height. rewrite map_map. cbn. apply map_id. }
  split; [| split].
  - rewrite Hids. apply NoDup_nodup.
  - intro d. rewrite Hids. apply facts_of_type_devices.
  - intros row Hrow. unfold metric_platform_height in Hrow.
    apply in_map_iff in Hrow. destruct Hrow as (d & <- & Hd).
    cbn [ph_device_id min_height_mm max_height_mm avg_height_mm].
    fold (type_values db "platform_height_mm" d).
    destruct (type_values_bounds db _ d Hd)
      as (lo & hi & Hmin & Hmax & Hlo & Hhi & Hall & Hmean).
    destruct (type_values_avg db _ d Hd) as (Havg & Heq & Hclose).
    pose proof (type_values_nonempty db _ d Hd) as Hne.
    pose proof (type_values_numeric db "platform_height_mm" d) as Hnum.
    set (vs := type_values db "platform_height_mm" d) in *.
    exists lo, hi, (numeric_div (numeric_sum vs)
                                (inject_Z (Z.of_nat (List.length vs)))).
    split; [exact Hmin |]. split; [exact Hmax |]. split; [exact Havg |].
    split; [reflexivity |]. split; [exact Heq |]. split; [exact Hclose |].
    split; [exact Hmean |].
    split.
    { intros Hslo Hshi. rewrite Heq.
      now apply (avg_between vs lo hi). }
    split; [now apply in_type_values |].
    split; [now apply in_type_values |].
    intros j Hj Hdev. apply Hall. apply in_type_values. eauto.
Qed.

Lemma metric_platform_height_spec_witness :
  In {| ph_device_id := 7; min_height_mm := Some 1100%Q;
        max_height_mm := Some 1200%Q;
        avg_height_mm := Some 1150.0000000000000000%Q |}
     (metric_platform_height sensor_db)
  /\ exists lo hi avg : Q,
       Some 1100%Q = Some lo /\ Some 1200%Q = Some hi
       /\ Some 1150.0000000000000000%Q = Some avg
       /\ (lo <= mean (type_values sensor_db "platform_height_mm" 7) <= hi)%Q.
Proof.
  assert (Hin : In {| ph_device_id := 7; min_height_mm := Some 1100%Q;
                      max_height_mm := Some 1200%Q;
                      avg_height_mm := Some 1150.0000000000000000%Q |}
                   (metric_platform_height sensor_db))
    by (left; vm_compute; reflexivity).
  split; [exact Hin |].
  destruct (proj2 (proj2 (metric_platform_height_spec sensor_db)) _ Hin)
    as (lo & hi & avg & H1 & H2 & H3 & _ & _ & _ & H4 & _).
  exists lo, hi, avg. auto.
Defined.

(** A reading of more than a thousand decimals: [AVG] rounds it at a
    thousand decimals, below the minimum. *)
Example height_average_below_minimum :
  exists lo avg,
    map min_height_mm (metric_platform_height tiny_height_db) = [Some lo]
    /\ map avg_height_mm (metric_platform_height tiny_height_db) = [Some avg]
    /\ (avg < lo)%Q.
Proof.
  eexists. eexists. split; [vm_compute; reflexivity |].
  split; [vm_compute; reflexivity |]. vm_compute. reflexivity.
Qed.

(** X8. [metric_battery_summary] has one row for each device that has a
    fact of type [battery_charge].  In that row [last_seen] is the latest
    [record_time] of those facts; [min_pct] and [max_pct] are the smallest
    and the largest of their values rounded to one decimal, so when both
    casts succeed [min_pct <= max_pct] and each is within 0.05 of the value
    it rounds; [avg_pct] is the cast to two decimals of [AVG] of those
    values, which is their mean rounded at the scale of the division, so
    when the cast succeeds [avg_pct] is within 0.005 of [AVG] and within
    0.005 and half a unit of the eighth decimal of the mean, which lies
    between the smallest and the largest value. *)
Theorem metric_battery_summary_spec (db : database) :
  NoDup (map bs_device_id (metric_battery_summary db))
  /\ (forall d,
        In d (map bs_device_id (metric_battery_summary db))
        <-> exists pr rt,
              In pr (processed_record db) /\ In rt (record_type db)
              /\ rt_id rt = pr_type pr
              /\ rt_name rt = "battery_charge"%string
              /\ pr_device_id pr = d)
  /\ (forall row, In row (metric_battery_summary db) ->
        let vs := type_values db "battery_charge" (bs_device_id row) in
        let avg := numeric_div (numeric_sum vs)
                               (inject_Z (Z.of_nat (List.length vs))) in
        exists lo hi t,
          (exists j, In j (facts_of_type db "battery_charge")
                     /\ pr_device_id (fst j) = bs_device_id row
                     /\ pr_value (fst j) = lo)
          /\ (exists j, In j (facts_of_type db "battery_charge")
                        /\ pr_device_id (fst j) = bs_device_id row
                        /\ pr_value (fst j) = hi)
          /\ (forall j, In j (facts_of_type db "battery_charge") ->
                        pr_device_id (fst j) = bs_device_id row ->
                        (lo <= pr_value (fst j) <= hi)%Q
                        /\ pr_record_time (fst j) <= t)
          /\ (avg == numeric_round (avg_scale vs) (mean vs))%Q
          /\ (Qabs (avg - mean vs) * inject_Z (10 ^ avg_scale vs) <= 1 # 2)%Q
          /\ (lo <= mean vs <= hi)%Q
          /\ last_seen row = Some t
          /\ (exists j, In j (facts_of_type db "battery_charge")
                        /\ pr_device_id (fst j) = bs_device_id row
                        /\ pr_record_time (fst j) = t)
          /\ min_pct row = cast_numeric 10 1 (Some lo)
          /\ max_pct row = cast_numeric 10 1 (Some hi)
          /\ avg_pct row = cast_numeric 10 2 (Some avg)
          /\ (forall a, min_pct row = Value (Some a) ->
                        (Qabs (a - lo) <= 1 # 20)%Q)
          /\ (forall b, max_pct row = Value (Some b) ->
                        (Qabs (b - hi) <= 1 # 20)%Q)
          /\ (forall c, avg_pct row = Value (Some c) ->
                        (Qabs (c - avg) <= 1 # 200)%Q
                        /\ (Qabs (c - mean vs)
                            <= (1 # 200) + (1 # 200000000))%Q)
          /\ (forall a b, min_pct row = Value (Some a) ->
                          max_pct row = Value (Some b) -> (a <= b)%Q)).
Proof.
  assert (Hids : map bs_device_id (metric_battery_summary db)
                 = distinct (map (fun j => pr_device_id (fst j))
                                 (facts_of_type db "battery_charge"))).
  { unfold metric_battery_summary. rewrite map_map. cbn. apply map_id. }
  split; [| split].
  - rewrite Hids. apply NoDup_nodup.
  - intro d. rewrite Hids. apply facts_of_type_devices.
  - intros row Hrow. unfold metric_battery_summary in Hrow.
    apply in_map_iff in Hrow. destruct Hrow as (d & <- & Hd).
    cbn [bs_device_id min_pct max_pct avg_pct last_seen]. cbv zeta.
    fold (type_values db "battery_charge" d).
    destruct (type_values_bounds db _ d Hd)
      as (lo & hi & Hmin & Hmax & Hlo & Hhi & Hall & Hmean).
    destruct (type_values_avg db _ d Hd) as (Havg & Heq & Hclose).
    pose proof (type_values_nonempty db _ d Hd) as Hne.
    pose proof (type_values_numeric db "battery_charge" d) as Hnum.
    set (f := facts_of_type db "battery_charge") in *.
    set (g := filter (fun j : processed_record_row * record_type_row =>
                        pr_device_id (fst j) =? d) f) in *.
    assert (Hg : forall j, In j g <-> In j f /\ pr_device_id (fst j) = d).
    { intro j. unfold g. rewrite filter_In, Z.eqb_eq. reflexivity. }
    assert (Htne : map (fun j : processed_record_row * record_type_row =>
                          pr_record_time (fst j)) g <> []).
    { intro H. apply map_eq_nil in H.
      exact (group_nonempty _ f d Hd H). }
    destruct (sql_max_time_spec _ Htne) as (t & Ht & Ht_in & Ht_all).
    rewrite Hmin, Hmax, Havg, Ht.
    set (vs := type_values db "battery_charge" d) in *.
    set (avg := numeric_div (numeric_sum vs)
                            (inject_Z (Z.of_nat (List.length vs)))) in *.
    exists lo, hi, t.
    split; [now apply in_type_values |]. split; [now apply in_type_values |].
    split.
    { intros j Hj Hdev. split.
      - apply Hall. apply in_type_values. eauto.
      - apply Ht_all. apply in_map_iff. exists j. split; [reflexivity |].
        apply Hg. auto. }
    split; [exact Heq |]. split; [exact Hclose |].
    split; [exact Hmean |]. split; [reflexivity |].
    split.
    { apply in_map_iff in Ht_in. destruct Ht_in as (j & Hv & Hj).
      apply Hg in Hj. exists j. tauto. }
    repeat (split; [reflexivity |]).
    assert (Hclose1 : forall q a, cast_numeric 10 1 (Some q) = Value (Some a)
                                  -> (Qabs (a - q) <= 1 # 20)%Q).
    { intros q a H. apply cast_numeric_close in H.
      change (inject_Z (10 ^ Z.of_nat 1)) with 10%Q in H.
      set (X := Qabs (a - q)) in *. clearbody X. lra. }
    assert (Hclose2 : forall q a, cast_numeric 10 2 (Some q) = Value (Some a)
                                  -> (Qabs (a - q) <= 1 # 200)%Q).
    { intros q a H. apply cast_numeric_close in H.
      change (inject_Z (10 ^ Z.of_nat 2)) with 100%Q in H.
      set (X := Qabs (a - q)) in *. clearbody X. lra. }
    split; [apply Hclose1 |]. split; [apply Hclose1 |].
    split.
    { intros c Hc. pose proof (Hclose2 _ _ Hc) as Hcast.
      split; [exact Hcast |].
      assert (Hscale : 8 <= avg_scale vs).
      { apply (cast_bounds_mean 10 2 3 vs avg c Hne Hnum); try assumption;
          [lia | lia | cbn; lia]. }
      apply (Qabs_scaled_bound _ _ 8) in Hclose;
        [| pose proof (avg_scale_range vs); lia].
      change (inject_Z (10 ^ 8)) with 100000000%Q in Hclose.
      assert (Htri : (Qabs (c - mean vs)
                      <= Qabs (c - avg) + Qabs (avg - mean vs))%Q).
      { assert (E : (c - mean vs == (c - avg) + (avg - mean vs))%Q) by ring.
        rewrite E at 1. apply Qabs_triangle. }
      set (X := Qabs (c - mean vs)) in *.
      set (Y := Qabs (c - avg)) in *.
      set (Z0 := Qabs (avg - mean vs)) in *.
      clearbody X Y Z0. lra. }
    intros a b Ha Hb.
    apply (cast_numeric_monotone 10 1 lo hi a b); try assumption.
    now apply Hall.
Qed.

Lemma metric_battery_summary_spec_witness :
  In {| bs_device_id := 7; min_pct := Value (Some 0.1%Q);
        max_pct := Value (Some 97.5%Q); avg_pct := Value (Some 49.18%Q);
        last_seen := Some 30 |} (metric_battery_summary sensor_db)
  /\ (0.1 <= 97.5)%Q.
Proof.
  assert (Hin : In {| bs_device_id := 7; min_pct := Value (Some 0.1%Q);
                      max_pct := Value (Some 97.5%Q);
                      avg_pct := Value (Some 49.18%Q);
                      last_seen := Some 30 |}
                   (metric_battery_summary sensor_db))
    by (left; vm_compute; reflexivity).
  split; [exact Hin |].
  destruct (proj2 (proj2 (metric_battery_summary_spec sensor_db)) _ Hin)
    as (lo & hi & t & _ & _ & _ & _ & _ & _ & _ & _ & _ & _ & _ & _ & _ & _ & Hle).
  exact (Hle _ _ eq_refl eq_refl).
Defined.


(** ** The diagnostic view: when it can be read *)

Lemma all_values_total {A} (l : list (sql_result A)) :
  (forall x, In x l -> exists a, x = Value a) ->
  exists r, all_values l = Value r.
Proof.
  induction l as [| x l IH]; intro H; cbn; [eauto |].
  destruct (H x (or_introl eq_refl)) as [a ->].
  destruct (IH (fun y Hy => H y (or_intror Hy))) as [r ->]. eauto.
Qed.

Lemma map_eq_values {A B C} (g : A -> sql_result B) (ka : A -> C)
    (kb : B -> C) (l : list A) (rows : list B) :
  (forall x y, g x = Value y -> kb y = ka x) ->
  map g l = map Value rows -> map kb rows = map ka l.
Proof.
  intro Hk. revert rows. induction l as [| x l IH]; intros [| y rows] H;
    try discriminate; [reflexivity |].
  cbn in H. injection H as Hx Hl. cbn.
  now rewrite (Hk x y Hx), (IH rows Hl).
Qed.

(** X9. Under the two keys, [SELECT * FROM ingest_parse] succeeds exactly
    when, for every raw record without a fact, the payload's [device_id]
    text is absent or casts to [int]; it then returns one row per raw
    record.  The payload of a raw record that has a fact is never looked
    at: its [device_id] is that of the fact. *)
Theorem select_ingest_parse_total (db : database) :
  unique_index same_raw (processed_record db) ->
  unique_index same_error_key (ingest_error db) ->
  ((exists rows, select_ingest_parse db = Value rows)
   <-> forall rr, In rr (raw_record db) -> facts_of db (rr_id rr) = [] ->
         exists v, cast_int (json_get_text (rr_raw_message rr) "device_id")
                   = Value v)
  /\ (forall rows, select_ingest_parse db = Value rows ->
        map (fun x => fst (fst (fst x))) rows = map rr_id (raw_record db))
  /\ (forall row pr, In row (ingest_parse db) ->
        In pr (processed_record db) ->
        pr_raw_data_id pr = ip_raw_data_id row ->
        ip_device_id row = Value (Some (pr_device_id pr))).
Proof.
  intros Hpr Hie.
  pose proof (ingest_parse_rows db Hpr Hie) as Hrows.
  set (rowf := fun rr =>
         {| ip_raw_data_id := rr_id rr;
            ip_device_id :=
              coalesce (option_map pr_device_id
                                   (hd_error (facts_of db (rr_id rr))))
                       (fun _ => cast_int (json_get_text (rr_raw_message rr)
                                                         "device_id"));
            parse_ok := match hd_error (facts_of db (rr_id rr)) with
                        | Some _ => true
                        | None => false
                        end;
            error := option_map ie_error
                                (hd_error (errors_of db (rr_id rr))) |}) in *.
  set (g := fun r : ingest_parse_row =>
              match ip_device_id r with
              | Value d => Value (ip_raw_data_id r, d, parse_ok r, error r)
              | Raise e => Raise e
              end).
  assert (Hsel : select_ingest_parse db
                 = all_values (map g (map rowf (raw_record db))))
    by (unfold select_ingest_parse; now rewrite Hrows).
  split; [| split].
  - rewrite Hsel. split.
    + intros [rows Hv] rr Hrr Hnone.
      apply all_values_value in Hv.
      assert (Hin : In (g (rowf rr)) (map Value rows)).
      { rewrite <- Hv. apply in_map. now apply in_map. }
      apply in_map_iff in Hin. destruct Hin as (x & Hx & _).
      unfold g, rowf in Hx. cbn in Hx. rewrite Hnone in Hx. cbn in Hx.
      destruct (cast_int _) as [v |]; [eauto | discriminate].
    + intro Hall. apply all_values_total. intros x Hx.
      apply in_map_iff in Hx. destruct Hx as (r & <- & Hr).
      apply in_map_iff in Hr. destruct Hr as (rr & <- & Hrr).
      unfold g, rowf. cbn.
      destruct (facts_of db (rr_id rr)) as [| pr rest] eqn:Hf.
      * cbn. destruct (Hall rr Hrr Hf) as [v ->]. eauto.
      * cbn. eauto.
  - intros rows Hv. rewrite Hsel in Hv. apply all_values_value in Hv.
    rewrite map_map in Hv.
    apply (map_eq_values (fun rr => g (rowf rr)) rr_id
                         (fun x => fst (fst (fst x))) _ _) in Hv;
      [exact Hv |].
    intros rr y Hy. unfold g, rowf in Hy. cbn in Hy.
    destruct (coalesce _ _); [| discriminate].
    injection Hy as <-. reflexivity.
  - intros row pr Hrow Hin Hraw. rewrite Hrows in Hrow.
    apply in_map_iff in Hrow. destruct Hrow as (rr & <- & Hrr).
    cbn in Hraw |- *.
    pose proof (facts_of_unique db (rr_id rr) Hpr) as Hlen.
    assert (Hf : In pr (facts_of db (rr_id rr))).
    { apply filter_In. split; [assumption | now apply Z.eqb_eq]. }
    destruct (facts_of db (rr_id rr)) as [| x [| y rest]]; cbn in *.
    + contradiction.
    + destruct Hf as [-> | []]. reflexivity.
    + lia.
Qed.

Lemma select_ingest_parse_total_witness :
  no_collision same_raw (processed_record scenario_A_db) = true
  /\ no_collision same_error_key (ingest_error scenario_A_db) = true
  /\ exists rows, select_ingest_parse scenario_A_db = Value rows.
Proof.
  split; [reflexivity |]. split; [reflexivity |].
  apply (proj1 (select_ingest_parse_total scenario_A_db
                  (no_collision_unique same_raw
                     (processed_record scenario_A_db) eq_refl)
                  (no_collision_unique same_error_key
                     (ingest_error scenario_A_db) eq_refl))).
  intros rr [<- | []]. discriminate.
Defined.

(** ** Integers through the cast *)

Lemma scan_uint (d : Decimal.uint) :
  forall acc seen,
    scan_digits 10 acc seen (NilEmpty.string_of_uint d)
    = Some (uint_value acc d,
            match d with Decimal.Nil => seen | _ => true end,
            EmptyString).
Proof.
  induction d; intros acc seen; cbn [NilEmpty.string_of_uint uint_value];
    try reflexivity;
    cbn [scan_digits]; cbv [digit_value];
    match goal with
    | |- context [nat_of_ascii ?c] =>
        let n := eval compute in (Z.of_nat (nat_of_ascii c)) in
        change (Z.of_nat (nat_of_ascii c)) with n
    end;
    cbn [Z.leb Z.ltb Z.compare Pos.compare Pos.compare_cont andb Z.sub Z.add
         Z.opp Z.pos_sub Pos.pred_double Z.succ_double Z.pred_double Z.double];
    rewrite IHd; destruct d; reflexivity.
Qed.

Lemma uint_value_acc (d : Decimal.uint) (acc : positive) :
  Z.pos (Pos.of_uint_acc d acc) = uint_value (Z.pos acc) d.
Proof.
  revert acc. induction d; intro acc; cbn [Pos.of_uint_acc uint_value];
    try reflexivity; rewrite IHd; f_equal; lia.
Qed.

Lemma uint_value_of_uint (d : Decimal.uint) :
  Z.of_N (Pos.of_uint d) = uint_value 0 d.
Proof.
  induction d; cbn [Pos.of_uint uint_value]; try reflexivity;
    try exact IHd; cbn [Z.of_N]; rewrite uint_value_acc; reflexivity.
Qed.

Lemma uint_value_to_uint (n : N) : uint_value 0 (N.to_uint n) = Z.of_N n.
Proof.
  rewrite <- uint_value_of_uint.
  change (Pos.of_uint (N.to_uint n)) with (N.of_uint (N.to_uint n)).
  now rewrite DecimalN.Unsigned.of_to.
Qed.

(** The cast reads back the decimal text of a number, with or without a
    minus sign. *)
Lemma cast_decimal_text (d : Decimal.uint) :
  cast_text_int (NilZero.string_of_uint d) = int4_range (uint_value 0 d)
  /\ cast_text_int (String "-" (NilZero.string_of_uint d))
     = int4_range (- uint_value 0 d).
Proof.
  assert (Hscan : forall d', d' <> Decimal.Nil ->
            scan_digits 10 0 false (NilEmpty.string_of_uint d')
            = Some (uint_value 0 d', true, EmptyString)).
  { intros d' Hd'. rewrite scan_uint. destruct d'; [contradiction | ..];
      reflexivity. }
  assert (Hfinish : forall d', d' <> Decimal.Nil ->
            forall neg : bool,
            match scan_digits 10 0 false (NilEmpty.string_of_uint d') with
            | Some (n, true, rest) =>
                match skip_spaces rest with
                | EmptyString =>
                    let v := if neg then - n else n in
                    if (- 2147483648 <=? v) && (v <=? 2147483647) then Value v
                    else Raise "22003"
                | _ => Raise "22P02"
                end
            | _ => Raise "22P02"
            end
            = int4_range (if neg then - uint_value 0 d' else uint_value 0 d')).
  { intros d' Hd' neg. rewrite (Hscan d' Hd'). reflexivity. }
  destruct d as [| d' | d' | d' | d' | d' | d' | d' | d' | d' | d'];
    [split; reflexivity | ..];
    try (split;
         match goal with
         | |- cast_text_int (NilZero.string_of_uint ?x) = _ =>
             exact (Hfinish x ltac:(discriminate) false)
         | |- cast_text_int (String _ (NilZero.string_of_uint ?x)) = _ =>
             exact (Hfinish x ltac:(discriminate) true)
         end).
  (* a leading zero: the next character decides the base *)
  destruct d' as [| d'' | d'' | d'' | d'' | d'' | d'' | d'' | d'' | d'' | d''];
    [split; reflexivity | ..];
    split;
    match goal with
    | |- cast_text_int (NilZero.string_of_uint ?x) = _ =>
        exact (Hfinish x ltac:(discriminate) false)
    | |- cast_text_int (String _ (NilZero.string_of_uint ?x)) = _ =>
        exact (Hfinish x ltac:(discriminate) true)
    end.
Qed.

Lemma substring_all (s : string) : substring 0 (String.length s) s = s.
Proof. induction s as [| c s IH]; cbn; [reflexivity | now rewrite IH]. Qed.

Lemma append_empty (s : string) : (s ++ EmptyString)%string = s.
Proof. induction s as [| c s IH]; cbn; [reflexivity | now rewrite IH]. Qed.

Lemma numeric_out_integer (z : Z) :
  numeric_out z 0
  = ((if (z <? 0)%Z then "-" else EmptyString)
     ++ NilZero.string_of_uint (N.to_uint (Z.abs_N z)))%string.
Proof.
  unfold numeric_out.
  set (digits := NilZero.string_of_uint (N.to_uint (Z.abs_N z))).
  assert (Hlen : (1 <= String.length digits)%nat).
  { unfold digits, NilZero.string_of_uint.
    destruct (N.to_uint (Z.abs_N z)); cbn; lia. }
  replace (1 - String.length digits)%nat with 0%nat by lia.
  cbn [zeros append]. rewrite Nat.sub_0_r, substring_all, append_empty.
  reflexivity.
Qed.

Lemma cast_numeric_out (z : Z) :
  cast_text_int (numeric_out z 0) = int4_range z.
Proof.
  rewrite numeric_out_integer.
  destruct (cast_decimal_text (N.to_uint (Z.abs_N z))) as [Hpos Hneg].
  rewrite uint_value_to_uint in Hpos, Hneg.
  destruct (Z.ltb_spec z 0) as [Hz | Hz]; cbn [append].
  - rewrite Hneg. f_equal. rewrite N2Z.inj_abs_N. lia.
  - rewrite Hpos. f_equal. rewrite N2Z.inj_abs_N. lia.
Qed.

(** X10. An integer [device_id] survives the fallback of [ingest_parse]:
    for a raw record without a fact whose payload is an object with an
    integer [device_id], the view's [device_id] is that integer when it
    fits 32 bits, and the column raises [22003] when it does not. *)
Theorem integer_device_id_round_trip (db : database) (rr : raw_record_row)
    (fields : list (string * json)) (z : Z) :
  unique_index same_raw (processed_record db) ->
  unique_index same_error_key (ingest_error db) ->
  In rr (raw_record db) ->
  facts_of db (rr_id rr) = [] ->
  rr_raw_message rr = JObject fields ->
  json_field "device_id" fields = Some (JNumber z 0) ->
  exists row,
    In row (ingest_parse db)
    /\ ip_raw_data_id row = rr_id rr
    /\ parse_ok row = false
    /\ ip_device_id row
       = if (- 2147483648 <=? z) && (z <=? 2147483647)
         then Value (Some z) else Raise "22003".
Proof.
  intros Hpr Hie Hrr Hnone Hmsg Hfield.
  rewrite (ingest_parse_rows db Hpr Hie).
  eexists. split; [apply in_map; exact Hrr |].
  cbn. rewrite Hnone, Hmsg. cbn. rewrite Hfield.
  split; [reflexivity |]. split; [reflexivity |].
  unfold cast_int. change (jsonb_out (JNumber z 0)) with (numeric_out z 0).
  rewrite cast_numeric_out. unfold int4_range.
  destruct ((- 2147483648 <=? z) && (z <=? 2147483647)); reflexivity.
Qed.

Lemma integer_device_id_round_trip_witness :
  exists row,
    In row (ingest_parse
              {| device := []; record_type := record_type init_db;
                 raw_record :=
                   [ {| rr_id := 1;
                        rr_raw_message :=
                          JObject [("device_id"%string, JNumber (-17) 0)];
                        rr_arrival_time := 5 |} ];
                 ingest_error := []; processed_record := [];
                 record_type_id_seq := 5; raw_record_id_seq := 2;
                 processed_record_id_seq := 1 |})
    /\ ip_raw_data_id row = 1
    /\ parse_ok row = false
    /\ ip_device_id row = Value (Some (-17)).
Proof.
  refine (integer_device_id_round_trip
            {| device := []; record_type := record_type init_db;
               raw_record :=
                 [ {| rr_id := 1;
                      rr_raw_message :=
                        JObject [("device_id"%string, JNumber (-17) 0)];
                      rr_arrival_time := 5 |} ];
               ingest_error := []; processed_record := [];
               record_type_id_seq := 5; raw_record_id_seq := 2;
               processed_record_id_seq := 1 |}
            _ [("device_id"%string, JNumber (-17) 0)] (-17)
            (no_collision_unique same_raw [] eq_refl)
            (no_collision_unique same_error_key [] eq_refl)
            (or_introl eq_refl) eq_refl eq_refl eq_refl).
Defined.

(** ** The side-switch queries of the analysis script *)

Lemma length_filter_or {A} (p q : A -> bool) (l : list A) :
  (forall x, In x l -> p x && q x = false) ->
  List.length (filter (fun x => p x || q x) l)
  = (List.length (filter p l) + List.length (filter q l))%nat.
Proof.
  induction l as [| x l IH]; cbn; intro H; [reflexivity |].
  specialize (IH (fun y Hy => H y (or_intror Hy))).
  pose proof (H x (or_introl eq_refl)) as Hx.
  destruct (p x), (q x); cbn in *; try discriminate; lia.
Qed.

(** The third count of query 5 selects the rows of the first two. *)
Lemma total_switch_condition (r : side_series_row) :
  let l2r := holds (sql_and (sql_text_eq (prev_side r) "left")
                            (sql_text_eq (Some (side r)) "right")) in
  let r2l := holds (sql_and (sql_text_eq (prev_side r) "right")
                            (sql_text_eq (Some (side r)) "left")) in
  holds (sql_and
           (sql_and (sql_text_in (prev_side r) ["left"; "right"]%string)
                    (sql_text_in (Some (side r)) ["left"; "right"]%string))
           (sql_text_differ (prev_side r) (Some (side r))))
  = l2r || r2l
  /\ l2r && r2l = false.
Proof.
  destruct r as [d t e s [p |]]; cbn;
    [| destruct (s =? "left")%string, (s =? "right")%string; cbn;
       split; reflexivity].
  destruct (String.eqb_spec p "left") as [-> | Hpl];
    destruct (String.eqb_spec s "right") as [-> | Hsr]; cbn;
    try (split; reflexivity).
  - destruct (String.eqb_spec s "left") as [-> | Hsl]; cbn;
      split; reflexivity.
  - destruct (String.eqb_spec p "right") as [-> | Hpr]; cbn;
      split; reflexivity.
  - destruct (String.eqb_spec p "right") as [-> | Hpr];
      destruct (String.eqb_spec s "left") as [-> | Hsl]; cbn;
      split; reflexivity.
Qed.

Lemma side_switches_as_totals (db : database) :
  side_switches db
  = map (fun r => {| sw_device_id := st_device_id r;
                     left_to_right := st_left_to_right r;
                     right_to_left := st_right_to_left r |})
        (side_switches_all_time db).
Proof.
  unfold side_switches, side_switches_all_time, side_switch_totals,
    side_series, side_series_over.
  rewrite map_map. reflexivity.
Qed.

(** X11. Query 5 of the analysis script agrees with the [side_switches]
    query of the API on the two directed counts, and its
    [total_side_switches] is their sum. *)
Theorem side_switches_all_time_spec (db : database) :
  map (fun r => {| sw_device_id := st_device_id r;
                   left_to_right := st_left_to_right r;
                   right_to_left := st_right_to_left r |})
      (side_switches_all_time db)
  = side_switches db
  /\ forall row, In row (side_switches_all_time db) ->
       total_side_switches row = st_left_to_right row + st_right_to_left row.
Proof.
  split; [symmetry; apply side_switches_as_totals |].
  intros row Hrow.
  unfold side_switches_all_time, side_switch_totals in Hrow.
  apply in_map_iff in Hrow. destruct Hrow as (d & <- & _).
  cbn [total_side_switches st_left_to_right st_right_to_left].
  unfold count_filter. rewrite <- Nat2Z.inj_add. f_equal.
  rewrite <- length_filter_or.
  - f_equal. apply filter_ext. intro r.
    exact (proj1 (total_switch_condition r)).
  - intros r _. exact (proj2 (total_switch_condition r)).
Qed.

Lemma side_switches_all_time_spec_witness :
  In {| st_device_id := 42; st_left_to_right := 2; st_right_to_left := 0;
        total_side_switches := 2 |} (side_switches_all_time swing_db)
  /\ 2 = 2 + 0.
Proof.
  assert (Hin : In {| st_device_id := 42; st_left_to_right := 2;
                      st_right_to_left := 0; total_side_switches := 2 |}
                   (side_switches_all_time swing_db))
    by (left; reflexivity).
  split; [exact Hin |].
  exact (proj2 (side_switches_all_time_spec swing_db) _ Hin).
Defined.

Lemma flat_map_filter {A B} (f : A -> list B) (p : A -> bool) (q : B -> bool)
    (l : list A) :
  (forall x y, In y (f x) -> q y = p x) ->
  flat_map f (filter p l) = filter q (flat_map f l).
Proof.
  intro H. induction l as [| x l IH]; cbn; [reflexivity |].
  rewrite filter_app, <- IH.
  destruct (p x) eqn:Hp; cbn.
  - f_equal. symmetry. apply forallb_filter_id. apply forallb_forall.
    intros y Hy. now rewrite (H x y Hy).
  - assert (Hnone : filter q (f x) = []).
    { assert (Hall : forall y, In y (f x) -> q y = false)
        by (intros y Hy; now rewrite (H x y Hy)).
      clear H. induction (f x) as [| y s IHs]; cbn; [reflexivity |].
      rewrite (Hall y (or_introl eq_refl)).
      apply IHs. intros. apply Hall. now right. }
    now rewrite Hnone.
Qed.

Lemma view_of_facts_since (t0 : Z) (db : database) :
  v_platform_extension_mm (facts_since t0 db)
  = filter (fun r => t0 <=? observed_at r) (v_platform_extension_mm db).
Proof.
  unfold v_platform_extension_mm. cbn [processed_record facts_since].
  rewrite (flat_map_filter (extension_rows_of db)
             (fun pr => t0 <=? pr_record_time pr)
             (fun r => t0 <=? observed_at r)).
  - reflexivity.
  - intros pr r Hr. unfold extension_rows_of in Hr.
    apply in_map_iff in Hr. destruct Hr as (rt & <- & _). reflexivity.
Qed.

(** X12. Query 6 of the analysis script, the switches of the last hour,
    is the [side_switches] query run on the facts of the last hour alone:
    a reading older than [now() - 1 hour] is neither counted nor used as
    the predecessor of a later reading.  When no fact is older, the two
    queries agree. *)
Theorem side_switches_last_hour_spec (now : Z) (db : database) :
  side_switches_last_hour now db
  = side_switches (facts_since (now - one_hour) db)
  /\ ((forall pr, In pr (processed_record db) ->
                  now - one_hour <= pr_record_time pr) ->
      side_switches_last_hour now db = side_switches db).
Proof.
  assert (H : side_switches_last_hour now db
              = side_switches (facts_since (now - one_hour) db)).
  { rewrite side_switches_as_totals. unfold side_switches_last_hour,
      side_switches_all_time. now rewrite view_of_facts_since. }
  split; [exact H |].
  intro Hall. rewrite H.
  assert (Hsame : filter (fun pr => now - one_hour <=? pr_record_time pr)
                         (processed_record db) = processed_record db).
  { apply forallb_filter_id. apply forallb_forall.
    intros pr Hpr. apply Z.leb_le. now apply Hall. }
  unfold side_switches, side_series, v_platform_extension_mm.
  cbn [processed_record facts_since]. rewrite Hsame. reflexivity.
Qed.

Lemma side_switches_last_hour_spec_witness :
  side_switches_last_hour 3600000005 swing_db = side_switches swing_db.
Proof.
  refine (proj2 (side_switches_last_hour_spec 3600000005 swing_db) _).
  intros pr Hpr. cbn in Hpr.
  repeat (destruct Hpr as [<- | Hpr]; [cbn; unfold one_hour; lia |]).
  contradiction.
Defined.

(** ** The averages compared (query 4 of the analysis script) *)

Lemma non_null_filtered {A} (c : A -> bool) (f : A -> Q) (l : list A) :
  non_null (map (fun x => if c x then Some (f x) else None) l)
  = map f (filter c l).
Proof.
  induction l as [| x l IH]; cbn; [reflexivity |].
  fold (non_null (map (fun x => if c x then Some (f x) else None) l)).
  rewrite IH. now destruct (c x).
Qed.

Lemma sql_avg_or_null (l : list (option Q)) :
  sql_avg l = avg_or_null (non_null l).
Proof. unfold sql_avg, avg_or_null. now destruct (non_null l). Qed.

Lemma sql_avg_filtered {A} (c : A -> bool) (f : A -> Q) (l : list A) :
  sql_avg (map (fun x => if c x then Some (f x) else None) l)
  = avg_or_null (map f (filter c l)).
Proof. now rewrite sql_avg_or_null, non_null_filtered. Qed.

(** [AVG] rounds the mean at the scale of the division. *)
Lemma avg_or_null_spec (vs : list Q) :
  vs <> [] -> Forall is_numeric vs ->
  exists a,
    avg_or_null vs = Some a
    /\ (a == numeric_round (avg_scale vs) (mean vs))%Q
    /\ (Qabs (a - mean vs) * inject_Z (10 ^ avg_scale vs) <= 1 # 2)%Q.
Proof.
  intros Hne Hnum.
  assert (Hnn : non_null (map (fun x : Q => Some x) vs) = vs).
  { rewrite (non_null_map_some (fun x : Q => x)). apply map_id. }
  destruct (sql_avg_spec (map (fun x : Q => Some x) vs))
    as (a & Ha & Heq & Hclose);
    [now rewrite Hnn | now rewrite Hnn |].
  rewrite sql_avg_or_null in Ha. rewrite Hnn in Ha, Heq, Hclose. eauto.
Qed.

Lemma extension_case_of_name (name : string) (v : Q) :
  name = "platform_extension_mm"%string
  \/ name = "platform_extension_ticks"%string ->
  (extension_case name v = Some v
   /\ (name =? "platform_extension_mm")%string = true
   /\ (name =? "platform_extension_ticks")%string = false)
  \/ (extension_case name v = Some (numeric_div v 20.0)
      /\ (name =? "platform_extension_mm")%string = false
      /\ (name =? "platform_extension_ticks")%string = true).
Proof.
  intros [-> | ->]; [left | right]; repeat split; reflexivity.
Qed.

(** The values of both formats are those of the two formats together. *)
Lemma values_by_format (g : list (processed_record_row * record_type_row)) :
  (forall j, In j g ->
     rt_name (snd j) = "platform_extension_mm"%string
     \/ rt_name (snd j) = "platform_extension_ticks"%string) ->
  let all := non_null (map (fun j => extension_case (rt_name (snd j))
                                                    (pr_value (fst j))) g) in
  let mm := map (fun j => pr_value (fst j))
                (filter (fun j => (rt_name (snd j) =? "platform_extension_mm")%string) g) in
  let ticks := map (fun j => pr_value (fst j))
                   (filter (fun j => (rt_name (snd j) =? "platform_extension_ticks")%string) g) in
  List.length all = (List.length mm + List.length ticks)%nat
  /\ (fold_right Qplus 0 all
      == fold_right Qplus 0 mm
         + fold_right Qplus 0 (map (fun v => numeric_div v 20.0) ticks))%Q.
Proof.
  induction g as [| j g IH]; intro Hnames; cbv zeta.
  - cbn. split; [reflexivity | reflexivity].
  - specialize (IH (fun x Hx => Hnames x (or_intror Hx))). cbv zeta in IH.
    destruct IH as [IHlen IHsum].
    cbn [map filter].
    destruct (extension_case_of_name (rt_name (snd j)) (pr_value (fst j))
                (Hnames j (or_introl eq_refl)))
      as [(Hc & Hm & Ht) | (Hc & Hm & Ht)]; rewrite Hc, Hm, Ht.
    + cbn [non_null flat_map app map List.length fold_right].
      fold (non_null (map (fun j => extension_case (rt_name (snd j))
                                                   (pr_value (fst j))) g)).
      split; [now rewrite IHlen |].
      rewrite IHsum. ring.
    + cbn [non_null flat_map app map List.length fold_right].
      fold (non_null (map (fun j => extension_case (rt_name (snd j))
                                                   (pr_value (fst j))) g)).
      split; [rewrite IHlen; lia |].
      rewrite IHsum. ring.
Qed.

Lemma compare_averages_all (db : database) (d : Z) :
  map (fun j => extension_case (rt_name (snd j)) (pr_value (fst j)))
      (filter (fun j => pr_device_id (fst j) =? d) (extension_facts db))
  = map extension_mm
        (filter (fun r => device_id r =? d) (v_platform_extension_mm db)).
Proof.
  rewrite view_of_facts, filter_map_comm, map_map. reflexivity.
Qed.

Lemma device_values_of_type_numeric (db : database) (d : Z) (name : string) :
  Forall is_numeric (device_values_of_type db d name).
Proof.
  apply Forall_forall. intros x Hx. unfold device_values_of_type in Hx.
  apply in_map_iff in Hx. destruct Hx as (j & <- & _).
  apply is_numeric_pr_value.
Qed.

(** X13. Query 4 of the analysis script lists the devices of the
    unification view once each, in ascending order.  For each of them
    [avg_all_mm] is [AVG] of its view values, never [NULL], and the row of
    [metric_avg_extension_mm] is its rounding to three decimals;
    [avg_new_only_mm] is [AVG] of the millimeter values as stored and
    [avg_legacy_only_mm] that of the ticks values divided by 20.0, each
    [NULL] exactly when the device has no fact of that format.  Each of the
    three averages is the mean of its values rounded at the scale of its
    division, so within half a unit of that scale's last decimal of the
    mean; and the mean of all the values is the mean of the values of the
    two formats together. *)
Theorem compare_averages_spec (db : database) :
  StronglySorted Z.lt (map ca_device_id (compare_averages db))
  /\ (forall d, In d (map ca_device_id (compare_averages db))
                <-> In d (map device_id (v_platform_extension_mm db)))
  /\ forall row, In row (compare_averages db) ->
       let d := ca_device_id row in
       let all := device_values db d in
       let mm := device_values_of_type db d "platform_extension_mm" in
       let ticks :=
         map (fun v => numeric_div v 20.0)
             (device_values_of_type db d "platform_extension_ticks") in
       all <> []
       /\ avg_all_mm row = avg_or_null all
       /\ avg_new_only_mm row = avg_or_null mm
       /\ avg_legacy_only_mm row = avg_or_null ticks
       /\ (avg_new_only_mm row = None <-> mm = [])
       /\ (avg_legacy_only_mm row = None <-> ticks = [])
       /\ (forall vs, vs = all \/ vs = mm \/ vs = ticks -> vs <> [] ->
             exists a,
               avg_or_null vs = Some a
               /\ (a == numeric_round (avg_scale vs) (mean vs))%Q
               /\ (Qabs (a - mean vs) * inject_Z (10 ^ avg_scale vs)
                   <= 1 # 2)%Q)
       /\ (exists r, In r (metric_avg_extension_mm db)
                     /\ avg_device_id r = d
                     /\ avg_extension_mm r = cast_numeric_10_3 (avg_all_mm row))
       /\ List.length all = (List.length mm + List.length ticks)%nat
       /\ (mean all * inject_Z (Z.of_nat (List.length mm + List.length ticks))
           == fold_right Qplus 0 mm + fold_right Qplus 0 ticks)%Q.
Proof.
  assert (Hids : map ca_device_id (compare_averages db)
                 = order_by Z.leb
                     (distinct (map device_id (v_platform_extension_mm db)))).
  { unfold compare_averages. cbv zeta. rewrite map_map. cbn [ca_device_id].
    rewrite map_id. rewrite view_of_facts, map_map. reflexivity. }
  assert (Hmem : forall d, In d (map ca_device_id (compare_averages db))
                           <-> In d (map device_id (v_platform_extension_mm db))).
  { intro d. rewrite Hids. unfold distinct. split; intro H.
    - apply (Permutation_in _ (order_by_perm Z.leb _)) in H.
      now apply nodup_In in H.
    - apply (Permutation_in _ (Permutation_sym (order_by_perm Z.leb _))).
      now apply nodup_In. }
  split; [| split; [exact Hmem |]].
  - rewrite Hids. apply order_by_strict. apply NoDup_nodup.
  - intros row Hrow.
    assert (Hd : In (ca_device_id row)
                    (map device_id (v_platform_extension_mm db)))
      by (apply Hmem; now apply in_map).
    unfold compare_averages in Hrow. cbv zeta in Hrow.
    apply in_map_iff in Hrow. destruct Hrow as (d & <- & _).
    cbn [ca_device_id avg_all_mm avg_new_only_mm avg_legacy_only_mm] in *.
    cbv zeta.
    pose proof (device_values_nonempty db d Hd) as Hne.
    assert (Hall : sql_avg
                     (map (fun j => extension_case (rt_name (snd j))
                                                   (pr_value (fst j)))
                          (filter (fun j => pr_device_id (fst j) =? d)
                                  (extension_facts db)))
                   = avg_or_null (device_values db d)).
    { rewrite compare_averages_all. apply sql_avg_or_null. }
    assert (Hticks : sql_avg
                       (map (fun j => if (rt_name (snd j)
                                          =? "platform_extension_ticks")%string
                                      then Some (numeric_div (pr_value (fst j)) 20.0)
                                      else None)
                            (filter (fun j => pr_device_id (fst j) =? d)
                                    (extension_facts db)))
                     = avg_or_null
                         (map (fun v => numeric_div v 20.0)
                              (device_values_of_type
                                 db d "platform_extension_ticks"))).
    { unfold device_values_of_type. rewrite map_map.
      apply (sql_avg_filtered
               (fun j => (rt_name (snd j) =? "platform_extension_ticks")%string)
               (fun j => numeric_div (pr_value (fst j)) 20.0)). }
    assert (Hmm : sql_avg
                    (map (fun j => if (rt_name (snd j)
                                       =? "platform_extension_mm")%string
                                   then Some (pr_value (fst j)) else None)
                         (filter (fun j => pr_device_id (fst j) =? d)
                                 (extension_facts db)))
                  = avg_or_null
                      (device_values_of_type db d "platform_extension_mm"))
      by apply sql_avg_filtered.
    assert (Hnull : forall vs, avg_or_null vs = None <-> vs = []).
    { intros [| x vs]; cbn; split; intro H; try reflexivity; discriminate. }
    split; [exact Hne |]. split; [exact Hall |].
    split; [exact Hmm |]. split; [exact Hticks |].
    split; [rewrite Hmm; apply Hnull |].
    split; [rewrite Hticks; apply Hnull |].
    split.
    { intros vs Hvs Hvne. apply avg_or_null_spec; [exact Hvne |].
      destruct Hvs as [-> | [-> | ->]].
      - apply device_values_numeric.
      - apply device_values_of_type_numeric.
      - apply Forall_forall. intros x Hx. apply in_map_iff in Hx.
        destruct Hx as (v & <- & _). apply is_numeric_div. }
    split.
    { exists {| avg_device_id := d;
                avg_extension_mm :=
                  cast_numeric_10_3
                    (sql_avg (map extension_mm
                                  (filter (fun r => device_id r =? d)
                                          (v_platform_extension_mm db)))) |}.
      split; [| split; [reflexivity |]].
      - unfold metric_avg_extension_mm. cbv zeta.
        apply (in_map (fun d0 =>
                 {| avg_device_id := d0;
                    avg_extension_mm :=
                      cast_numeric_10_3
                        (sql_avg (map extension_mm
                                      (filter (fun r => device_id r =? d0)
                                              (v_platform_extension_mm db)))) |})).
        unfold distinct. now apply nodup_In.
      - cbn [avg_extension_mm]. now rewrite compare_averages_all. }
    pose proof (values_by_format
                  (filter (fun j => pr_device_id (fst j) =? d)
                          (extension_facts db))) as Hsplit.
    cbv zeta in Hsplit.
    destruct Hsplit as [Hlen Hsum].
    { intros j Hj. apply filter_In in Hj. apply (extension_fact_names db).
      tauto. }
    rewrite compare_averages_all in Hlen, Hsum.
    fold (device_values db d) in Hlen, Hsum.
    unfold device_values_of_type.
    rewrite (length_map (fun v => numeric_div v 20.0)).
    split; [exact Hlen |].
    rewrite <- Hlen, <- Hsum.
    now apply mean_times_length.
Qed.

Lemma compare_averages_spec_witness :
  In {| ca_device_id := 42;
        avg_new_only_mm := Some 2.2500000000000000%Q;
        avg_legacy_only_mm := Some 1.5000000000000000%Q;
        avg_all_mm := Some 2.0000000000000000%Q |}
     (compare_averages swing_db)
  /\ device_values swing_db 42 <> [].
Proof.
  assert (Hin : In {| ca_device_id := 42;
        avg_new_only_mm := Some 2.2500000000000000%Q;
        avg_legacy_only_mm := Some 1.5000000000000000%Q;
        avg_all_mm := Some 2.0000000000000000%Q |}
     (compare_averages swing_db))
    by (left; vm_compute; reflexivity).
  split; [exact Hin |].
  exact (proj1 (proj2 (proj2 (compare_averages_spec swing_db)) _ Hin)).
Defined.

(** [AVG] of one, one and two. *)
Example average_of_thirds :
  avg_or_null [1; 1; 2]%Q = Some 1.3333333333333333%Q.
Proof. vm_compute. reflexivity. Qed.

(** ** Movements and readings *)

Lemma metric_extension_vs_retraction_row (db : database)
    (row : extension_vs_retraction_row) :
  In row (metric_extension_vs_retraction db) ->
  In (evr_device_id row) (map device_id (v_platform_extension_mm db))
  /\ extensions row
     = Some (count_pairs is_extension (reading_values db (evr_device_id row)))
  /\ retractions row
     = Some (count_pairs is_retraction (reading_values db (evr_device_id row))).
Proof.
  intro Hrow. unfold metric_extension_vs_retraction in Hrow.
  apply in_map_iff in Hrow. destruct Hrow as (d & <- & Hd). cbn.
  unfold distinct in Hd. apply nodup_In in Hd.
  apply series_device_ids in Hd.
  split; [exact Hd |].
  rewrite (series_group db d Hd).
  pose proof (readings_nonempty db d Hd) as Hne.
  assert (Hlag : map extension_flag (series_of_partition (readings db d)) <> []
                 /\ map retraction_flag (series_of_partition (readings db d)) <> []).
  { unfold series_of_partition.
    split; intro Hnil; apply Hne; apply map_eq_nil in Hnil;
      apply map_eq_nil in Hnil;
      rewrite <- (lag_fst extension_mm None (readings db d)), Hnil;
      reflexivity. }
  destruct Hlag as [Hext Hret].
  rewrite (sql_sum_nonempty _ Hext), (sql_sum_nonempty _ Hret).
  unfold series_of_partition, reading_values.
  rewrite (lag_sum _ extension_flag is_extension
             (fun r c prev => extension_flag_spec (fst (r, prev)) c prev)
             (readings db d) None (readings_not_null db d)).
  rewrite (lag_sum _ retraction_flag is_retraction
             (fun r c prev => retraction_flag_spec (fst (r, prev)) c prev)
             (readings db d) None (readings_not_null db d)).
  split; reflexivity.
Qed.

Lemma reading_values_length (db : database) (d : Z) :
  List.length (reading_values db d)
  = List.length (filter (fun r => device_id r =? d) (v_platform_extension_mm db)).
Proof.
  unfold reading_values.
  rewrite (non_null_length _ (readings_not_null db d)).
  apply Permutation_length. apply readings_ordered.
Qed.

(** X14. In [metric_extension_vs_retraction] neither count is [NULL] or
    negative, and every device's extensions, retractions and pairs of equal
    consecutive values add up to the number of its view rows minus one: a
    device with [n] readings has at most [n - 1] movements. *)
Theorem extension_vs_retraction_bound (db : database)
    (row : extension_vs_retraction_row) :
  In row (metric_extension_vs_retraction db) ->
  exists e r,
    extensions row = Some e
    /\ retractions row = Some r
    /\ 0 <= e /\ 0 <= r
    /\ e + r + count_pairs is_tie (reading_values db (evr_device_id row))
       = Z.of_nat (List.length
                     (filter (fun x => device_id x =? evr_device_id row)
                             (v_platform_extension_mm db))) - 1
    /\ e + r <= Z.of_nat (List.length
                            (filter (fun x => device_id x =? evr_device_id row)
                                    (v_platform_extension_mm db))) - 1.
Proof.
  intro Hrow.
  destruct (metric_extension_vs_retraction_row db row Hrow)
    as (Hd & He & Hr).
  set (d := evr_device_id row) in *.
  exists (count_pairs is_extension (reading_values db d)),
         (count_pairs is_retraction (reading_values db d)).
  pose proof (count_pairs_nonneg is_extension (reading_values db d)) as H0e.
  pose proof (count_pairs_nonneg is_retraction (reading_values db d)) as H0r.
  pose proof (count_pairs_nonneg is_tie (reading_values db d)) as H0t.
  pose proof (count_pairs_total (reading_values db d)) as Htot.
  rewrite reading_values_length in Htot.
  apply in_map_filter_key in Hd.
  repeat (split; [assumption || lia |]). lia.
Qed.

Lemma extension_vs_retraction_bound_witness :
  exists e r,
    Some 2 = Some e /\ Some 2 = Some r
    /\ 0 <= e /\ 0 <= r
    /\ e + r + count_pairs is_tie (reading_values swing_db 42)
       = Z.of_nat (List.length
                     (filter (fun x => device_id x =? 42)
                             (v_platform_extension_mm swing_db))) - 1
    /\ e + r <= Z.of_nat (List.length
                            (filter (fun x => device_id x =? 42)
                                    (v_platform_extension_mm swing_db))) - 1.
Proof.
  exact (extension_vs_retraction_bound swing_db
           {| evr_device_id := 42; extensions := Some 2;
              retractions := Some 2 |}
           (or_introl eq_refl)).
Defined.

(** ** The dialog's keys and the handler of [/api/examples/run] *)

Lemma QUERY_MAP_own (key : string) :
  In key (map opt_key OPTIONS) <-> exists q, QUERY_MAP key = own_entry q.
Proof.
  unfold QUERY_MAP. cbn [map OPTIONS opt_key In].
  destruct (String.eqb_spec key "counts_by_type") as [-> | H1];
    [split; [eauto | auto] |].
  destruct (String.eqb_spec key "devices_both_formats") as [-> | H2];
    [split; [eauto | auto] |].
  destruct (String.eqb_spec key "unified_recent") as [-> | H3];
    [split; [eauto | auto] |].
  destruct (String.eqb_spec key "side_switches") as [-> | H4];
    [split; [eauto | auto 6] |].
  split.
  - intros [H | [H | [H | [H | []]]]]; congruence.
  - intros [q Hq].
    destruct (existsb (String.eqb key) object_prototype_names); discriminate.
Qed.

Lemma QUERY_MAP_undefined (key : string) :
  QUERY_MAP key = undefined
  <-> ~ In key (map opt_key OPTIONS) /\ ~ In key object_prototype_names.
Proof.
  split.
  - intro Hu. split.
    + intro Hin. apply QUERY_MAP_own in Hin. destruct Hin as [q Hq].
      congruence.
    + intro Hin. revert Hu. unfold QUERY_MAP.
      assert (Hex : existsb (String.eqb key) object_prototype_names = true).
      { apply existsb_exists. exists key. split; [exact Hin |].
        apply String.eqb_refl. }
      rewrite Hex.
      repeat match goal with
             | |- context [String.eqb ?a ?b] => destruct (String.eqb a b)
             end; discriminate.
  - intros [Hown Hproto].
    destruct (QUERY_MAP key) as [q | |] eqn:Hq; [| | reflexivity].
    + exfalso. apply Hown. apply QUERY_MAP_own. eauto.
    + exfalso. apply Hproto. revert Hq. unfold QUERY_MAP.
      repeat match goal with
             | |- context [String.eqb ?a ?b] => destruct (String.eqb a b)
             end; try discriminate.
      destruct (existsb (String.eqb key) object_prototype_names) eqn:Hex;
        [| discriminate].
      intros _. apply existsb_exists in Hex. destruct Hex as (n & Hn & Heq).
      apply String.eqb_eq in Heq. now subst.
Qed.

Lemma offered_rows_execute (key : string) (q : example_query) (db : database) :
  QUERY_MAP key = own_entry q ->
  execute q db = (db, snd (execute q db))
  /\ offered_rows key db = Some (snd (execute q db)).
Proof.
  unfold QUERY_MAP, offered_rows.
  destruct (key =? "counts_by_type")%string;
    [intro H; injection H as <-; split; reflexivity |].
  destruct (key =? "devices_both_formats")%string;
    [intro H; injection H as <-; split; reflexivity |].
  destruct (key =? "unified_recent")%string;
    [intro H; injection H as <-; split; reflexivity |].
  destruct (key =? "side_switches")%string;
    [intro H; injection H as <-; split; reflexivity |].
  destruct (existsb (String.eqb key) object_prototype_names); discriminate.
Qed.

(** X15. The handler of [/api/examples/run] never changes the database.
    Through a pool that reaches the database it answers 200 exactly for the
    keys the query dialog offers, and the rows are those of the query the
    key stands for: the counts by type for [counts_by_type], the devices of
    both formats for [devices_both_formats], the recent unified rows for
    [unified_recent] and the side switches for [side_switches].  A 200 is
    answered only so: for an offered key, through a pool that [getPool]
    returned and that reaches the database; and the next request for the
    key gets the same answer whatever [DATABASE_URL] has become, the pool
    being cached.  It answers 400 exactly for the
    keys that are neither offered nor the name of a property of
    [Object.prototype], whatever the pool and the environment. *)
Theorem offered_keys_are_served (reachable : string -> bool)
    (database_url : option string) (key : string) (st : pool_module)
    (db : database) :
  snd (fst (handler reachable database_url key st db)) = db
  /\ (forall p, snd (getPool database_url st) = inl p ->
                reachable (connectionString p) = true ->
        (In key (map opt_key OPTIONS)
         <-> exists q rows,
               snd (handler reachable database_url key st db)
               = status_200 q rows))
  /\ (forall q rows,
        snd (handler reachable database_url key st db) = status_200 q rows ->
        In key (map opt_key OPTIONS)
        /\ QUERY_MAP key = own_entry q
        /\ offered_rows key db = Some rows
        /\ exists p, snd (getPool database_url st) = inl p
                     /\ reachable (connectionString p) = true)
  /\ (forall q rows later_url,
        snd (handler reachable database_url key st db) = status_200 q rows ->
        snd (handler reachable later_url key
                     (fst (fst (handler reachable database_url key st db))) db)
        = status_200 q rows)
  /\ (snd (handler reachable database_url key st db)
      = status_400_invalid_query_key
      <-> ~ In key (map opt_key OPTIONS)
          /\ ~ In key object_prototype_names)
  /\ offered_rows "counts_by_type" db
     = Some (rows_counts_by_type (counts_by_type db))
  /\ offered_rows "devices_both_formats" db
     = Some (rows_devices_both_formats (devices_both_formats db))
  /\ offered_rows "unified_recent" db
     = Some (rows_unified_recent (unified_recent db))
  /\ offered_rows "side_switches" db
     = Some (rows_side_switches (side_switches db)).
Proof.
  assert (H200 : forall q rows,
            snd (handler reachable database_url key st db) = status_200 q rows
            -> QUERY_MAP key = own_entry q
               /\ offered_rows key db = Some rows
               /\ exists p, snd (getPool database_url st) = inl p
                            /\ reachable (connectionString p) = true).
  { intros q rows H. unfold handler in H.
    destruct (QUERY_MAP key) as [q' | |] eqn:Hq; try discriminate.
    destruct (offered_rows_execute key q' db Hq) as [Hex Hoff].
    destruct (getPool database_url st) as [st1 [p | e]];
      cbn [fst snd] in *; try discriminate.
    unfold pool_query in H.
    destruct (reachable (connectionString p)) eqn:Hreach;
      [| discriminate].
    rewrite Hex in H. cbn in H. injection H as <- <-.
    split; [reflexivity |]. split; [exact Hoff |]. eauto. }
  split; [| split; [| split; [| split; [| split]]]].
  - unfold handler. destruct (QUERY_MAP key) as [q | |] eqn:Hq;
      try reflexivity.
    destruct (offered_rows_execute key q db Hq) as [Hex _].
    destruct (getPool database_url st) as [st1 [p | e]]; [| reflexivity].
    unfold pool_query. destruct (reachable (connectionString p));
      [| reflexivity].
    rewrite Hex. reflexivity.
  - intros p Hp Hreach. rewrite QUERY_MAP_own. split.
    + intros [q Hq]. exists q, (snd (execute q db)).
      destruct (offered_rows_execute key q db Hq) as [Hex _].
      unfold handler. rewrite Hq.
      destruct (getPool database_url st) as [st1 [p' | e]];
        cbn [snd] in Hp; [| discriminate].
      injection Hp as ->. unfold pool_query. rewrite Hreach, Hex.
      reflexivity.
    + intros (q & rows & H). exists q. now apply (H200 q rows).
  - intros q rows H. destruct (H200 q rows H) as (Hq & Hoff & Hp).
    split; [apply QUERY_MAP_own; eauto |]. auto.
  - intros q rows later_url H.
    pose proof (getPool_caches database_url st) as Hcache.
    unfold handler in *.
    destruct (QUERY_MAP key) as [q' | |] eqn:Hq; try discriminate.
    destruct (getPool database_url st) as [st1 [p | e]];
      cbn [fst snd] in *; try discriminate.
    destruct (pool_query reachable p q' db) as [db' [rows' |]] eqn:Hpq;
      cbn [fst snd] in *; try discriminate.
    rewrite (getPool_cached later_url st1 p (Hcache p eq_refl)), Hpq.
    exact H.
  - rewrite <- QUERY_MAP_undefined. unfold handler.
    destruct (QUERY_MAP key) as [q | |]; split; intro H;
      try discriminate; try reflexivity.
    destruct (getPool database_url st) as [st1 [p | e]];
      cbn [snd] in H; [| discriminate].
    destruct (pool_query reachable p q db) as [db' [rows |]]; discriminate.
  - repeat split.
Qed.

Lemma offered_keys_are_served_witness :
  snd (handler (fun _ => true) (Some "postgres://db"%string) "side_switches"
               pool_module_init swing_db)
  = status_200 q_side_switches (rows_side_switches (side_switches swing_db))
  /\ offered_rows "side_switches" swing_db
     = Some (rows_side_switches (side_switches swing_db)).
Proof.
  assert (H : snd (handler (fun _ => true) (Some "postgres://db"%string)
                           "side_switches" pool_module_init swing_db)
              = status_200 q_side_switches
                           (rows_side_switches (side_switches swing_db)))
    by reflexivity.
  split; [exact H |].
  exact (proj1 (proj2 (proj2
           (proj1 (proj2 (proj2 (offered_keys_are_served
                                   (fun _ => true)
                                   (Some "postgres://db"%string)
                                   "side_switches" pool_module_init
                                   swing_db))) _ _ H)))).
Defined.

(** ** The pool is a singleton *)

Lemma getPool_calls_cached (envs : list (option string)) (st : pool_module)
    (p : Pool) :
  _pool st = Some p ->
  getPool_calls envs st = (st, map (fun _ => inl p) envs).
Proof.
  intro Hp. induction envs as [| env envs IH]; cbn; [reflexivity |].
  unfold getPool. rewrite Hp. now rewrite IH.
Qed.

Lemma getPool_calls_unset (envs : list (option string)) (st : pool_module) :
  _pool st = None ->
  Forall (fun env => is_set env = false) envs ->
  getPool_calls envs st
  = (st, map (fun _ => inr "DATABASE_URL is not set"%string) envs).
Proof.
  intros Hst Hall. induction Hall as [| env envs Henv _ IH]; cbn;
    [reflexivity |].
  unfold getPool. rewrite Hst.
  destruct env as [[| c conn] |]; try discriminate; now rewrite IH.
Qed.

(** X16. Over any sequence of calls to [getPool] from a fresh module: as
    long as [DATABASE_URL] is unset or empty every call throws and the
    module stays as it was; the first call that finds it set constructs the
    one pool, with that connection string and [max] 5; every later call
    returns that same pool, whatever the environment has become, and no
    second pool is constructed. *)
Theorem getPool_singleton (before after : list (option string))
    (conn : string) :
  conn <> EmptyString ->
  Forall (fun env => is_set env = false) before ->
  let p := {| pool_id := 0; connectionString := conn; max := 5 |} in
  getPool_calls before pool_module_init
  = (pool_module_init,
     map (fun _ => inr "DATABASE_URL is not set"%string) before)
  /\ getPool_calls (before ++ Some conn :: after) pool_module_init
     = ({| _pool := Some p; pools_constructed := 1 |},
        map (fun _ => inr "DATABASE_URL is not set"%string) before
        ++ map (fun _ => inl p) (Some conn :: after)).
Proof.
  intros Hconn Hbefore p.
  split; [now apply getPool_calls_unset |].
  assert (Hgen : forall st, _pool st = None -> pools_constructed st = 0%nat ->
            getPool_calls (before ++ Some conn :: after) st
            = ({| _pool := Some p; pools_constructed := 1 |},
               map (fun _ => inr "DATABASE_URL is not set"%string) before
               ++ map (fun _ => inl p) (Some conn :: after))).
  { induction Hbefore as [| env envs Henv _ IH]; intros st Hst Hn.
    - cbn [app map getPool_calls]. unfold getPool. rewrite Hst.
      destruct conn as [| c conn]; [contradiction |].
      rewrite Hn. cbv zeta.
      erewrite (getPool_calls_cached after); [reflexivity | reflexivity].
    - cbn [app map getPool_calls]. unfold getPool at 1. rewrite Hst.
      destruct env as [[| c env] |]; try discriminate;
        now rewrite (IH st Hst Hn). }
  now apply Hgen.
Qed.

Lemma getPool_singleton_witness :
  getPool_calls [None; Some EmptyString] pool_module_init
  = (pool_module_init,
     [inr "DATABASE_URL is not set"%string;
      inr "DATABASE_URL is not set"%string])
  /\ getPool_calls
       ([None; Some EmptyString]
        ++ Some "postgres://a"%string :: [None; Some "postgres://b"%string])
       pool_module_init
     = ({| _pool := Some {| pool_id := 0; connectionString := "postgres://a";
                            max := 5 |};
           pools_constructed := 1 |},
        [inr "DATABASE_URL is not set"%string;
         inr "DATABASE_URL is not set"%string]
        ++ [inl {| pool_id := 0; connectionString := "postgres://a"; max := 5 |};
            inl {| pool_id := 0; connectionString := "postgres://a"; max := 5 |};
            inl {| pool_id := 0; connectionString := "postgres://a"; max := 5 |}]).
Proof.
  refine (getPool_singleton [None; Some EmptyString]
            [None; Some "postgres://b"%string] "postgres://a" _ _).
  - discriminate.
  - repeat constructor.
Defined.

(** ** The seed of [record_type] *)

Lemma has_name_In (name : string) (rows : list record_type_row) :
  has_name name rows = true <-> In name (map rt_name rows).
Proof.
  unfold has_name. rewrite existsb_exists, in_map_iff.
  split.
  - intros (rt & Hin & Heq). apply String.eqb_eq in Heq. eauto.
  - intros (rt & Heq & Hin). exists rt.
    split; [exact Hin | now apply String.eqb_eq].
Qed.

Lemma new_rows_names (seq : Z) (names : list string)
    (rows : list record_type_row) :
  map rt_name (new_rows seq names rows)
  = filter (fun n => negb (has_name n rows)) names.
Proof.
  revert seq. induction names as [| n names IH]; intro seq; cbn;
    [reflexivity |].
  destruct (has_name n rows); cbn; now rewrite IH.
Qed.

Lemma new_rows_ids (seq : Z) (names : list string)
    (rows : list record_type_row) (rt : record_type_row) :
  In rt (new_rows seq names rows) ->
  seq <= rt_id rt < seq + Z.of_nat (List.length names).
Proof.
  revert seq. induction names as [| n names IH]; intros seq H;
    [contradiction |].
  cbn [new_rows] in H. cbn [List.length]. rewrite Nat2Z.inj_succ.
  destruct (has_name n rows).
  - apply IH in H. lia.
  - destruct H as [<- | H]; [cbn; lia | apply IH in H; lia].
Qed.

Lemma new_rows_ids_unique (seq : Z) (names : list string)
    (rows : list record_type_row) :
  NoDup (map rt_id (new_rows seq names rows)).
Proof.
  revert seq. induction names as [| n names IH]; intro seq; cbn;
    [constructor |].
  destruct (has_name n rows); [apply IH |].
  cbn. constructor; [| apply IH].
  intro Hin. apply in_map_iff in Hin. destruct Hin as (rt & Hid & Hrt).
  apply new_rows_ids in Hrt. lia.
Qed.

Lemma new_rows_ext (seq : Z) (names : list string)
    (rows rows' : list record_type_row) :
  (forall n, In n names -> has_name n rows = has_name n rows') ->
  new_rows seq names rows = new_rows seq names rows'.
Proof.
  revert seq. induction names as [| n names IH]; intros seq H; cbn;
    [reflexivity |].
  rewrite <- (H n (or_introl eq_refl)).
  rewrite (IH (seq + 1) (fun m Hm => H m (or_intror Hm))). reflexivity.
Qed.

Lemma new_rows_present (seq : Z) (names : list string)
    (rows : list record_type_row) :
  (forall n, In n names -> has_name n rows = true) ->
  new_rows seq names rows = [].
Proof.
  revert seq. induction names as [| n names IH]; intros seq H; cbn;
    [reflexivity |].
  rewrite (H n (or_introl eq_refl)).
  apply IH. intros m Hm. apply H. now right.
Qed.

Lemma set_record_type_same (db : database) :
  set_record_type (record_type db) (record_type_id_seq db) db = db.
Proof. now destruct db. Qed.

(** A [VALUES] list of distinct names, on a table whose ids are behind the
    sequence, adds exactly the rows of the names that are not stored. *)
Lemma insert_record_types_spec (names : list string) :
  forall db,
    NoDup names ->
    (forall rt, In rt (record_type db) -> rt_id rt < record_type_id_seq db) ->
    record_type_id_seq db + Z.of_nat (List.length names) - 1 <= 2147483647 ->
    insert_record_types names db
    = Value (set_record_type
               (record_type db
                ++ new_rows (record_type_id_seq db) names (record_type db))
               (record_type_id_seq db + Z.of_nat (List.length names)) db).
Proof.
  induction names as [| n names IH]; intros db Hnd Hids Hmax.
  - cbn. rewrite app_nil_r, Z.add_0_r, set_record_type_same. reflexivity.
  - inversion Hnd as [| ? ? Hnotin Hnd']; subst.
    cbn [List.length] in *. rewrite Nat2Z.inj_succ in *.
    cbn [insert_record_types new_rows]. unfold insert_record_type.
    cbv zeta.
    assert (Hle : (2147483647 <? record_type_id_seq db) = false)
      by (apply Z.ltb_ge; lia).
    rewrite Hle.
    destruct (has_name n (record_type db)) eqn:Hn.
    + rewrite IH; [| exact Hnd' | |]; cbn [record_type record_type_id_seq
                                            set_record_type].
      * unfold set_record_type. cbn. do 2 f_equal. lia.
      * intros rt Hrt. apply Hids in Hrt. lia.
      * lia.
    + assert (Hfree : existsb (fun rt => rt_id rt =? record_type_id_seq db)
                              (record_type db) = false).
      { destruct (existsb _ (record_type db)) eqn:Hex; [| reflexivity].
        apply existsb_exists in Hex. destruct Hex as (rt & Hrt & Heq).
        apply Z.eqb_eq in Heq. apply Hids in Hrt. lia. }
      rewrite Hfree.
      rewrite IH; [| exact Hnd' | |]; cbn [record_type record_type_id_seq
                                            set_record_type].
      * rewrite <- app_assoc. cbn [app].
        rewrite (new_rows_ext _ names
                   (record_type db
                    ++ [ {| rt_id := record_type_id_seq db; rt_name := n;
                            rt_version_id := None |} ])
                   (record_type db)).
        -- unfold set_record_type. cbn. do 2 f_equal. lia.
        -- intros m Hm. unfold has_name. rewrite existsb_app. cbn.
           destruct (String.eqb_spec n m) as [-> | Hne]; [contradiction |].
           now rewrite !orb_false_r.
      * intros rt Hrt. apply in_app_iff in Hrt.
        destruct Hrt as [Hrt | [<- | []]]; [apply Hids in Hrt; lia | cbn; lia].
      * lia.
Qed.

Lemma seed_names_distinct : NoDup seed_names.
Proof.
  unfold seed_names.
  repeat (constructor;
          [cbn; intro H;
           repeat (destruct H as [H | H]; [discriminate |]); contradiction |]).
  constructor.
Qed.

(** X17. The seed statement of [001_tables.sql], on a [record_type] table
    whose ids are behind its sequence: it succeeds, keeps every stored row
    and adds one row for each of the four names that is missing; afterwards
    the four names are stored, and names and ids stay unique.  Run again it
    adds nothing; but each run, the second included, takes four values from
    the sequence. *)
Theorem seed_record_types_idempotent (db : database) :
  (forall rt, In rt (record_type db) -> rt_id rt < record_type_id_seq db) ->
  record_type_id_seq db + 7 <= 2147483647 ->
  let seq := record_type_id_seq db in
  let rows := record_type db ++ new_rows seq seed_names (record_type db) in
  seed_record_types db = Value (set_record_type rows (seq + 4) db)
  /\ seed_record_types (set_record_type rows (seq + 4) db)
     = Value (set_record_type rows (seq + 8) db)
  /\ (forall n, In n seed_names -> In n (map rt_name rows))
  /\ (NoDup (map rt_name (record_type db)) -> NoDup (map rt_name rows))
  /\ (NoDup (map rt_id (record_type db)) -> NoDup (map rt_id rows)).
Proof.
  intros Hids Hmax seq rows.
  assert (Hnames : forall n, In n seed_names -> In n (map rt_name rows)).
  { intros n Hn. unfold rows. rewrite map_app, in_app_iff.
    destruct (has_name n (record_type db)) eqn:Hhas.
    - left. now apply has_name_In.
    - right. rewrite new_rows_names. apply filter_In.
      split; [exact Hn | now rewrite Hhas]. }
  split; [| split; [| split; [exact Hnames | split]]].
  - unfold seed_record_types.
    rewrite (insert_record_types_spec seed_names db seed_names_distinct Hids);
      [reflexivity | cbn; lia].
  - unfold seed_record_types.
    rewrite (insert_record_types_spec seed_names _ seed_names_distinct);
      cbn [record_type record_type_id_seq set_record_type].
    + rewrite new_rows_present.
      * rewrite app_nil_r. unfold set_record_type. cbn. do 2 f_equal. lia.
      * intros n Hn. apply has_name_In. now apply Hnames.
    + intros rt Hrt. unfold rows in Hrt. apply in_app_iff in Hrt.
      destruct Hrt as [Hrt | Hrt].
      * apply Hids in Hrt. lia.
      * apply new_rows_ids in Hrt. cbn in Hrt. lia.
    + cbn. lia.
  - intro Hnd. unfold rows. rewrite map_app, new_rows_names.
    apply NoDup_app; [exact Hnd | |].
    + apply NoDup_filter. apply seed_names_distinct.
    + intros n Hin Hnew. apply filter_In in Hnew. destruct Hnew as [_ Hneg].
      apply has_name_In in Hin. rewrite Hin in Hneg. discriminate.
  - intro Hnd. unfold rows. rewrite map_app.
    apply NoDup_app; [exact Hnd | apply new_rows_ids_unique |].
    intros id Hin Hnew.
    apply in_map_iff in Hin. destruct Hin as (rt & <- & Hrt).
    apply in_map_iff in Hnew. destruct Hnew as (rt' & Heq & Hrt').
    apply Hids in Hrt. apply new_rows_ids in Hrt'. lia.
Qed.

Lemma seed_record_types_idempotent_witness :
  seed_record_types empty_db = Value init_db
  /\ seed_record_types init_db
     = Value (set_record_type (record_type init_db) 9 init_db).
Proof.
  assert (Hids : forall rt, In rt (record_type empty_db) ->
                            rt_id rt < record_type_id_seq empty_db)
    by (intros rt []).
  assert (Hmax : record_type_id_seq empty_db + 7 <= 2147483647)
    by (cbn; lia).
  pose proof (seed_record_types_idempotent empty_db Hids Hmax) as H.
  exact (conj (proj1 H) (proj1 (proj2 H))).
Defined.

(** ** The documentation pages *)

Lemma longer_than_md (c : ascii) (s : string) :
  (String c (s ++ ".md") =? ".md")%string = false.
Proof.
  apply String.eqb_neq. intro H.
  destruct s as [| a [| b [| d s]]]; cbn in H; discriminate.
Qed.

Lemma endsWith_md_append (s : string) : endsWith_md (s ++ ".md") = true.
Proof.
  induction s as [| c s IH]; [reflexivity |].
  cbn [append endsWith_md]. rewrite IH. apply orb_true_r.
Qed.

Lemma replace_md_append (s : string) : replace_md (s ++ ".md") = s.
Proof.
  induction s as [| c s IH]; [reflexivity |].
  cbn [append replace_md]. rewrite longer_than_md. now rewrite IH.
Qed.

Lemma endsWith_md_replace (f : string) :
  endsWith_md f = true -> doc_file_name (replace_md f) = f.
Proof.
  unfold doc_file_name.
  induction f as [| c f IH]; [discriminate |].
  cbn [endsWith_md replace_md].
  destruct (String.eqb_spec (String c f) ".md") as [-> | Hne];
    [reflexivity |].
  cbn [orb]. intro H. cbn [append]. now rewrite (IH H).
Qed.

(** X18. The documentation pages that [getStaticPaths] generates are those
    of the files whose name ends in [.md]: the file name [getStaticProps]
    builds from a generated [doc] parameter is the name of the file it came
    from, so a slug is generated exactly when its file is in the directory. *)
Theorem docs_paths_round_trip (files : list string) :
  map doc_file_name (getStaticPaths files) = filter endsWith_md files
  /\ (forall slug, In slug (getStaticPaths files)
                   <-> In (doc_file_name slug) files)
  /\ (forall f, In f files -> endsWith_md f = false ->
                ~ In f (map doc_file_name (getStaticPaths files))).
Proof.
  assert (Hmap : map doc_file_name (getStaticPaths files)
                 = filter endsWith_md files).
  { unfold getStaticPaths. rewrite map_map.
    induction files as [| f files IH]; [reflexivity |].
    cbn [filter]. destruct (endsWith_md f) eqn:Hf; [| exact IH].
    cbn [map]. rewrite IH. now rewrite (endsWith_md_replace f Hf). }
  split; [exact Hmap | split].
  - intro slug. split.
    + intro H. apply (in_map doc_file_name) in H. rewrite Hmap in H.
      apply filter_In in H. tauto.
    + intro H. unfold getStaticPaths.
      rewrite <- (replace_md_append slug).
      apply in_map. apply filter_In. split; [exact H |].
      apply endsWith_md_append.
  - intros f _ Hf. rewrite Hmap. intro H. apply filter_In in H.
    destruct H as [_ H]. congruence.
Qed.

Lemma docs_paths_round_trip_witness :
  In "DATABASE"%string
     (getStaticPaths ["DATABASE.md"; "erd.png"; "notes.md.bak"]%string)
  <-> In (doc_file_name "DATABASE")
         ["DATABASE.md"; "erd.png"; "notes.md.bak"]%string.
Proof.
  exact (proj1 (proj2 (docs_paths_round_trip
                         ["DATABASE.md"; "erd.png"; "notes.md.bak"]%string))
               "DATABASE"%string).
Defined.
